(** * hurl: a shallow embedding of the request pipeline of hurl.cpp

    The development follows the source file: the string helpers, the
    response header callback, the parameter serializer, the gzip wrappers,
    the transport handle and the three request operations, then the client
    session.  libcurl and zlib are not part of the repository; the calls the
    source makes into them are interpreted through the interfaces [LibCurl]
    and [Zlib] below. *)

From Stdlib Require Import ZArith Lia List Ascii String Bool Permutation.
From stdpp Require Import gmap strings list.

Local Open Scope string_scope.
Local Open Scope list_scope.

(** ** std::string helpers (hurl.cpp, namespace detail) *)

Module Str.

(** [isspace] of <cctype> in the "C" locale: space, \t, \n, \v, \f, \r. *)
Definition isspace (c : ascii) : bool :=
  let n := nat_of_ascii c in
  (Nat.eqb n 32 || (Nat.leb 9 n && Nat.leb n 13))%bool.

(** [std::tolower] in the "C" locale: 'A'..'Z' move to 'a'..'z', every other
    byte is returned as it is. *)
Definition tolower_char (c : ascii) : ascii :=
  let n := nat_of_ascii c in
  if (Nat.leb 65 n && Nat.leb n 90)%bool then ascii_of_nat (n + 32) else c.

(** [detail::tolower]: std::transform with std::tolower over a copy. *)
Fixpoint tolower (s : string) : string :=
  match s with
  | EmptyString => EmptyString
  | String c s' => String (tolower_char c) (tolower s')
  end.

(** [detail::ltrim]: from the first byte that is not a space to the end. *)
Fixpoint ltrim (s : string) : string :=
  match s with
  | EmptyString => EmptyString
  | String c s' => if isspace c then ltrim s' else s
  end.

(** [detail::rtrim]: from the start to just after the last byte that is not
    a space (the reverse iterator's base()); the empty string when every
    byte is a space. *)
Fixpoint rtrim (s : string) : string :=
  match s with
  | EmptyString => EmptyString
  | String c s' =>
      match rtrim s' with
      | EmptyString => if isspace c then EmptyString else String c EmptyString
      | r => String c r
      end
  end.

(** [detail::trim]: ltrim(rtrim(s)). *)
Definition trim (s : string) : string := ltrim (rtrim s).

(** [std::string::find(char)]: the position of the first occurrence, or
    npos ([None]). *)
Fixpoint find (c : ascii) (s : string) : option nat :=
  match s with
  | EmptyString => None
  | String d s' => if Ascii.eqb d c then Some 0 else S <$> find c s'
  end.

(** [std::string::substr(pos, n)] for [pos] within the string. *)
Definition substr (pos n : nat) (s : string) : string := substring pos n s.

(** [std::string::substr(pos)]: everything from [pos]. *)
Definition substr_from (pos : nat) (s : string) : string :=
  substring pos (String.length s - pos) s.

(** [std::string::c_str()] as a C library reads it: the bytes before the
    first NUL. *)
Fixpoint c_str (s : string) : string :=
  match s with
  | EmptyString => EmptyString
  | String c s' => if Ascii.eqb c zero then EmptyString else String c (c_str s')
  end.

(** Every byte of [s] satisfies [p]. *)
Fixpoint all (p : ascii -> bool) (s : string) : bool :=
  match s with
  | EmptyString => true
  | String c s' => (p c && all p s')%bool
  end.

(** The first and the last byte of a string, when it has one. *)
Definition first_char (s : string) : option ascii :=
  match s with EmptyString => None | String c _ => Some c end.

Fixpoint last_char (s : string) : option ascii :=
  match s with
  | EmptyString => None
  | String c EmptyString => Some c
  | String _ s' => last_char s'
  end.

(** Membership of a byte in a string. *)
Fixpoint mem (c : ascii) (s : string) : bool :=
  match s with
  | EmptyString => false
  | String d s' => (Ascii.eqb d c || mem c s')%bool
  end.

End Str.

(** ** Responses *)

(** [hurl::httpresponse].  The [headers] member is used by the source
    ([resp->headers[name] = value], [headers.count(...)]) as a map from
    string to string. *)
Record httpresponse := mk_response {
  status : Z;
  body : string;
  headers : gmap string string
}.

Definition set_headers (h : gmap string string) (r : httpresponse) : httpresponse :=
  {| status := status r; body := body r; headers := h |}.

Definition set_body (b : string) (r : httpresponse) : httpresponse :=
  {| status := status r; body := b; headers := headers r |}.

Definition set_status (n : Z) (r : httpresponse) : httpresponse :=
  {| status := n; body := body r; headers := headers r |}.

(** [detail::headerfunc]: the CURLOPT_HEADERFUNCTION callback, applied to one
    received header line.  The source returns [size * nmemb] in every case,
    which tells libcurl to go on; the model returns the updated response. *)
Definition headerfunc (header : string) (resp : httpresponse) : httpresponse :=
  match Str.find ":" header with
  | Some cpos =>
      let name := Str.tolower (Str.substr 0 cpos header) in
      let value := Str.trim (Str.substr_from (cpos + 1) header) in
      set_headers (<[name := value]> (headers resp)) resp
  | None => resp
  end.


(** ** Exceptions (hurl.h) *)

(** [hurl::timeout], [hurl::resolve_error], [hurl::connect_error],
    [hurl::curl_error] with its code, and the [std::runtime_error]s the
    implementation throws with a message. *)
Inductive exn :=
| timeout
| resolve_error
| connect_error
| curl_error (code : Z)
| runtime_error (what : string).

(** How a call ends: it returns a value or an exception propagates. *)
Inductive outcome (A : Type) :=
| Returns (a : A)
| Throws (e : exn).

Arguments Returns {A} a.
Arguments Throws {A} e.

(** ** libcurl, as far as the source calls it *)

(** The CURLcode values that [handle::perform] tests (curl/curl.h). *)
Definition CURLE_OK : Z := 0.
Definition CURLE_COULDNT_RESOLVE_HOST : Z := 6.
Definition CURLE_COULDNT_CONNECT : Z := 7.
Definition CURLE_OPERATION_TIMEDOUT : Z := 28.

(** The options and infos the source names. *)
Inductive CURLoption :=
| CURLOPT_URL | CURLOPT_NOSIGNAL | CURLOPT_NOPROGRESS
| CURLOPT_WRITEFUNCTION | CURLOPT_WRITEDATA
| CURLOPT_HEADERFUNCTION | CURLOPT_HEADERDATA
| CURLOPT_COOKIEFILE | CURLOPT_TIMEOUT
| CURLOPT_POST | CURLOPT_POSTFIELDS | CURLOPT_POSTFIELDSIZE
| CURLOPT_HTTPHEADER | CURLOPT_COOKIELIST.

Inductive CURLINFO :=
| CURLINFO_RESPONSE_CODE
| CURLINFO_COOKIELIST.

(** The values the source passes to [curl_easy_setopt]: a long, a C string,
    a pointer to request bytes, an slist of header lines, the address of one
    of the two callbacks, or the address of the stream or of the response
    the callbacks write to. *)
Inductive optval :=
| VLong (n : Z)
| VString (s : string)
| VData (bytes : string)
| VSlist (lines : list string)
| VStreamfunc
| VHeaderfunc
| VOut
| VResp.

(** What a transfer hands to the callbacks, in order of arrival. *)
Inductive wire :=
| HeaderLine (line : string)
| BodyChunk (bytes : string).

(** The easy interface.  [CURL] is the state behind a [CURL*];
    [curl_easy_perform] yields its result code together with the header
    lines and body chunks it delivered to the callbacks before returning. *)
Class LibCurl := {
  CURL : Type;
  curl_easy_reset : CURL -> CURL;
  curl_easy_setopt : CURL -> CURLoption -> optval -> Z * CURL;
  curl_easy_perform : CURL -> Z * list wire * CURL;
  curl_easy_getinfo_long : CURL -> CURLINFO -> Z * Z;
  curl_easy_getinfo_slist : CURL -> CURLINFO -> Z * list string
}.

(** The percent-encoding libcurl documents for curl_easy_escape: the
    unreserved bytes of RFC 3986 (letters, digits, '-', '.', '_', '~') are
    copied, every other byte becomes '%' and two upper-case hexadecimal
    digits. *)
Definition is_unreserved (c : ascii) : bool :=
  let n := nat_of_ascii c in
  ((Nat.leb 48 n && Nat.leb n 57) || (Nat.leb 65 n && Nat.leb n 90)
   || (Nat.leb 97 n && Nat.leb n 122)
   || Nat.eqb n 45 || Nat.eqb n 46 || Nat.eqb n 95 || Nat.eqb n 126)%bool.

Definition hex_digit (n : nat) : ascii :=
  if Nat.ltb n 10 then ascii_of_nat (48 + n) else ascii_of_nat (55 + n).

Fixpoint percent_encode (s : string) : string :=
  match s with
  | EmptyString => EmptyString
  | String c s' =>
      if is_unreserved c then String c (percent_encode s')
      else
        let n := nat_of_ascii c in
        String "%" (String (hex_digit (n / 16)) (String (hex_digit (n mod 16))
          (percent_encode s')))
  end.

(** ** zlib, as far as the source calls it *)

Definition Z_OK : Z := 0.
Definition Z_STREAM_END : Z := 1.
Definition Z_DATA_ERROR : Z := -3.
Definition Z_BUF_ERROR : Z := -5.

(** zlib declares [avail_in] and [avail_out] as uInt (unsigned int, 32 bits)
    and [total_out] as uLong; the source assigns size_t values to them. *)
Definition uInt (n : Z) : Z := (n mod 2 ^ 32)%Z.
Definition uLong (n : Z) : Z := (n mod 2 ^ 64)%Z.

(** The codec behind the streaming interface: [deflate_stream s] is the gzip
    member that deflate emits for the input [s] under the parameters of the
    source's deflateInit2 call, [inflate_stream c] the data that the gzip
    stream [c] decodes to ([None] when [c] is not a complete valid stream),
    and the two init calls return [deflateInit2] and [inflateInit2]. *)
Class Zlib := {
  deflateInit2 : Z;
  inflateInit2 : Z;
  deflateBound : Z -> Z;
  deflate_stream : string -> string;
  inflate_stream : string -> option string
}.

(** The size of a std::string, as a size_t. *)
Definition size (s : string) : Z := Z.of_nat (String.length s).

(** A std::vector<unsigned char> and the conversions with std::string. *)
Definition bytes := list ascii.
Definition to_bytes (s : string) : bytes := list_ascii_of_string s.
Definition of_bytes (b : bytes) : string := string_of_list_ascii b.

(** The zero-initialised bytes a std::vector<unsigned char> is created or
    grown with. *)
Definition zeros (n : nat) : bytes := replicate n zero.

(** [deflate(&stream, Z_FINISH)] on a freshly initialised stream that reads
    [avail_in] bytes at [next_in] and may write [avail_out] bytes: with room
    for the whole member it writes it and returns Z_STREAM_END; otherwise it
    fills the room there is and asks for more. *)
Definition deflate `{Zlib} (next_in : string) (avail_in avail_out : Z) : Z * bytes :=
  let seen := of_bytes (take (Z.to_nat avail_in) (to_bytes next_in)) in
  let member := to_bytes (deflate_stream seen) in
  if (Z.of_nat (length member) <=? avail_out)%Z then (Z_STREAM_END, member)
  else (if (avail_out =? 0)%Z then Z_BUF_ERROR else Z_OK,
        take (Z.to_nat avail_out) member).

(** [detail::gzip]. *)
Definition gzip `{Zlib} (input : string) : outcome string :=
  let avail_in := uInt (size input) in
  if negb (deflateInit2 =? Z_OK)%Z then
    Throws (runtime_error "error initializing deflate")
  else
    let maxLen := uLong (12 + deflateBound (size input))%Z in
    let avail_out := uInt maxLen in
    let '(rc, written) := deflate input avail_in avail_out in
    let dest := written ++ zeros (Z.to_nat maxLen - length written) in
    let total_out := length written in
    if negb (rc =? Z_STREAM_END)%Z then
      Throws (runtime_error "failed to completely deflate")
    else Returns (of_bytes (take total_out dest)).

(** The output side of a z_stream during inflate.  [pending] stands for
    zlib's internal state: the decoded data still to be written, [None] for
    an input that is not a valid stream.  [next_out] is an offset into the
    destination vector. *)
Record z_stream := mk_z_stream {
  pending : option bytes;
  next_out : nat;
  avail_out : Z;
  total_out : Z
}.

(** [inflate(&stream, Z_SYNC_FLUSH)] with the whole input at hand: it writes
    decoded bytes at [next_out] until the data ends (Z_STREAM_END) or the
    room does (Z_OK); with no room and data left it makes no progress
    (Z_BUF_ERROR); an invalid stream is an error.  zlib may return Z_OK a
    number of times before it reports an invalid stream; the source throws
    in either case. *)
Definition inflate (dest : bytes) (strm : z_stream) : Z * bytes * z_stream :=
  match pending strm with
  | None => (Z_DATA_ERROR, dest, strm)
  | Some r =>
      let n := Z.to_nat (avail_out strm) in
      let w := take n r in
      let dest' := take (next_out strm) dest ++ w
                   ++ drop (next_out strm + length w) dest in
      let strm' := {| pending := Some (drop n r);
                      next_out := next_out strm + length w;
                      avail_out := (avail_out strm - Z.of_nat (length w))%Z;
                      total_out := (total_out strm + Z.of_nat (length w))%Z |} in
      if (Z.of_nat (length r) <=? avail_out strm)%Z then (Z_STREAM_END, dest', strm')
      else if (avail_out strm =? 0)%Z then (Z_BUF_ERROR, dest, strm)
      else (Z_OK, dest', strm')
  end.

Definition INIT_BUFFER_SIZE : Z := 10240.

(** The do-while loop of [detail::gunzip].  Every Z_OK round writes at least
    one pending byte, so the loop ends within [S (length pending)] rounds;
    [fuel] counts them down. *)
Fixpoint gunzip_loop (fuel : nat) (dest : bytes) (strm : z_stream) : outcome string :=
  match fuel with
  | O => Throws (runtime_error "inflate made no progress")
  | S fuel' =>
      let '(rc, dest, strm) := inflate dest strm in
      if (rc =? Z_OK)%Z then
        let oldSize := length dest in
        let dest := dest ++ zeros oldSize in
        gunzip_loop fuel' dest
          {| pending := pending strm;
             next_out := oldSize;
             avail_out := uInt (Z.of_nat (length dest) - Z.of_nat oldSize)%Z;
             total_out := total_out strm |}
      else if negb (rc =? Z_STREAM_END)%Z then
        Throws (runtime_error "failed to completely inflate")
      else Returns (of_bytes (take (Z.to_nat (total_out strm)) dest))
  end.

Definition rounds (p : option bytes) : nat :=
  match p with Some r => S (length r) | None => 1 end.

(** [detail::gunzip]. *)
Definition gunzip `{Zlib} (input : string) : outcome string :=
  let avail_in := uInt (size input) in
  if negb (inflateInit2 =? Z_OK)%Z then
    Throws (runtime_error "error initializing inflate")
  else
    let seen := of_bytes (take (Z.to_nat avail_in) (to_bytes input)) in
    let dest := zeros (Z.to_nat INIT_BUFFER_SIZE) in
    let strm := {| pending := to_bytes <$> inflate_stream seen;
                   next_out := 0;
                   avail_out := uInt (Z.of_nat (length dest));
                   total_out := 0 |} in
    gunzip_loop (rounds (pending strm)) dest strm.

(** gunzip applied to what gzip returns. *)
Definition gunzip_gzip `{Zlib} (input : string) : outcome string :=
  match gzip input with
  | Returns c => gunzip c
  | Throws e => Throws e
  end.

(** ** The state the request pipeline works on *)

(** A [std::ostream] the body is streamed into: the [std::ostringstream] of
    get and post, or the [std::ofstream] of download, which is in a failed
    state when the file could not be opened. *)
Inductive ostream :=
| ostringstream (str : string)
| ofstream (path : string) (is_open : bool).

(** What the library and the file system are asked to do, in order. *)
Inductive event :=
| ev_open_trunc (path : string)
| ev_reset
| ev_setopt (option : CURLoption) (value : optval)
| ev_perform (code : Z) (delivered : list wire)
| ev_getinfo (info : CURLINFO).

Section Pipeline.
Context `{LibCurl} `{Zlib}.

(** [detail::handle]: the CURL* and the slist of pending header lines. *)
Record handle := mk_handle {
  handle_ : CURL;
  headers_ : list string
}.

(** The objects one request touches: the handle it is given, the response
    and the stream whose addresses it registers with libcurl, and the files
    on disk with the paths that can be opened for writing. *)
Record world := mk_world {
  curl : handle;
  result : httpresponse;
  out : ostream;
  files : gmap string string;
  can_open : string -> bool
}.

Definition with_curl (h : handle) (w : world) : world :=
  {| curl := h; result := result w; out := out w; files := files w;
     can_open := can_open w |}.

Definition with_result (r : httpresponse) (w : world) : world :=
  {| curl := curl w; result := r; out := out w; files := files w;
     can_open := can_open w |}.

Definition with_out (o : ostream) (w : world) : world :=
  {| curl := curl w; result := result w; out := o; files := files w;
     can_open := can_open w |}.

Definition with_files (f : gmap string string) (w : world) : world :=
  {| curl := curl w; result := result w; out := out w; files := f;
     can_open := can_open w |}.

(** A computation: from a world to how it ended, the world it left and the
    events it caused. *)
Definition M (A : Type) : Type := world -> outcome A * world * list event.

Definition ret {A} (a : A) : M A := fun w => (Returns a, w, []).

Definition throw {A} (e : exn) : M A := fun w => (Throws e, w, []).

Definition bind {A B} (m : M A) (k : A -> M B) : M B :=
  fun w =>
    match m w with
    | (Returns a, w1, t1) =>
        match k a w1 with (r, w2, t2) => (r, w2, t1 ++ t2) end
    | (Throws e, w1, t1) => (Throws e, w1, t1)
    end.

Definition gets {A} (f : world -> A) : M A := fun w => (Returns (f w), w, []).

Definition modify (f : world -> world) : M unit := fun w => (Returns tt, f w, []).

Definition emit (e : event) : M unit := fun w => (Returns tt, w, [e]).

(** A call that returns or throws without touching the world. *)
Definition lift {A} (o : outcome A) : M A := fun w => (o, w, []).

End Pipeline.

Declare Scope hurl_scope.
Delimit Scope hurl_scope with hurl.
Notation "x <- m ;; k" := (bind m (fun x => k))
  (at level 100, m at next level, right associativity) : hurl_scope.
Notation "m ;; k" := (bind m (fun _ => k))
  (at level 100, right associativity) : hurl_scope.
Local Open Scope hurl_scope.

(** ** detail::handle *)

Section Handle.
Context `{LibCurl}.

Definition set_handle_ (h : CURL) (w : world) : world :=
  with_curl {| handle_ := h; headers_ := headers_ (curl w) |} w.

Definition set_headers_ (l : list string) (w : world) : world :=
  with_curl {| handle_ := handle_ (curl w); headers_ := l |} w.

(** [handle::add_header]: curl_slist_append copies the C string. *)
Definition add_header (header : string) : M unit :=
  modify (fun w => set_headers_ (headers_ (curl w) ++ [Str.c_str header]) w).

(** [handle::clear_headers]. *)
Definition clear_headers : M unit := modify (set_headers_ []).

(** [handle::setopt]. *)
Definition setopt (option : CURLoption) (value : optval) : M unit :=
  fun w =>
    let '(code, h) := curl_easy_setopt (handle_ (curl w)) option value in
    (if (CURLE_OK =? code)%Z then Returns tt else Throws (curl_error code),
     set_handle_ h w, [ev_setopt option value]).

(** [handle::getinfo] at a long (the response code) and at an slist (the
    cookie list). *)
Definition getinfo_long (info : CURLINFO) : M Z :=
  fun w =>
    let '(code, v) := curl_easy_getinfo_long (handle_ (curl w)) info in
    (if (CURLE_OK =? code)%Z then Returns v else Throws (curl_error code),
     w, [ev_getinfo info]).


(** [detail::streamfunc]: the CURLOPT_WRITEFUNCTION callback writes the chunk
    to the stream; a write to a stream that failed to open does nothing.
    It returns [size * nmemb], so the transfer goes on. *)
Definition streamfunc (chunk : string) (w : world) : world :=
  match out w with
  | ostringstream s => with_out (ostringstream (s +:+ chunk)) w
  | ofstream p true =>
      with_files (<[p := default "" (files w !! p) +:+ chunk]> (files w)) w
  | ofstream p false => w
  end.

(** The callbacks [prepare_basic] registers, run on what a transfer delivers:
    [headerfunc] on the response, [streamfunc] on the stream. *)
Definition callback (w : world) (e : wire) : world :=
  match e with
  | HeaderLine line => with_result (headerfunc line (result w)) w
  | BodyChunk chunk => streamfunc chunk w
  end.

Definition deliver (delivered : list wire) (w : world) : world :=
  fold_left callback delivered w.

(** [curl_easy_perform(handle_)], callbacks included. *)
Definition easy_perform : M Z :=
  fun w =>
    let '(code, delivered, h) := curl_easy_perform (handle_ (curl w)) in
    (Returns code, deliver delivered (set_handle_ h w), [ev_perform code delivered]).

(** [handle::perform]. *)
Definition perform : M unit :=
  hs <- gets (fun w => headers_ (curl w)) ;;
  setopt CURLOPT_HTTPHEADER (VSlist hs) ;;
  code <- easy_perform ;;
  if (CURLE_OK =? code)%Z then ret tt
  else if (CURLE_OPERATION_TIMEDOUT =? code)%Z then throw timeout
  else if (CURLE_COULDNT_RESOLVE_HOST =? code)%Z then throw resolve_error
  else if (CURLE_COULDNT_CONNECT =? code)%Z then throw connect_error
  else throw (curl_error code).

(** How perform ends for a result code of the transfer, in the words of
    the specification. *)
Definition perform_outcome (code : Z) : outcome unit :=
  if (CURLE_OK =? code)%Z then Returns tt
  else if (CURLE_OPERATION_TIMEDOUT =? code)%Z then Throws timeout
  else if (CURLE_COULDNT_RESOLVE_HOST =? code)%Z then Throws resolve_error
  else if (CURLE_COULDNT_CONNECT =? code)%Z then Throws connect_error
  else Throws (curl_error code).

(** [handle::reset]. *)
Definition reset : M unit :=
  clear_headers ;;
  modify (fun w => set_handle_ (curl_easy_reset (handle_ (curl w))) w) ;;
  emit ev_reset.

End Handle.

(** ** Parameter serialization *)

(** [hurl::httpparams], a std::map<std::string, std::string>, as the entries
    its iterators visit from begin() to end(): in ascending order of key
    under std::less<std::string>, one entry per key. *)
Definition httpparams := list (string * string).

Definition key_lt (a b : string) : Prop := String.ltb a b = true.

(** The keys ascend strictly: the shape of every std::map. *)
Fixpoint ascending (m : httpparams) : Prop :=
  match m with
  | [] => True
  | (k, _) :: m' =>
      match m' with
      | [] => True
      | (k', _) :: _ => key_lt k k'
      end /\ ascending m'
  end.

(** [m[k] = v]: a new entry goes to its place in the order, an entry with
    an equal key has its value replaced. *)
Fixpoint params_set (k v : string) (m : httpparams) : httpparams :=
  match m with
  | [] => [(k, v)]
  | (k', v') :: m' =>
      match String.compare k k' with
      | Lt => (k, v) :: m
      | Eq => (k, v) :: m'
      | Gt => (k', v') :: params_set k v m'
      end
  end.

(** The map a caller builds by assigning the pairs one after the other. *)
Definition params_of (l : list (string * string)) : httpparams :=
  fold_left (fun m kv => params_set (fst kv) (snd kv) m) l [].

(** A size_t given where the callee takes an [int]: the low 32 bits, read
    as a signed number. *)
Definition to_int (n : Z) : Z := ((n + 2 ^ 31) mod 2 ^ 32 - 2 ^ 31)%Z.

(** [curl_easy_escape(NULL, string, inlength)] is libcurl's.  Its first
    argument here is the buffer the pointer leads to, the second the int
    it is given; the answer is a new C string, or NULL ([None]) when
    libcurl refuses or fails. *)
Class CurlEscape := {
  curl_easy_escape : string -> Z -> option string
}.

(** The bytes libcurl documents it to encode: the first [inlength] bytes
    of the buffer, or, when [inlength] is 0, the bytes before the first
    NUL. *)
Definition escape_input (buffer : string) (inlength : Z) : string :=
  if (inlength =? 0)%Z then Str.c_str buffer
  else of_bytes (take (Z.to_nat inlength) (to_bytes buffer)).

(** What libcurl documents of an answer that is not NULL: it is the
    percent-encoding of those bytes. *)
Definition escape_sound `{CurlEscape} : Prop :=
  forall buffer inlength out,
    curl_easy_escape buffer inlength = Some out ->
    out = percent_encode (escape_input buffer inlength).

(** The [std::stringstream] of serialize while it is written to: what it
    holds, and whether it is still good. *)
Record stringstream := mk_stringstream {
  ss_str : string;
  ss_good : bool
}.

(** [ss << s] for a [char*]: the C string is appended; a null pointer sets
    badbit instead, and a stream that is not good ignores every later
    insertion. *)
Definition put (s : option string) (ss : stringstream) : stringstream :=
  if ss_good ss then
    match s with
    | Some s => {| ss_str := ss_str ss +:+ s; ss_good := true |}
    | None => {| ss_str := ss_str ss; ss_good := false |}
    end
  else ss.

(** [detail::serialize]: the loop over the map with its stringstream.  The
    answers of curl_easy_escape go to the stream unchecked. *)
Definition serialize `{CurlEscape} (params : httpparams) : string :=
  ss_str (snd (fold_left
         (fun (st : bool * stringstream) (it : string * string) =>
            let ss := if fst st then snd st else put (Some "&") (snd st) in
            let name := curl_easy_escape (fst it) (to_int (size (fst it))) in
            let value := curl_easy_escape (snd it) (to_int (size (snd it))) in
            (false, put value (put (Some "=") (put name ss))))
         params (true, {| ss_str := ""; ss_good := true |}))).

(** [detail::query]. *)
Definition query `{CurlEscape} (url : string) (params : httpparams) : string :=
  url +:+ "?" +:+ serialize params.

(** One pair as the specification words it: key=value with both sides
    percent-encoded. *)
Definition pair_text (it : string * string) : string :=
  percent_encode (fst it) +:+ "=" +:+ percent_encode (snd it).

(** The serializer as the specification words it: the pairs joined by
    '&'. *)
Definition serialize_spec (params : httpparams) : string :=
  String.concat "&" (map pair_text params).

(** libcurl encodes the whole of [s] when serialize asks it to. *)
Definition escapes `{CurlEscape} (s : string) : Prop :=
  curl_easy_escape s (to_int (size s)) = Some (percent_encode s).

Definition escapes_all `{CurlEscape} (params : httpparams) : Prop :=
  List.Forall (fun it => escapes (fst it) /\ escapes (snd it)) params.

(** One pair as serialize writes it when libcurl answers both calls: the
    encoding of the bytes libcurl is told to read. *)
Definition wire_pair (it : string * string) : string :=
  percent_encode (escape_input (fst it) (to_int (size (fst it))))
  +:+ "=" +:+
  percent_encode (escape_input (snd it) (to_int (size (snd it)))).

(** Occurrences of a byte in a string. *)
Fixpoint count_char (c : ascii) (s : string) : nat :=
  match s with
  | EmptyString => 0
  | String d s' => (if Ascii.eqb d c then 1 else 0) + count_char c s'
  end.

(** ** The request operations (namespace detail) *)

(** An [int] handed to the variadic curl_easy_setopt for an option libcurl
    reads as a long: where a long has 64 bits it is the 32 bits of the int
    with zeros above, so a negative value arrives 2^32 larger. *)
Definition int_as_long (n : Z) : Z := (n mod 2 ^ 32)%Z.

Section Executor.
Context `{LibCurl} `{Zlib} `{CurlEscape}.

(** A default-constructed [httpresponse]: empty body and headers (the
    status is set by getinfo before any reader sees it). *)
Definition fresh_response : httpresponse :=
  {| status := 0; body := ""; headers := ∅ |}.

(** [detail::prepare_basic].  The [resp] and [out] arguments of the source
    are the response and the stream of the world; libcurl is given their
    addresses. *)
Definition prepare_basic (url : string) (timeout : Z)
    (accept_compression : bool) : M unit :=
  reset ;;
  setopt CURLOPT_URL (VString (Str.c_str url)) ;;
  setopt CURLOPT_NOSIGNAL (VLong 1) ;;
  setopt CURLOPT_NOPROGRESS (VLong 1) ;;
  setopt CURLOPT_WRITEFUNCTION VStreamfunc ;;
  setopt CURLOPT_WRITEDATA VOut ;;
  setopt CURLOPT_HEADERFUNCTION VHeaderfunc ;;
  setopt CURLOPT_HEADERDATA VResp ;;
  setopt CURLOPT_COOKIEFILE (VString "") ;;
  setopt CURLOPT_TIMEOUT (VLong (int_as_long timeout)) ;;
  if accept_compression then add_header "Accept-encoding: gzip" else ret tt.

(** [detail::prepare_post]. *)
Definition prepare_post (data : string) (size : Z) (is_compressed : bool) : M unit :=
  setopt CURLOPT_POST (VLong 1) ;;
  setopt CURLOPT_POSTFIELDS (VData data) ;;
  setopt CURLOPT_POSTFIELDSIZE (VLong size) ;;
  add_header "Expect:" ;;
  if is_compressed then add_header "Content-Encoding: gzip" else ret tt.

(** [detail::process_response], on the response of the world. *)
Definition process_response : M unit :=
  response <- gets result ;;
  match headers response !! "content-encoding" with
  | Some encoding =>
      if String.eqb (Str.tolower encoding) "gzip" then
        b <- lift (gunzip (body response)) ;;
        modify (fun w => with_result (set_body b (result w)) w)
      else ret tt
  | None => ret tt
  end.

(** [ss.str()] of the std::ostringstream the body was streamed into. *)
Definition str_of (o : ostream) : string :=
  match o with
  | ostringstream s => s
  | ofstream _ _ => ""
  end.

(** [detail::get]. *)
Definition get (url : string) (timeout : Z) : M httpresponse :=
  modify (with_result fresh_response) ;;
  modify (with_out (ostringstream "")) ;;
  prepare_basic url timeout true ;;
  perform ;;
  code <- getinfo_long CURLINFO_RESPONSE_CODE ;;
  modify (fun w => with_result (set_status code (result w)) w) ;;
  modify (fun w => with_result (set_body (str_of (out w)) (result w)) w) ;;
  process_response ;;
  gets result.

(** [detail::post]. *)
Definition post (url : string) (data : string) (timeout : Z) : M httpresponse :=
  modify (with_result fresh_response) ;;
  modify (with_out (ostringstream "")) ;;
  prepare_basic url timeout true ;;
  sent <- (if (10240 <? size data)%Z
           then (z <- lift (gzip data) ;; ret (z, true))
           else ret (data, false)) ;;
  prepare_post (fst sent) (size (fst sent)) (snd sent) ;;
  perform ;;
  code <- getinfo_long CURLINFO_RESPONSE_CODE ;;
  modify (fun w => with_result (set_status code (result w)) w) ;;
  modify (fun w => with_result (set_body (str_of (out w)) (result w)) w) ;;
  process_response ;;
  gets result.

(** The statements get and post end with, once more under a name of
    their own: read the response code, copy the stream into the body, let
    process_response see the result, return it. *)
Definition read_back : M httpresponse :=
  code <- getinfo_long CURLINFO_RESPONSE_CODE ;;
  modify (fun w => with_result (set_status code (result w)) w) ;;
  modify (fun w => with_result (set_body (str_of (out w)) (result w)) w) ;;
  process_response ;;
  gets result.

(** [std::ofstream out(path, ios::out | ios::binary | ios::trunc)]: a file
    that can be opened is created or cut to length zero at once; otherwise
    the stream is in a failed state. *)
Definition open_trunc (path : string) : M unit :=
  emit (ev_open_trunc path) ;;
  modify (fun w =>
    if can_open w path
    then with_out (ofstream path true) (with_files (<[path := ""]> (files w)) w)
    else with_out (ofstream path false) w).

(** [detail::download]. *)
Definition download (url : string) (localpath : string) (timeout : Z) : M httpresponse :=
  modify (with_result fresh_response) ;;
  open_trunc (Str.c_str localpath) ;;
  prepare_basic url timeout false ;;
  perform ;;
  code <- getinfo_long CURLINFO_RESPONSE_CODE ;;
  modify (fun w => with_result (set_status code (result w)) w) ;;
  gets result.

(** ** hurl::client *)

(** [client::impl] next to its handle, which is the handle of the world. *)
Record client := mk_client {
  base_ : string;
  timeout_ : Z
}.

Definition client_get (c : client) (path : string) : M httpresponse :=
  get (base_ c +:+ path) (timeout_ c).

Definition client_get_params (c : client) (path : string) (params : httpparams)
    : M httpresponse :=
  get (query (base_ c +:+ path) params) (timeout_ c).

Definition client_post (c : client) (path : string) (data : string) : M httpresponse :=
  post (base_ c +:+ path) data (timeout_ c).

Definition client_post_params (c : client) (path : string) (params : httpparams)
    : M httpresponse :=
  post (base_ c +:+ path) (serialize params) (timeout_ c).

Definition client_download (c : client) (path localpath : string) : M httpresponse :=
  download (base_ c +:+ path) localpath (timeout_ c).

(** A [std::istringstream]: the bytes not read yet and the eofbit. *)
Record istringstream := mk_istringstream {
  rdbuf : string;
  eofbit : bool
}.

(** [std::getline(ss, line)]: the bytes up to the next '\n', which is
    consumed and not stored; reaching the end of the buffer sets eofbit. *)
Fixpoint getline_from (s : string) : string * istringstream :=
  match s with
  | EmptyString => ("", {| rdbuf := ""; eofbit := true |})
  | String c s' =>
      if Ascii.eqb c "010" then ("", {| rdbuf := s'; eofbit := false |})
      else let '(line, ss) := getline_from s' in (String c line, ss)
  end.

Definition getline (ss : istringstream) : string * istringstream :=
  getline_from (rdbuf ss).

(** The while loop of [client::setcookie]; a round reads a line, so
    [fuel] beyond the number of lines is never used. *)
Fixpoint setcookie_loop (fuel : nat) (ss : istringstream) : M unit :=
  match fuel with
  | O => ret tt
  | S fuel' =>
      if eofbit ss then ret tt
      else
        let '(line, ss') := getline ss in
        setopt CURLOPT_COOKIELIST (VString (Str.c_str line)) ;;
        setcookie_loop fuel' ss'
  end.

(** [client::setcookie]. *)
Definition client_setcookie (c : client) (data : string) : M unit :=
  setopt CURLOPT_COOKIELIST (VString "ALL") ;;
  setcookie_loop (S (S (String.length data))) {| rdbuf := data; eofbit := false |}.


End Executor.

(** The lines [client::setcookie] reads from [data]: the pieces between
    the '\n' bytes, the empty ones too. *)
Fixpoint lines (data : string) : list string :=
  match data with
  | EmptyString => [""]
  | String c s' =>
      if Ascii.eqb c "010" then "" :: lines s'
      else
        match lines s' with
        | l :: ls => String c l :: ls
        | [] => [String c ""]
        end
  end.

(** The call [client::setcookie] makes for one line. *)
Definition cookie_call (line : string) : event :=
  ev_setopt CURLOPT_COOKIELIST (VString (Str.c_str line)).

(** ** Reading a trace *)

(** The request bytes handed to libcurl with CURLOPT_POSTFIELDS. *)
Definition postfields_of (t : list event) : list string :=
  flat_map (fun e => match e with
                     | ev_setopt CURLOPT_POSTFIELDS (VData d) => [d]
                     | _ => []
                     end) t.

(** The header lists handed to libcurl with CURLOPT_HTTPHEADER. *)
Definition httpheader_of (t : list event) : list (list string) :=
  flat_map (fun e => match e with
                     | ev_setopt CURLOPT_HTTPHEADER (VSlist l) => [l]
                     | _ => []
                     end) t.

(** The transfers that were run: result code and what was delivered. *)
Definition performed (t : list event) : list (Z * list wire) :=
  flat_map (fun e => match e with
                     | ev_perform code delivered => [(code, delivered)]
                     | _ => []
                     end) t.

(** The calls into libcurl, without the file system events. *)
Definition curl_calls (t : list event) : list event :=
  List.filter (fun e => match e with ev_open_trunc _ => false | _ => true end) t.


(** The body bytes among what a transfer delivered. *)
Fixpoint body_of (delivered : list wire) : string :=
  match delivered with
  | [] => ""
  | BodyChunk b :: rest => b +:+ body_of rest
  | HeaderLine _ :: rest => body_of rest
  end.

(** The header lines among what a transfer delivered, run through
    headerfunc from the response [r]. *)
Definition received (delivered : list wire) (r : httpresponse) : httpresponse :=
  fold_left (fun r e => match e with
                        | HeaderLine l => headerfunc l r
                        | BodyChunk _ => r
                        end) delivered r.

(** A header mapping declares gzip: it has a content-encoding entry whose
    value is "gzip" up to the case of its letters. *)
Definition declares_gzip (h : gmap string string) : bool :=
  match h !! "content-encoding" with
  | Some v => String.eqb (Str.tolower v) (Str.tolower "gzip")
  | None => false
  end.

(** ** A small libcurl and a small zlib to run the model on

    [SimCurl] keeps the options set since the last reset and the cookie
    lines it was given; its network knows one host.  [StoredZlib] frames the
    data with the two gzip magic bytes and stores it as it is. *)

Module Sim.

Record session := mk_session {
  s_options : list (CURLoption * optval);
  s_cookies : list string;
  s_status : Z
}.

Definition sim_reset (s : session) : session :=
  {| s_options := []; s_cookies := s_cookies s; s_status := 0 |}.

Definition sim_setopt (s : session) (o : CURLoption) (v : optval) : Z * session :=
  match o, v with
  | CURLOPT_COOKIELIST, VString line =>
      if String.eqb line "ALL"
      then (CURLE_OK, {| s_options := s_options s; s_cookies := [];
                         s_status := s_status s |})
      else (CURLE_OK, {| s_options := s_options s;
                         s_cookies := s_cookies s ++ [line];
                         s_status := s_status s |})
  | _, _ =>
      (CURLE_OK, {| s_options := (o, v) :: s_options s;
                    s_cookies := s_cookies s; s_status := s_status s |})
  end.

Fixpoint url_of (opts : list (CURLoption * optval)) : string :=
  match opts with
  | [] => ""
  | (CURLOPT_URL, VString u) :: _ => u
  | _ :: rest => url_of rest
  end.

Definition magic : string := String "031" (String "139" "").

Definition sim_perform (s : session) : Z * list wire * session :=
  if String.eqb (url_of (s_options s)) "http://example.com/"
  then (CURLE_OK,
        [HeaderLine "HTTP/1.1 200 OK";
         HeaderLine "Content-Type: text/plain";
         BodyChunk "hello"],
        {| s_options := s_options s; s_cookies := s_cookies s; s_status := 200 |})
  else if String.eqb (url_of (s_options s)) "http://example.com/gz"
  then (CURLE_OK,
        [HeaderLine "HTTP/1.1 200 OK";
         HeaderLine "Content-Encoding: GZip";
         BodyChunk magic; BodyChunk "hello"],
        {| s_options := s_options s; s_cookies := s_cookies s; s_status := 200 |})
  else (CURLE_COULDNT_RESOLVE_HOST, [], s).

#[export] Instance SimCurl : LibCurl := {|
  CURL := session;
  curl_easy_reset := sim_reset;
  curl_easy_setopt := sim_setopt;
  curl_easy_perform := sim_perform;
  curl_easy_getinfo_long := fun s _ => (CURLE_OK, s_status s);
  curl_easy_getinfo_slist := fun s _ => (CURLE_OK, s_cookies s)
|}.

#[export] Instance StoredZlib : Zlib := {|
  deflateInit2 := Z_OK;
  inflateInit2 := Z_OK;
  deflateBound := fun n => (n + 2)%Z;
  deflate_stream := fun s => magic +:+ s;
  inflate_stream := fun c =>
    match c with
    | String a (String b rest) =>
        if (Ascii.eqb a "031" && Ascii.eqb b "139")%bool then Some rest else None
    | _ => None
    end
|}.

Definition fresh_session : session :=
  {| s_options := []; s_cookies := []; s_status := 0 |}.

(** A new handle on an empty disk where every path can be opened. *)
Definition world0 : world :=
  {| curl := {| handle_ := fresh_session; headers_ := [] |};
     result := fresh_response;
     out := ostringstream "";
     files := ∅;
     can_open := fun _ => true |}.

(** A handle that has been used: options, pending headers and a cookie
    are left from an earlier request. *)
Definition used_world : world :=
  {| curl := {| handle_ := {| s_options := [(CURLOPT_POST, VLong 1)];
                              s_cookies := ["Set-Cookie: sid=42; domain=example.com"];
                              s_status := 200 |};
                headers_ := ["Accept-encoding: gzip"; "Expect:";
                             "Content-Encoding: gzip"] |};
     result := fresh_response;
     out := ostringstream "";
     files := ∅;
     can_open := fun _ => true |}.

(** A body of 10241 bytes, one more than post sends as it is. *)
Definition big_body : string :=
  string_of_list_ascii (repeat "a"%char (Z.to_nat 10241)).

(** A buffer of 2^32 bytes. *)
Definition four_gib : string :=
  of_bytes (repeat "a"%char (Z.to_nat 4294967296)).

(** A curl_easy_escape that refuses a negative length and an input of
    8,000,000 bytes or more, and encodes every other one. *)
#[export] Instance SimEscape : CurlEscape := {|
  curl_easy_escape := fun buffer inlength =>
    if ((inlength <? 0) || (8000000 <=? inlength))%Z then None
    else Some (percent_encode (escape_input buffer inlength))
|}.

(** A value of 8,000,000 spaces. *)
Definition spaces_8MB : string :=
  of_bytes (repeat " "%char (Z.to_nat 8000000)).

(** The same cookie on a handle with nothing else left on it. *)
Definition clean_world : world :=
  {| curl := {| handle_ := {| s_options := [];
                              s_cookies := ["Set-Cookie: sid=42; domain=example.com"];
                              s_status := 0 |};
                headers_ := [] |};
     result := fresh_response;
     out := ostringstream "";
     files := ∅;
     can_open := fun _ => true |}.

End Sim.

(** ** Further observations on the helpers and the requests *)

(** An upper-case letter of the "C" locale, the bytes std::tolower moves. *)
Definition isupper (c : ascii) : bool :=
  let n := nat_of_ascii c in (Nat.leb 65 n && Nat.leb n 90)%bool.

(** A header mapping as headerfunc writes it: names in lower case and
    without a ':', values with no space at either end. *)
Definition canonical_headers (h : gmap string string) : Prop :=
  forall name value, h !! name = Some value ->
    Str.tolower name = name /\ Str.mem ":" name = false /\ Str.trim value = value.

(** The bytes curl_easy_escape writes: the unreserved ones and '%'. *)
Definition escaped_byte (c : ascii) : bool :=
  (is_unreserved c || Ascii.eqb c "%")%bool.

(** The bytes serialize writes: those of an escaped string, '=' and '&'. *)
Definition url_safe (c : ascii) : bool :=
  (escaped_byte c || Ascii.eqb c "=" || Ascii.eqb c "&")%bool.

(** The sizes handed to libcurl with CURLOPT_POSTFIELDSIZE. *)
Definition postfieldsize_of (t : list event) : list Z :=
  flat_map (fun e => match e with
                     | ev_setopt CURLOPT_POSTFIELDSIZE (VLong n) => [n]
                     | _ => []
                     end) t.

Section Answers.
Context `{Zlib}.

(** What get and post make of a transfer that went through: [info] is the
    answer of curl_easy_getinfo for the response code, [delivered] what the
    transfer handed to the callbacks. *)
Definition response_of (info : Z * Z) (delivered : list wire) : outcome httpresponse :=
  let '(code, st) := info in
  let r := received delivered fresh_response in
  if negb (CURLE_OK =? code)%Z then Throws (curl_error code)
  else if declares_gzip (headers r) then
    match gunzip (body_of delivered) with
    | Returns b => Returns {| status := st; body := b; headers := headers r |}
    | Throws e => Throws e
    end
  else Returns {| status := st; body := body_of delivered; headers := headers r |}.

(** The same for download, whose body goes to the file. *)
Definition download_response_of (info : Z * Z) (delivered : list wire)
    : outcome httpresponse :=
  let '(code, st) := info in
  if negb (CURLE_OK =? code)%Z then Throws (curl_error code)
  else Returns {| status := st; body := "";
                  headers := headers (received delivered fresh_response) |}.

End Answers.

Section CookieAnswers.
Context `{LibCurl}.

(** The handle libcurl leaves when it answers CURLE_OK to the calls
    curl_easy_setopt(CURLOPT_COOKIELIST, v) for the values [vs] in turn;
    none when it refuses one of them. *)
Fixpoint accepted (h : CURL) (vs : list string) : option CURL :=
  match vs with
  | [] => Some h
  | v :: vs' =>
      let '(code, h') := curl_easy_setopt h CURLOPT_COOKIELIST (VString v) in
      if (CURLE_OK =? code)%Z then accepted h' vs' else None
  end.

End CookieAnswers.

(** ** libtar, as far as the source calls it *)

(** [tar_open] gives a handle for the archive at a path of the disk, or
    none when it returns non-zero; [tar_extract_all] returns its code and
    the disk it leaves.  tar_close, whose result the source ignores, is
    left out. *)
Class LibTar := {
  TAR : Type;
  tar_open : string -> gmap string string -> option TAR;
  tar_extract_all : TAR -> string -> gmap string string -> Z * gmap string string
}.

Section Tarball.
Context `{LibCurl} `{Zlib} `{LibTar}.

(** [ext::extract_tarball]. *)
Definition extract_tarball (file extractdir : string) : M unit :=
  fun w =>
    match tar_open (Str.c_str file) (files w) with
    | None => (Throws (runtime_error "could not open tar"), w, [])
    | Some t =>
        let '(rc, disk) := tar_extract_all t (Str.c_str extractdir) (files w) in
        if negb (rc =? 0)%Z
        then (Throws (runtime_error "could not extract tar"), with_files disk w, [])
        else (Returns tt, with_files disk w, [])
    end.

(** [client::downloadtarball]. *)
Definition client_downloadtarball (c : client) (path localpath extractdir : string)
    : M httpresponse :=
  result <- client_download c path localpath ;;
  (if (status result =? 200)%Z then extract_tarball localpath extractdir else ret tt) ;;
  ret result.

End Tarball.

(** Further worlds to run the model on. *)
Module Cases.

(** A new handle on a disk that holds one file and where no path can be
    opened for writing. *)
Definition readonly_world : world (H := Sim.SimCurl) :=
  {| curl := curl Sim.world0;
     result := fresh_response;
     out := ostringstream "";
     files := {[ "/etc/motd" := "welcome" ]};
     can_open := fun _ => false |}.

(** A libtar whose archives are single files: opening needs the file to
    exist, extraction writes it under the directory. *)
#[export] Instance OneFileTar : LibTar := {|
  TAR := string;
  tar_open := fun path disk => disk !! path;
  tar_extract_all := fun t dir disk => (0%Z, <[dir +:+ "/payload" := t]> disk)
|}.

(** A zlib whose deflateInit2 fails with Z_STREAM_ERROR. *)
Definition BrokenZlib : Zlib := {|
  deflateInit2 := (-2)%Z;
  inflateInit2 := Z_OK;
  deflateBound := fun n => (n + 2)%Z;
  deflate_stream := fun s => Sim.magic +:+ s;
  inflate_stream := fun _ => None
|}.

End Cases.

(** ** Proof automation *)

(** One call of setopt in a goal: the library answers with a code and a new
    state, and the call returns or throws by the code. *)
Ltac step_setopt :=
  match goal with
  | |- context [curl_easy_setopt ?s ?o ?v] =>
      destruct (curl_easy_setopt s o v) as [? ?] eqn:?; cbn;
      match goal with
      | |- context [(CURLE_OK =? ?c)%Z] => destruct (CURLE_OK =? c)%Z eqn:?; cbn
      end
  end.

(** * Properties *)

(** ** Strings *)

#[local] Arguments String.append !_ _ / : simpl nomatch.

Lemma append_assoc (a b c : string) : (a +:+ b) +:+ c = a +:+ (b +:+ c).
Proof. induction a as [|x a IH]; simpl; [reflexivity | f_equal; exact IH]. Qed.

Lemma append_empty_r (a : string) : a +:+ "" = a.
Proof. induction a as [|x a IH]; simpl; [reflexivity | f_equal; exact IH]. Qed.

Lemma find_app_here (c : ascii) (name rest : string) :
  Str.mem c name = false ->
  Str.find c (name +:+ String c rest) = Some (String.length name).
Proof.
  induction name as [|d name IH]; simpl.
  - rewrite Ascii.eqb_refl. reflexivity.
  - intros Hm. apply orb_false_iff in Hm as [Hd Hm].
    rewrite Hd, (IH Hm). reflexivity.
Qed.

Lemma find_none_mem (c : ascii) (s : string) :
  Str.find c s = None <-> Str.mem c s = false.
Proof.
  induction s as [|d s IH]; simpl; [tauto|].
  destruct (Ascii.eqb d c); simpl.
  - split; discriminate.
  - rewrite <- IH. destruct (Str.find c s); simpl; split; congruence.
Qed.

Lemma mem_split (c : ascii) (s : string) :
  Str.mem c s = true ->
  exists name rest, s = name +:+ String c rest /\ Str.mem c name = false.
Proof.
  induction s as [|d s IH]; simpl; [discriminate|].
  destruct (Ascii.eqb_spec d c) as [->|Hne]; simpl.
  - intros _. exists "", s. split; reflexivity.
  - intros Hm. destruct (IH Hm) as (name & rest & -> & Hn).
    exists (String d name), rest. split; [reflexivity|].
    simpl. rewrite Hn. destruct (Ascii.eqb_spec d c); [contradiction | reflexivity].
Qed.

Lemma substring_prefix (name rest : string) :
  substring 0 (String.length name) (name +:+ rest) = name.
Proof.
  induction name as [|d name IH]; simpl.
  - destruct rest; reflexivity.
  - rewrite IH. reflexivity.
Qed.

Lemma substring_all (s : string) : substring 0 (String.length s) s = s.
Proof. induction s as [|d s IH]; simpl; [reflexivity | now rewrite IH]. Qed.

Lemma substr_from_suffix (name rest : string) (c : ascii) :
  Str.substr_from (String.length name + 1) (name +:+ String c rest) = rest.
Proof.
  unfold Str.substr_from.
  induction name as [|d name IH]; simpl.
  - rewrite Nat.sub_0_r. apply substring_all.
  - apply IH.
Qed.

(** rtrim cuts a run of spaces off the end and stops at a non-space. *)
Lemma rtrim_spec (s : string) :
  exists r, s = Str.rtrim s +:+ r /\ Str.all Str.isspace r = true.
Proof.
  induction s as [|c s (r & Hs & Hr)]; simpl.
  - exists "". split; reflexivity.
  - destruct (Str.rtrim s) as [|d t] eqn:E.
    + simpl in Hs. subst r.
      destruct (Str.isspace c) eqn:Hc.
      * exists (String c s). simpl. rewrite Hc, Hr. split; reflexivity.
      * exists s. split; [reflexivity | exact Hr].
    + exists r. split; [|exact Hr]. simpl. f_equal. exact Hs.
Qed.

Lemma rtrim_last (s : string) (c : ascii) :
  Str.last_char (Str.rtrim s) = Some c -> Str.isspace c = false.
Proof.
  induction s as [|d s IH]; simpl; [discriminate|].
  destruct (Str.rtrim s) as [|e t] eqn:E.
  - destruct (Str.isspace d) eqn:Hd; simpl; [discriminate|].
    intros [= <-]. exact Hd.
  - intros Hl. apply IH. exact Hl.
Qed.

Lemma ltrim_spec (s : string) :
  exists l, s = l +:+ Str.ltrim s /\ Str.all Str.isspace l = true.
Proof.
  induction s as [|c s (l & Hs & Hl)]; simpl.
  - exists "". split; reflexivity.
  - destruct (Str.isspace c) eqn:Hc.
    + exists (String c l). simpl. rewrite Hc, Hl. split; [now f_equal | reflexivity].
    + exists "". split; reflexivity.
Qed.

Lemma ltrim_first (s : string) (c : ascii) :
  Str.first_char (Str.ltrim s) = Some c -> Str.isspace c = false.
Proof.
  induction s as [|d s IH]; simpl; [discriminate|].
  destruct (Str.isspace d) eqn:Hd; [exact IH|].
  simpl. intros [= <-]. exact Hd.
Qed.

Lemma ltrim_last (s : string) :
  Str.ltrim s <> "" -> Str.last_char (Str.ltrim s) = Str.last_char s.
Proof.
  induction s as [|d s IH]; simpl; [reflexivity|].
  destruct (Str.isspace d) eqn:Hd; [|reflexivity].
  intros Hne. rewrite (IH Hne).
  destruct s; [simpl in Hne; contradiction | reflexivity].
Qed.

(** trim removes the spaces at both ends and nothing else. *)
Lemma trim_spec (s : string) :
  (exists l r, s = l +:+ Str.trim s +:+ r
               /\ Str.all Str.isspace l = true /\ Str.all Str.isspace r = true)
  /\ (forall c, Str.first_char (Str.trim s) = Some c -> Str.isspace c = false)
  /\ (forall c, Str.last_char (Str.trim s) = Some c -> Str.isspace c = false).
Proof.
  unfold Str.trim. split; [|split].
  - destruct (rtrim_spec s) as (r & Hs & Hr).
    destruct (ltrim_spec (Str.rtrim s)) as (l & Hm & Hl).
    exists l, r. split; [|split; assumption].
    rewrite <- append_assoc, <- Hm. exact Hs.
  - apply ltrim_first.
  - intros c Hc. apply (rtrim_last s).
    rewrite <- ltrim_last; [exact Hc|].
    intros E. rewrite E in Hc. discriminate.
Qed.

(** ** The header callback *)

Lemma headerfunc_colon (name rest : string) (resp : httpresponse) :
  Str.mem ":" name = false ->
  headerfunc (name +:+ String ":" rest) resp
  = set_headers (<[Str.tolower name := Str.trim rest]> (headers resp)) resp.
Proof.
  intros Hn. unfold headerfunc, Str.substr.
  rewrite (find_app_here _ _ _ Hn), substring_prefix, substr_from_suffix.
  reflexivity.
Qed.

Lemma headerfunc_no_colon (line : string) (resp : httpresponse) :
  Str.mem ":" line = false -> headerfunc line resp = resp.
Proof.
  intros Hn. unfold headerfunc.
  apply find_none_mem in Hn. rewrite Hn. reflexivity.
Qed.

(** C4.  A received header line that contains a ':' splits at its first ':'
    into a name and a remainder; headerfunc stores the remainder, trimmed of
    the spaces at both ends, under the lower-cased name, whatever was stored
    there before, and leaves the other names alone.  A line with no ':'
    leaves the response as it was.  The line
    "Content-Type: text/html; charset=utf-8\r\n" is stored under
    "content-type" with the value "text/html; charset=utf-8". *)
Theorem headerfunc_splits_at_first_colon :
  (forall line, Str.mem ":" line = true ->
     exists name rest,
       line = name +:+ String ":" rest /\ Str.mem ":" name = false)
  /\ (forall name rest resp, Str.mem ":" name = false ->
        headerfunc (name +:+ String ":" rest) resp
        = set_headers (<[Str.tolower name := Str.trim rest]> (headers resp)) resp)
  /\ (forall name rest resp, Str.mem ":" name = false ->
        headers (headerfunc (name +:+ String ":" rest) resp) !! Str.tolower name
        = Some (Str.trim rest)
        /\ forall other, other <> Str.tolower name ->
             headers (headerfunc (name +:+ String ":" rest) resp) !! other
             = headers resp !! other)
  /\ (forall rest,
        (exists l r, rest = l +:+ Str.trim rest +:+ r
                     /\ Str.all Str.isspace l = true
                     /\ Str.all Str.isspace r = true)
        /\ (forall c, Str.first_char (Str.trim rest) = Some c -> Str.isspace c = false)
        /\ (forall c, Str.last_char (Str.trim rest) = Some c -> Str.isspace c = false))
  /\ (forall line resp, Str.mem ":" line = false -> headerfunc line resp = resp)
  /\ (forall resp,
        headerfunc ("Content-Type: text/html; charset=utf-8"
                    +:+ String "013" (String "010" "")) resp
        = set_headers
            (<["content-type" := "text/html; charset=utf-8"]> (headers resp)) resp).
Proof.
  split; [exact (mem_split ":")|].
  split; [exact headerfunc_colon|].
  split.
  { intros name rest resp Hn. rewrite (headerfunc_colon _ _ _ Hn). simpl.
    split; [apply lookup_insert_eq|].
    intros other Ho. apply lookup_insert_ne. congruence. }
  split; [exact trim_spec|].
  split; [exact headerfunc_no_colon|].
  intros resp.
  exact (headerfunc_colon "Content-Type"
           (" text/html; charset=utf-8" +:+ String "013" (String "010" ""))
           resp eq_refl).
Qed.

(** ** The order of a std::map *)

Lemma ascii_compare_lt_trans (a b c : ascii) :
  Ascii.compare a b = Lt -> Ascii.compare b c = Lt -> Ascii.compare a c = Lt.
Proof.
  unfold Ascii.compare. rewrite !N.compare_lt_iff. lia.
Qed.

Lemma compare_lt_trans (a b c : string) :
  String.compare a b = Lt -> String.compare b c = Lt -> String.compare a c = Lt.
Proof.
  revert b c. induction a as [|x a IH]; intros [|y b] [|z c]; simpl;
    try discriminate; try reflexivity.
  destruct (Ascii.compare x y) eqn:Exy; try discriminate;
    destruct (Ascii.compare y z) eqn:Eyz; try discriminate; intros Hab Hbc.
  - apply Ascii.compare_eq_iff in Exy, Eyz. subst.
    assert (E : Ascii.compare z z = Eq) by apply N.compare_refl.
    rewrite E. eapply IH; eassumption.
  - apply Ascii.compare_eq_iff in Exy. subst. rewrite Eyz. reflexivity.
  - apply Ascii.compare_eq_iff in Eyz. subst. rewrite Exy. reflexivity.
  - rewrite (ascii_compare_lt_trans _ _ _ Exy Eyz). reflexivity.
Qed.

Lemma compare_refl (a : string) : String.compare a a = Eq.
Proof.
  induction a as [|x a IH]; simpl; [reflexivity|].
  assert (E : Ascii.compare x x = Eq) by apply N.compare_refl.
  rewrite E. exact IH.
Qed.

Lemma key_lt_compare (a b : string) : key_lt a b <-> String.compare a b = Lt.
Proof.
  unfold key_lt, String.ltb. destruct (String.compare a b); split; congruence.
Qed.

Lemma key_lt_trans (a b c : string) : key_lt a b -> key_lt b c -> key_lt a c.
Proof. rewrite !key_lt_compare. apply compare_lt_trans. Qed.

Lemma key_lt_irrefl (a : string) : ~ key_lt a a.
Proof. rewrite key_lt_compare, compare_refl. discriminate. Qed.

Lemma compare_gt_lt (a b : string) :
  String.compare a b = Gt -> key_lt b a.
Proof.
  intros Hgt. apply key_lt_compare.
  rewrite String.compare_antisym, Hgt. reflexivity.
Qed.

(** In an ascending map the first key is below every later key. *)
Lemma ascending_head (k v : string) (m : httpparams) :
  ascending ((k, v) :: m) -> forall kv, In kv m -> key_lt k (fst kv).
Proof.
  revert k v. induction m as [|[k' v'] m IH]; intros k v [Hk Hm] kv Hin.
  - destruct Hin.
  - destruct Hin as [<-|Hin]; [exact Hk|].
    eapply key_lt_trans; [exact Hk|]. eapply IH; eassumption.
Qed.

Lemma ascending_tail (it : string * string) (m : httpparams) :
  ascending (it :: m) -> ascending m.
Proof. destruct it. intros [_ Hm]. exact Hm. Qed.

Lemma ascending_cons (k v : string) (m : httpparams) :
  ascending m -> (forall kv, In kv m -> key_lt k (fst kv)) -> ascending ((k, v) :: m).
Proof.
  intros Hm Hlt. split; [|exact Hm].
  destruct m as [|[k' v'] m]; [exact I|].
  apply (Hlt (k', v')). left. reflexivity.
Qed.

(** Assigning to a key keeps the entries of the other keys and puts the
    pair in. *)
Lemma in_params_set (k v : string) (m : httpparams) :
  ascending m ->
  forall kv, In kv (params_set k v m) <-> kv = (k, v) \/ (In kv m /\ fst kv <> k).
Proof.
  induction m as [|[k' v'] m IH]; intros Hm kv; simpl.
  - intuition.
  - pose proof (ascending_head _ _ _ Hm) as Hhead.
    destruct (String.compare k k') eqn:E.
    + apply String.compare_eq_iff in E. subst k'. simpl.
      split.
      * intros [<-|Hin]; [left; reflexivity|].
        right. split; [right; exact Hin|].
        intros Heq. apply (key_lt_irrefl k).
        rewrite <- Heq at 2. apply Hhead. exact Hin.
      * intros [->|[[<-|Hin] Hne]]; [left; reflexivity | | right; exact Hin].
        simpl in Hne. contradiction.
    + apply key_lt_compare in E. simpl.
      split.
      * intros [<-|[<-|Hin]]; [left; reflexivity | |].
        -- right. split; [left; reflexivity|]. simpl. intros ->.
           exact (key_lt_irrefl _ E).
        -- right. split; [right; exact Hin|].
           intros Heq. apply (key_lt_irrefl k).
           eapply key_lt_trans; [exact E|]. rewrite <- Heq. apply Hhead. exact Hin.
      * intros [->|[Hin _]]; [left; reflexivity | right; exact Hin].
    + simpl. rewrite (IH (ascending_tail _ _ Hm)).
      split.
      * intros [<-|[->|[Hin Hne]]].
        -- right. split; [left; reflexivity|]. simpl. intros ->.
           rewrite compare_refl in E. discriminate.
        -- left. reflexivity.
        -- right. split; [right; exact Hin | exact Hne].
      * intros [->|[[<-|Hin] Hne]].
        -- right. left. reflexivity.
        -- left. reflexivity.
        -- right. right. split; assumption.
Qed.

Lemma params_set_ascending (k v : string) (m : httpparams) :
  ascending m -> ascending (params_set k v m).
Proof.
  induction m as [|[k' v'] m IH]; intros Hm; simpl.
  - split; exact I.
  - pose proof (ascending_head _ _ _ Hm) as Hhead.
    destruct (String.compare k k') eqn:E.
    + apply String.compare_eq_iff in E. subst k'.
      apply ascending_cons; [exact (ascending_tail _ _ Hm) | exact Hhead].
    + apply key_lt_compare in E. split; [exact E | exact Hm].
    + apply ascending_cons; [exact (IH (ascending_tail _ _ Hm))|].
      intros kv Hin.
      apply (in_params_set _ _ _ (ascending_tail _ _ Hm)) in Hin.
      destruct Hin as [->|[Hin _]]; [exact (compare_gt_lt _ _ E) | exact (Hhead _ Hin)].
Qed.

(** Two ascending maps with the same entries are the same sequence. *)
Lemma ascending_unique (m1 m2 : httpparams) :
  ascending m1 -> ascending m2 ->
  (forall kv, In kv m1 <-> In kv m2) -> m1 = m2.
Proof.
  revert m2. induction m1 as [|[k1 v1] m1 IH]; intros [|[k2 v2] m2] H1 H2 Hin.
  - reflexivity.
  - exfalso. apply (proj2 (Hin (k2, v2))). left. reflexivity.
  - exfalso. apply (proj1 (Hin (k1, v1))). left. reflexivity.
  - pose proof (ascending_head _ _ _ H1) as Hh1.
    pose proof (ascending_head _ _ _ H2) as Hh2.
    assert (Heq : (k1, v1) = (k2, v2)).
    { destruct (proj1 (Hin (k1, v1)) (or_introl eq_refl)) as [E|E1]; [congruence|].
      destruct (proj2 (Hin (k2, v2)) (or_introl eq_refl)) as [E|E2]; [congruence|].
      exfalso. apply (key_lt_irrefl k1).
      eapply key_lt_trans; [exact (Hh1 _ E2) | exact (Hh2 _ E1)]. }
    injection Heq as -> ->. f_equal.
    apply IH; [exact (ascending_tail _ _ H1) | exact (ascending_tail _ _ H2)|].
    intros kv. split; intros Hkv.
    + destruct (proj1 (Hin kv) (or_intror Hkv)) as [<-|E]; [|exact E].
      exfalso. exact (key_lt_irrefl _ (Hh1 _ Hkv)).
    + destruct (proj2 (Hin kv) (or_intror Hkv)) as [<-|E]; [|exact E].
      exfalso. exact (key_lt_irrefl _ (Hh2 _ Hkv)).
Qed.

Lemma params_of_ascending_from (l : list (string * string)) (m : httpparams) :
  ascending m ->
  ascending (fold_left (fun m kv => params_set (fst kv) (snd kv) m) l m).
Proof.
  revert m. induction l as [|[k v] l IH]; intros m Hm; simpl; [exact Hm|].
  apply IH, params_set_ascending, Hm.
Qed.

Lemma in_params_of_from (l : list (string * string)) (m : httpparams) :
  ascending m -> List.NoDup (map fst l) ->
  (forall x y, In x l -> In y m -> fst x <> fst y) ->
  forall kv,
    In kv (fold_left (fun m kv => params_set (fst kv) (snd kv) m) l m)
    <-> In kv m \/ In kv l.
Proof.
  revert m. induction l as [|[k v] l IH]; intros m Hm Hnd Hdis kv; simpl.
  - tauto.
  - inversion Hnd as [|? ? Hk Hnd']; subst.
    rewrite IH; [|apply params_set_ascending, Hm | exact Hnd' |].
    + rewrite (in_params_set _ _ _ Hm). split.
      * intros [[->|[Hin _]]|Hin]; auto.
      * intros [Hin|[<-|Hin]]; auto.
        left. right. split; [exact Hin|].
        intros Heq. apply (Hdis (k, v) kv); [left; reflexivity | exact Hin |].
        simpl. congruence.
    + intros x y Hx Hy. apply (in_params_set _ _ _ Hm) in Hy.
      destruct Hy as [->|[Hy _]].
      * simpl. intros Heq. apply Hk. rewrite <- Heq. apply in_map. exact Hx.
      * apply Hdis; [right; exact Hx | exact Hy].
Qed.

Lemma params_of_ascending (l : list (string * string)) : ascending (params_of l).
Proof. apply params_of_ascending_from. exact I. Qed.

Lemma in_params_of (l : list (string * string)) :
  List.NoDup (map fst l) -> forall kv, In kv (params_of l) <-> In kv l.
Proof.
  intros Hnd kv. unfold params_of.
  rewrite in_params_of_from; [simpl; tauto | exact I | exact Hnd |].
  intros x y _ [].
Qed.

(** ** The gzip wrappers *)

Lemma length_to_bytes (s : string) : length (to_bytes s) = String.length s.
Proof.
  unfold to_bytes. induction s as [|c s IH]; cbn; [reflexivity | now rewrite IH].
Qed.

Lemma of_to_bytes (s : string) : of_bytes (to_bytes s) = s.
Proof. apply string_of_list_ascii_of_string. Qed.

Lemma to_of_bytes (b : bytes) : to_bytes (of_bytes b) = b.
Proof. apply list_ascii_of_string_of_list_ascii. Qed.

Lemma size_of_bytes (b : bytes) : size (of_bytes b) = Z.of_nat (length b).
Proof. unfold size. rewrite <- length_to_bytes, to_of_bytes. reflexivity. Qed.

Lemma size_nonneg (s : string) : (0 <= size s)%Z.
Proof. unfold size. lia. Qed.

Lemma uInt_small (n : Z) : (0 <= n < 2 ^ 32)%Z -> uInt n = n.
Proof. intros Hn. unfold uInt. apply Z.mod_small. exact Hn. Qed.

Lemma uInt_range (n : Z) : (0 <= uInt n < 2 ^ 32)%Z.
Proof. unfold uInt. apply Z.mod_pos_bound. lia. Qed.

Section ZlibProps.
Context `{Zlib}.

(** What gzip does with an input whose first [n] bytes zlib is told to
    read, when the member for them fits the room it is given. *)
Lemma gzip_run (input : string) :
  deflateInit2 = Z_OK ->
  let seen := of_bytes (take (Z.to_nat (uInt (size input))) (to_bytes input)) in
  (size (deflate_stream seen)
   <= uInt (uLong (12 + deflateBound (size input))))%Z ->
  gzip input = Returns (deflate_stream seen).
Proof.
  intros Hinit seen Hfit. unfold gzip, deflate. rewrite Hinit.
  change (negb (Z_OK =? Z_OK)%Z) with false. cbv beta iota.
  fold seen.
  destruct (Z.leb_spec (Z.of_nat (length (to_bytes (deflate_stream seen))))
              (uInt (uLong (12 + deflateBound (size input))))) as [_|Hgt].
  - change (negb (Z_STREAM_END =? Z_STREAM_END)%Z) with false. cbv beta iota.
    rewrite take_app_length, of_to_bytes. reflexivity.
  - exfalso. rewrite length_to_bytes in Hgt.
    fold (size (deflate_stream seen)) in Hgt. lia.
Qed.

End ZlibProps.

(** The loop of gunzip: with [done] written so far at the front of a
    destination that has room left, and [r] still pending, it returns
    [done ++ r], provided the whole is shorter than 2^32 bytes. *)
Lemma gunzip_loop_correct (fuel : nat) :
  forall (dest : bytes) (strm : z_stream) (done r : bytes),
    pending strm = Some r ->
    next_out strm = length done ->
    total_out strm = Z.of_nat (length done) ->
    avail_out strm = Z.of_nat (length dest - length done) ->
    length done < length dest ->
    take (length done) dest = done ->
    (Z.of_nat (length (done ++ r)) < 2 ^ 32)%Z ->
    length r < fuel ->
    gunzip_loop fuel dest strm = Returns (of_bytes (done ++ r)).
Proof.
  induction fuel as [|fuel IH];
    intros dest strm done r Hpend Hnext Htotal Havail Hroom Hdone Hsmall Hfuel;
    [lia|].
  cbn [gunzip_loop]. unfold inflate. rewrite Hpend, Hnext, Htotal, Havail.
  rewrite Nat2Z.id. set (n := length dest - length done).
  destruct (Z.leb_spec (Z.of_nat (length r)) (Z.of_nat n)) as [Hle|Hgt].
  - change (Z_STREAM_END =? Z_OK)%Z with false.
    change (negb (Z_STREAM_END =? Z_STREAM_END)%Z) with false.
    cbv beta iota zeta. cbn [total_out].
    rewrite (take_ge r n) by lia. rewrite Hdone.
    rewrite <- Nat2Z.inj_add, Nat2Z.id, <- length_app.
    rewrite app_assoc, take_app_length. reflexivity.
  - destruct (Z.eqb_spec (Z.of_nat n) 0) as [E|_]; [lia|].
    change (Z_OK =? Z_OK)%Z with true. cbv beta iota zeta.
    cbn [pending total_out].
    assert (Hw : length (take n r) = n) by (rewrite length_take; lia).
    rewrite Hw, Hdone.
    assert (Hdrop : drop (length done + n) dest = []).
    { apply drop_ge. lia. }
    rewrite Hdrop, app_nil_r.
    assert (Hlen : length (done ++ take n r) = length dest).
    { rewrite length_app, Hw. lia. }
    assert (Hsplit : done ++ r = (done ++ take n r) ++ drop n r).
    { rewrite <- app_assoc, take_drop. reflexivity. }
    rewrite Hsplit in Hsmall |- *.
    apply (IH _ _ (done ++ take n r) (drop n r)).
    + reflexivity.
    + cbn [next_out]. reflexivity.
    + cbn [total_out]. rewrite length_app, Hw. lia.
    + cbn [avail_out]. rewrite length_app, Hlen. unfold zeros.
      rewrite length_replicate, uInt_small.
      * lia.
      * rewrite length_app, Hlen in Hsmall. lia.
    + rewrite (length_app (done ++ take n r) (zeros _)). unfold zeros.
      rewrite length_replicate, Hlen. lia.
    + rewrite take_app_length. reflexivity.
    + exact Hsmall.
    + rewrite length_drop. lia.
Qed.

Section GunzipProps.
Context `{Zlib}.

(** gunzip returns what the stream decodes to, for a stream and a payload
    shorter than 2^32 bytes. *)
Lemma gunzip_run (c data : string) :
  inflateInit2 = Z_OK ->
  (size c < 2 ^ 32)%Z -> (size data < 2 ^ 32)%Z ->
  inflate_stream c = Some data ->
  gunzip c = Returns data.
Proof.
  intros Hinit Hc Hdata Hdec. unfold gunzip. rewrite Hinit.
  change (negb (Z_OK =? Z_OK)%Z) with false. cbv beta iota zeta.
  rewrite (uInt_small (size c)) by (pose proof (size_nonneg c); lia).
  rewrite take_ge by (rewrite length_to_bytes; unfold size; lia).
  rewrite of_to_bytes, Hdec.
  change (to_bytes <$> Some data) with (Some (to_bytes data)).
  cbn [pending rounds].
  replace (Returns data) with (Returns (A := string) (of_bytes ([] ++ to_bytes data)))
    by (cbn [app]; rewrite of_to_bytes; reflexivity).
  apply (gunzip_loop_correct _ _ _ [] (to_bytes data)).
  - reflexivity.
  - reflexivity.
  - reflexivity.
  - cbn [avail_out length]. rewrite Nat.sub_0_r. apply uInt_small.
    unfold zeros. rewrite length_replicate. vm_compute. split; congruence.
  - unfold zeros. rewrite length_replicate. vm_compute. lia.
  - apply take_0.
  - cbn [app]. rewrite length_to_bytes. exact Hdata.
  - lia.
Qed.

(** gunzip(gzip(B)) = B for every buffer whose size, and the size of the
    destination gzip allocates for it, fit zlib's 32-bit counters. *)
Lemma gunzip_gzip_below_4GiB (input : string) :
  deflateInit2 = Z_OK -> inflateInit2 = Z_OK ->
  inflate_stream (deflate_stream input) = Some input ->
  (size (deflate_stream input) <= deflateBound (size input))%Z ->
  (size input < 2 ^ 32)%Z ->
  (12 + deflateBound (size input) < 2 ^ 32)%Z ->
  gunzip_gzip input = Returns input.
Proof.
  intros Hdi Hii Hdec Hbound Hsize Hroom.
  pose proof (size_nonneg input) as Hnn.
  pose proof (size_nonneg (deflate_stream input)) as Hnn'.
  assert (Hseen : of_bytes (take (Z.to_nat (uInt (size input))) (to_bytes input)) = input).
  { rewrite uInt_small by lia.
    rewrite take_ge by (rewrite length_to_bytes; unfold size; lia).
    apply of_to_bytes. }
  unfold gunzip_gzip.
  pose proof (gzip_run input Hdi) as Hrun. cbv zeta in Hrun.
  rewrite Hseen in Hrun. rewrite Hrun.
  - apply gunzip_run; [exact Hii | lia | exact Hsize | exact Hdec].
  - unfold uLong. rewrite Z.mod_small by lia. rewrite uInt_small by lia. lia.
Qed.

(** What gunzip does with a stream that decodes to nothing. *)
Lemma gunzip_empty_payload (c : string) :
  inflateInit2 = Z_OK ->
  (size c < 2 ^ 32)%Z ->
  inflate_stream c = Some "" ->
  gunzip c = Returns "".
Proof.
  intros Hinit Hsize Hdec.
  apply gunzip_run; [exact Hinit | exact Hsize | | exact Hdec].
  vm_compute. reflexivity.
Qed.

Lemma size_zero_empty (s : string) : size s = 0%Z -> s = "".
Proof. destruct s; [reflexivity|]. unfold size. cbn. lia. Qed.

(** What gunzip returns is what the stream decodes to: a stream shorter than
    2^32 bytes that gunzip accepts is a valid one, and the buffer returned is
    its payload. *)
Lemma gunzip_returns_valid (c b : string) :
  gunzip c = Returns b -> (size c < 2 ^ 32)%Z ->
  exists data, inflate_stream c = Some data.
Proof.
  intros E Hc. destruct (inflate_stream c) as [data|] eqn:Ed; [eauto|].
  exfalso. revert E. unfold gunzip.
  destruct (inflateInit2 =? Z_OK)%Z; cbv beta iota zeta; cbn [negb];
    [|discriminate].
  rewrite (uInt_small (size c)) by (pose proof (size_nonneg c); lia).
  rewrite take_ge by (rewrite length_to_bytes; unfold size; lia).
  rewrite of_to_bytes, Ed. discriminate.
Qed.

Lemma gunzip_returns_decoded (c b data : string) :
  gunzip c = Returns b ->
  (size c < 2 ^ 32)%Z -> inflate_stream c = Some data ->
  (size data < 2 ^ 32)%Z ->
  b = data.
Proof.
  intros E Hc Hdec Hdata.
  destruct (Z.eq_dec inflateInit2 Z_OK) as [Hok|Hne].
  - rewrite (gunzip_run c data Hok Hc Hdata Hdec) in E. congruence.
  - apply Z.eqb_neq in Hne. unfold gunzip in E. rewrite Hne in E. discriminate.
Qed.

(** A buffer of 2^32 bytes: avail_in is 0 and gzip returns the member of the
    empty input. *)
Lemma gzip_4GiB_run (input : string) :
  size input = 4294967296%Z ->
  deflateInit2 = Z_OK ->
  (size (deflate_stream "") <= uInt (uLong (12 + deflateBound 4294967296)))%Z ->
  gzip input = Returns (deflate_stream "").
Proof.
  intros Hsize Hdi Hfit.
  pose proof (gzip_run input Hdi) as Hrun. cbv zeta in Hrun.
  rewrite Hsize in Hrun.
  change (uInt 4294967296) with 0%Z in Hrun.
  change (Z.to_nat 0) with 0 in Hrun. rewrite take_0 in Hrun.
  exact (Hrun Hfit).
Qed.

(** C3 fails for a buffer of 2^32 bytes: its size does not fit the 32-bit
    avail_in, zlib is told to read no byte at all, gzip returns the member
    of the empty input, and gunzip of that is the empty buffer. *)
Theorem gzip_of_4GiB_loses_the_data (input : string) :
  size input = 4294967296%Z ->
  deflateInit2 = Z_OK -> inflateInit2 = Z_OK ->
  inflate_stream (deflate_stream "") = Some "" ->
  (size (deflate_stream "") <= uInt (uLong (12 + deflateBound 4294967296)))%Z ->
  gzip input = Returns (deflate_stream "")
  /\ gunzip_gzip input = Returns ""
  /\ gunzip_gzip input <> Returns input.
Proof.
  intros Hsize Hdi Hii Hdec Hfit.
  assert (Hgz : gzip input = Returns (deflate_stream "")).
  { pose proof (gzip_run input Hdi) as Hrun. cbv zeta in Hrun.
    rewrite Hsize in Hrun.
    change (uInt 4294967296) with 0%Z in Hrun.
    change (Z.to_nat 0) with 0 in Hrun. rewrite take_0 in Hrun.
    exact (Hrun Hfit). }
  assert (Hrt : gunzip_gzip input = Returns "").
  { unfold gunzip_gzip. rewrite Hgz. apply gunzip_empty_payload; [exact Hii | | exact Hdec].
    pose proof (uInt_range (uLong (12 + deflateBound 4294967296))). lia. }
  split; [exact Hgz|]. split; [exact Hrt|].
  rewrite Hrt. intros [= E]. rewrite <- E in Hsize. discriminate.
Qed.

End GunzipProps.

(** ** The parameter serializer *)

Lemma count_char_append (c : ascii) (a b : string) :
  count_char c (a +:+ b) = count_char c a + count_char c b.
Proof.
  induction a as [|d a IH]; simpl; [reflexivity|].
  rewrite IH. apply Nat.add_assoc.
Qed.

Lemma escape_byte_no_amp (c : ascii) :
  count_char "&" (percent_encode (String c "")) = 0.
Proof. destruct c as [[] [] [] [] [] [] [] []]; reflexivity. Qed.

Lemma escape_cons (c : ascii) (s : string) :
  percent_encode (String c s)
  = percent_encode (String c "") +:+ percent_encode s.
Proof. simpl. destruct (is_unreserved c); reflexivity. Qed.

Lemma escape_no_amp (s : string) : count_char "&" (percent_encode s) = 0.
Proof.
  induction s as [|c s IH]; [reflexivity|].
  rewrite escape_cons, count_char_append, escape_byte_no_amp, IH. reflexivity.
Qed.

Lemma pair_text_no_amp (it : string * string) : count_char "&" (pair_text it) = 0.
Proof.
  unfold pair_text. rewrite !count_char_append, !escape_no_amp. reflexivity.
Qed.

(** A join by '&' is the first text and then every further one after an
    '&'. *)
Lemma concat_amp_map {A : Type} (f : A -> string) (it : A) (params : list A) :
  String.concat "&" (map f (it :: params))
  = f it +:+ fold_right (fun it acc => "&" +:+ f it +:+ acc) "" params.
Proof.
  revert it. induction params as [|it' params IH]; intros it.
  - simpl. symmetry. apply append_empty_r.
  - change (String.concat "&" (map f (it :: it' :: params)))
      with (f it +:+ "&" +:+ String.concat "&" (map f (it' :: params))).
    rewrite IH. reflexivity.
Qed.

Lemma concat_amp (it : string * string) (params : httpparams) :
  String.concat "&" (map pair_text (it :: params))
  = pair_text it +:+ fold_right (fun it acc => "&" +:+ pair_text it +:+ acc) "" params.
Proof. apply concat_amp_map. Qed.

Lemma count_amp_rest (params : httpparams) :
  count_char "&" (fold_right (fun it acc => "&" +:+ pair_text it +:+ acc) "" params)
  = length params.
Proof.
  induction params as [|it params IH]; [reflexivity|].
  cbn [fold_right length]. rewrite !count_char_append, pair_text_no_amp, IH.
  reflexivity.
Qed.

Lemma to_int_small (n : Z) : (0 <= n < 2 ^ 31)%Z -> to_int n = n.
Proof. intros Hn. unfold to_int. rewrite Z.mod_small; lia. Qed.

(** Given its size, libcurl is told to read the whole of a string. *)
Lemma escape_input_whole (s : string) : escape_input s (size s) = s.
Proof.
  unfold escape_input. destruct (Z.eqb_spec (size s) 0) as [E|_].
  - rewrite (size_zero_empty s E). reflexivity.
  - rewrite take_ge by (rewrite length_to_bytes; unfold size; lia).
    apply of_to_bytes.
Qed.

Lemma append_cancel (a x y : string) : a +:+ x = a +:+ y -> x = y.
Proof.
  induction a as [|c a IH]; simpl; [auto|]. intros [= E]. exact (IH E).
Qed.

Lemma percent_encode_empty (s : string) : percent_encode s = "" -> s = "".
Proof.
  destruct s as [|c s]; [reflexivity|]. simpl.
  destruct (is_unreserved c); discriminate.
Qed.

Section SerializerProps.
Context `{CurlEscape}.

Lemma put_bad (o : option string) (ss : stringstream) :
  ss_good ss = false -> put o ss = ss.
Proof. intros Hb. unfold put. rewrite Hb. reflexivity. Qed.

Lemma put_some (s c : string) :
  put (Some s) {| ss_str := c; ss_good := true |}
  = {| ss_str := c +:+ s; ss_good := true |}.
Proof. reflexivity. Qed.

Lemma put_null (c : string) :
  put None {| ss_str := c; ss_good := true |} = {| ss_str := c; ss_good := false |}.
Proof. reflexivity. Qed.

(** Once the stream has failed, the rest of the loop changes nothing. *)
Lemma serialize_loop_bad (params : httpparams) (b : bool) (ss : stringstream) :
  ss_good ss = false ->
  snd (fold_left
         (fun (st : bool * stringstream) (it : string * string) =>
            let ss := if fst st then snd st else put (Some "&") (snd st) in
            let name := curl_easy_escape (fst it) (to_int (size (fst it))) in
            let value := curl_easy_escape (snd it) (to_int (size (snd it))) in
            (false, put value (put (Some "=") (put name ss))))
         params (b, ss))
  = ss.
Proof.
  intros Hb. revert b. induction params as [|it params IH]; intros b; [reflexivity|].
  cbn [fold_left fst snd].
  replace (put _ (put (Some "=") (put _ (if b then ss else put (Some "&") ss))))
    with ss; [apply IH|].
  destruct b; rewrite !(put_bad _ ss Hb); reflexivity.
Qed.

(** The loop once the first pair is out, when libcurl encodes every key
    and value: every further pair is written after an '&'. *)
Lemma serialize_loop_rest (params : httpparams) (c : string) :
  escapes_all params ->
  snd (fold_left
         (fun (st : bool * stringstream) (it : string * string) =>
            let ss := if fst st then snd st else put (Some "&") (snd st) in
            let name := curl_easy_escape (fst it) (to_int (size (fst it))) in
            let value := curl_easy_escape (snd it) (to_int (size (snd it))) in
            (false, put value (put (Some "=") (put name ss))))
         params (false, {| ss_str := c; ss_good := true |}))
  = {| ss_str := c +:+ fold_right (fun it acc => "&" +:+ pair_text it +:+ acc) "" params;
       ss_good := true |}.
Proof.
  intros Hall. revert c. induction Hall as [|it params (Hk & Hv) _ IH]; intros c.
  - cbn [fold_left fold_right snd]. rewrite append_empty_r. reflexivity.
  - cbn [fold_left fold_right fst snd]. unfold escapes in Hk, Hv. rewrite Hk, Hv.
    rewrite !put_some, IH. f_equal.
    unfold pair_text. rewrite !append_assoc. reflexivity.
Qed.

(** When libcurl encodes every key and value, the loop of the source
    writes the join the specification describes. *)
Lemma serialize_is_join (params : httpparams) :
  escapes_all params -> serialize params = serialize_spec params.
Proof.
  intros Hall. unfold serialize, serialize_spec.
  destruct Hall as [|it params (Hk & Hv) Hall]; [reflexivity|].
  rewrite concat_amp. cbn [fold_left fst snd].
  unfold escapes in Hk, Hv. rewrite Hk, Hv. rewrite !put_some.
  rewrite (serialize_loop_rest params _ Hall). cbn [ss_str].
  unfold pair_text. rewrite !append_assoc. reflexivity.
Qed.

(** One pair goes to a good stream in full, or up to the first answer
    that is NULL. *)
Lemma put_pair_prefix (it : string * string) (c : string) :
  escape_sound ->
  let ss1 := put (curl_easy_escape (snd it) (to_int (size (snd it))))
               (put (Some "=")
                  (put (curl_easy_escape (fst it) (to_int (size (fst it))))
                     {| ss_str := c; ss_good := true |})) in
  exists rest, c +:+ wire_pair it = ss_str ss1 +:+ rest
               /\ (ss_good ss1 = true -> rest = "").
Proof.
  intros Hsound. cbv zeta. unfold wire_pair.
  destruct (curl_easy_escape (fst it) (to_int (size (fst it)))) as [ek|] eqn:Ek.
  - rewrite <- (Hsound _ _ _ Ek).
    destruct (curl_easy_escape (snd it) (to_int (size (snd it)))) as [ev|] eqn:Ev.
    + rewrite <- (Hsound _ _ _ Ev). rewrite !put_some. cbn [ss_good ss_str].
      exists "". rewrite append_empty_r, !append_assoc. auto.
    + rewrite !put_some, put_null. cbn [ss_good ss_str]. eexists.
      split; [rewrite !append_assoc; reflexivity | discriminate].
  - rewrite put_null, !put_bad by reflexivity. cbn [ss_good ss_str].
    eexists. split; [reflexivity | discriminate].
Qed.

(** Whatever libcurl answers, what the loop adds to the stream is a
    beginning of the pairs it was to write, each after an '&'. *)
Lemma serialize_loop_prefix (params : httpparams) :
  escape_sound ->
  forall ss : stringstream,
  exists rest,
    ss_str ss +:+ fold_right (fun it acc => "&" +:+ wire_pair it +:+ acc) "" params
    = ss_str (snd (fold_left
         (fun (st : bool * stringstream) (it : string * string) =>
            let ss := if fst st then snd st else put (Some "&") (snd st) in
            let name := curl_easy_escape (fst it) (to_int (size (fst it))) in
            let value := curl_easy_escape (snd it) (to_int (size (snd it))) in
            (false, put value (put (Some "=") (put name ss))))
         params (false, ss))) +:+ rest.
Proof.
  intros Hsound. induction params as [|it params IH]; intros ss.
  - exists "". reflexivity.
  - destruct ss as [c [|]].
    2:{ rewrite serialize_loop_bad by reflexivity. eexists. reflexivity. }
    cbn [fold_left fold_right fst snd ss_str].
    rewrite (put_some "&" c).
    destruct (put_pair_prefix it (c +:+ "&") Hsound) as (rest1 & E1 & Hgood).
    cbv zeta in E1, Hgood.
    set (ss1 := put _ (put (Some "=") (put _ _))) in *.
    destruct (ss_good ss1) eqn:Eg.
    + destruct (IH ss1) as (rest2 & E2). cbv zeta in E2.
      exists rest2. rewrite <- E2.
      rewrite (Hgood eq_refl), append_empty_r in E1. rewrite <- E1.
      rewrite !append_assoc. reflexivity.
    + pose proof (serialize_loop_bad params false ss1 Eg) as Eb. cbv zeta in Eb.
      rewrite Eb. exists (rest1 +:+
        fold_right (fun it acc => "&" +:+ wire_pair it +:+ acc) "" params).
      rewrite <- (append_assoc (ss_str ss1)), <- E1. rewrite !append_assoc.
      reflexivity.
Qed.

Lemma serialize_prefix (params : httpparams) :
  escape_sound ->
  exists rest, String.concat "&" (map wire_pair params) = serialize params +:+ rest.
Proof.
  intros Hsound. unfold serialize. destruct params as [|it params].
  - exists "". reflexivity.
  - rewrite concat_amp_map. cbn [fold_left fst snd].
    destruct (put_pair_prefix it "" Hsound) as (rest1 & E1 & Hgood).
    cbv zeta in E1, Hgood.
    set (ss1 := put _ (put (Some "=") (put _ _))) in *.
    change ("" +:+ wire_pair it) with (wire_pair it) in E1.
    destruct (ss_good ss1) eqn:Eg.
    + destruct (serialize_loop_prefix params Hsound ss1) as (rest2 & E2).
      cbv zeta in E2. exists rest2. rewrite <- E2.
      rewrite (Hgood eq_refl), append_empty_r in E1. rewrite E1. reflexivity.
    + pose proof (serialize_loop_bad params false ss1 Eg) as Eb. cbv zeta in Eb.
      rewrite Eb. eexists. rewrite E1, append_assoc. reflexivity.
Qed.

(** C8 fails when libcurl answers an escape with NULL, as it does for a
    value it finds too long: serialize hands the null pointer to the
    stream, which fails, so the value and every later pair are missing
    from the string it returns, and from the URL query builds. *)
Theorem serialize_drops_what_follows_a_failed_escape (k v : string)
    (rest : httpparams) :
  escapes k ->
  curl_easy_escape v (to_int (size v)) = None ->
  v <> "" ->
  serialize ((k, v) :: rest) = percent_encode k +:+ "="
  /\ serialize ((k, v) :: rest) <> serialize_spec ((k, v) :: rest)
  /\ count_char "&" (serialize ((k, v) :: rest)) = 0
  /\ (forall url, query url ((k, v) :: rest) = url +:+ "?" +:+ percent_encode k +:+ "=").
Proof.
  intros Hk Hv Hne.
  assert (E : serialize ((k, v) :: rest) = percent_encode k +:+ "=").
  { unfold serialize. cbn [fold_left fst snd]. unfold escapes in Hk. rewrite Hk, Hv.
    rewrite !put_some, put_null.
    rewrite serialize_loop_bad by reflexivity. reflexivity. }
  split; [exact E|]. split; [|split].
  - rewrite E. unfold serialize_spec. rewrite concat_amp. unfold pair_text.
    cbn [fst snd]. rewrite !append_assoc. intros Heq.
    apply append_cancel in Heq.
    change ("=" +:+ ?x) with (String "=" x) in Heq. injection Heq as Heq.
    symmetry in Heq.
    destruct (percent_encode v) as [|c s] eqn:Ev.
    + apply percent_encode_empty in Ev. contradiction.
    + discriminate.
  - rewrite E, count_char_append, escape_no_amp. reflexivity.
  - intros url. unfold query. rewrite E. reflexivity.
Qed.

(** C10.  A std::map keeps its entries in ascending order of key, so the
    map a caller fills is the same whatever the order of the insertions,
    two maps with the same pairs are the same sequence of entries, and
    serialize returns the same string for them.  It writes the entries in
    that order: its output is the join of the pairs in the order of the map
    when libcurl encodes every key and value, and a beginning of that join
    whatever libcurl answers. *)
Theorem serialize_order_canonical :
  (forall l, ascending (params_of l))
  /\ (forall l1 l2, List.NoDup (map fst l1) -> Permutation l1 l2 ->
        params_of l1 = params_of l2
        /\ serialize (params_of l1) = serialize (params_of l2))
  /\ (forall m1 m2 : httpparams, ascending m1 -> ascending m2 ->
        (forall kv, In kv m1 <-> In kv m2) ->
        serialize m1 = serialize m2)
  /\ (forall m : httpparams,
        escapes_all m ->
        serialize m = String.concat "&" (map pair_text m))
  /\ (escape_sound ->
      forall m : httpparams,
        exists rest, String.concat "&" (map wire_pair m) = serialize m +:+ rest).
Proof.
  split; [exact params_of_ascending|].
  split.
  { intros l1 l2 Hnd Hperm.
    assert (E : params_of l1 = params_of l2).
    { apply ascending_unique; try apply params_of_ascending.
      intros kv. rewrite (in_params_of _ Hnd).
      rewrite in_params_of.
      - split; apply Permutation_in; [exact Hperm | symmetry; exact Hperm].
      - eapply Permutation_NoDup; [|exact Hnd].
        apply Permutation_map. exact Hperm. }
    split; [exact E | now rewrite E]. }
  split.
  { intros m1 m2 H1 H2 Hin. now rewrite (ascending_unique _ _ H1 H2 Hin). }
  split; [exact serialize_is_join|].
  intros Hsound m. apply serialize_prefix. exact Hsound.
Qed.

End SerializerProps.

(** The simulated curl_easy_escape answers as libcurl documents, and
    encodes the whole of every string below 8,000,000 bytes. *)
Lemma sim_escape_sound : escape_sound (H := Sim.SimEscape).
Proof.
  intros s n out. cbn.
  destruct ((n <? 0) || (8000000 <=? n))%Z; [discriminate|].
  intros [= <-]. reflexivity.
Qed.

Lemma sim_escapes (s : string) :
  (size s < 8000000)%Z -> escapes (H := Sim.SimEscape) s.
Proof.
  intros Hs. pose proof (size_nonneg s). unfold escapes. cbn.
  rewrite to_int_small by lia.
  destruct (Z.ltb_spec (size s) 0); [lia|].
  destruct (Z.leb_spec 8000000 (size s)); [lia|].
  cbn. rewrite escape_input_whole. reflexivity.
Qed.

Lemma spaces_8MB_size : size Sim.spaces_8MB = 8000000%Z.
Proof.
  unfold Sim.spaces_8MB.
  rewrite size_of_bytes, repeat_length. apply Z2Nat.id. discriminate.
Qed.

Lemma spaces_8MB_refused :
  curl_easy_escape (CurlEscape := Sim.SimEscape) Sim.spaces_8MB
    (to_int (size Sim.spaces_8MB)) = None.
Proof. rewrite spaces_8MB_size. reflexivity. Qed.

Lemma spaces_8MB_nonempty : Sim.spaces_8MB <> "".
Proof.
  intros E. pose proof spaces_8MB_size as Hs. rewrite E in Hs. discriminate.
Qed.

(** On the simulated libcurl the mapping {a: 8,000,000 spaces, b: 2}
    serializes to "a=". *)
Lemma serialize_drops_what_follows_a_failed_escape_witness :
  serialize (H := Sim.SimEscape) [("a", Sim.spaces_8MB); ("b", "2")] = "a="
  /\ serialize (H := Sim.SimEscape) [("a", Sim.spaces_8MB); ("b", "2")]
     <> serialize_spec [("a", Sim.spaces_8MB); ("b", "2")].
Proof.
  split.
  - exact (proj1 (serialize_drops_what_follows_a_failed_escape (H := Sim.SimEscape)
                    "a" Sim.spaces_8MB [("b", "2")]
                    eq_refl spaces_8MB_refused spaces_8MB_nonempty)).
  - exact (proj1 (proj2 (serialize_drops_what_follows_a_failed_escape
                    (H := Sim.SimEscape) "a" Sim.spaces_8MB [("b", "2")]
                    eq_refl spaces_8MB_refused spaces_8MB_nonempty))).
Defined.

(** On the simulated libcurl the pairs come out in the order of the keys,
    in whatever order they were inserted, and {"a":"1","b":"2 3"} gives
    "a=1&b=2%203". *)
Lemma serialize_order_canonical_witness :
  serialize (H := Sim.SimEscape) (params_of [("b", "2"); ("a", "1"); ("c", "3")])
  = "a=1&b=2&c=3"
  /\ serialize (H := Sim.SimEscape) (params_of [("c", "3"); ("a", "1"); ("b", "2")])
     = "a=1&b=2&c=3"
  /\ serialize (H := Sim.SimEscape) (params_of [("a", "1"); ("b", "2 3")])
     = "a=1&b=2%203".
Proof.
  pose proof (proj1 (proj2 (proj2 (proj2
                (serialize_order_canonical (H := Sim.SimEscape)))))) as Hjoin.
  assert (E1 : params_of [("b", "2"); ("a", "1"); ("c", "3")]
               = [("a", "1"); ("b", "2"); ("c", "3")])
    by (vm_compute; reflexivity).
  assert (E2 : params_of [("c", "3"); ("a", "1"); ("b", "2")]
               = [("a", "1"); ("b", "2"); ("c", "3")])
    by (vm_compute; reflexivity).
  assert (E3 : params_of [("a", "1"); ("b", "2 3")]
               = [("a", "1"); ("b", "2 3")])
    by (vm_compute; reflexivity).
  rewrite E1, E2, E3.
  split; [|split]; rewrite Hjoin by (repeat constructor); reflexivity.
Defined.

(** ** Running the pipeline *)

#[local] Arguments gzip : simpl never.
#[local] Arguments gunzip : simpl never.
#[local] Arguments headerfunc : simpl never.
#[local] Arguments Str.c_str : simpl never.
#[local] Arguments size : simpl never.
#[local] Arguments CURLE_OK : simpl never.
#[local] Arguments CURLE_OPERATION_TIMEDOUT : simpl never.
#[local] Arguments CURLE_COULDNT_RESOLVE_HOST : simpl never.
#[local] Arguments CURLE_COULDNT_CONNECT : simpl never.

#[local] Arguments prepare_basic : simpl never.
#[local] Arguments prepare_post : simpl never.
#[local] Arguments perform : simpl never.
#[local] Arguments process_response : simpl never.
#[local] Arguments read_back : simpl never.
#[local] Arguments deliver : simpl never.
#[local] Arguments received : simpl never.
#[local] Arguments body_of : simpl never.
#[local] Arguments declares_gzip : simpl never.
#[local] Arguments postfields_of : simpl never.
#[local] Arguments httpheader_of : simpl never.
#[local] Arguments performed : simpl never.

Section PipelineProps.
Context `{LibCurl} `{Zlib}.

Lemma prepare_basic_trace (url : string) (timeout : Z) (accept : bool) (w : world) :
  let '(r, w', t) := prepare_basic url timeout accept w in
  (exists t', t = ev_reset :: t')
  /\ postfields_of t = [] /\ httpheader_of t = [] /\ performed t = []
  /\ result w' = result w /\ out w' = out w /\ files w' = files w
  /\ can_open w' = can_open w
  /\ (r = Returns tt ->
      headers_ (curl w') = if accept then ["Accept-encoding: gzip"] else []).
Proof.
  unfold prepare_basic, reset, clear_headers, add_header, bind, modify, emit, setopt, ret.
  cbn.
  repeat step_setopt;
    try (repeat split; try reflexivity; try discriminate; eexists; reflexivity).
  destruct accept; cbn;
    (repeat split; try reflexivity; try discriminate; eexists; reflexivity).
Qed.

Lemma prepare_post_trace (data : string) (sz : Z) (compressed : bool) (w : world) :
  let '(r, w', t) := prepare_post data sz compressed w in
  httpheader_of t = [] /\ performed t = []
  /\ (postfields_of t = [] \/ postfields_of t = [data])
  /\ result w' = result w /\ out w' = out w /\ files w' = files w
  /\ can_open w' = can_open w
  /\ (r = Returns tt ->
      postfields_of t = [data]
      /\ headers_ (curl w')
         = headers_ (curl w) ++ ["Expect:"]
           ++ (if compressed then ["Content-Encoding: gzip"] else [])).
Proof.
  unfold prepare_post, add_header, bind, modify, setopt, ret. cbn.
  repeat step_setopt;
    try (repeat split; try reflexivity; try discriminate; auto; fail).
  destruct compressed; cbn; rewrite <- ?app_assoc;
    (repeat split; try reflexivity; try discriminate; auto).
Qed.

(** perform hands the pending headers to libcurl; when that call fails it
    throws without a transfer, otherwise it runs the transfer, whose
    callbacks write to the response and the stream, and maps the code. *)
Lemma perform_run (w : world) :
  let '(r, w', t) := perform w in
  exists c0 h0,
    curl_easy_setopt (handle_ (curl w)) CURLOPT_HTTPHEADER
      (VSlist (headers_ (curl w))) = (c0, h0)
    /\ (((CURLE_OK =? c0)%Z = false
         /\ r = Throws (curl_error c0) /\ w' = set_handle_ h0 w
         /\ t = [ev_setopt CURLOPT_HTTPHEADER (VSlist (headers_ (curl w)))])
        \/ ((CURLE_OK =? c0)%Z = true
            /\ exists code delivered h1,
                 curl_easy_perform h0 = (code, delivered, h1)
                 /\ r = perform_outcome code
                 /\ w' = deliver delivered (set_handle_ h1 (set_handle_ h0 w))
                 /\ t = [ev_setopt CURLOPT_HTTPHEADER (VSlist (headers_ (curl w)));
                         ev_perform code delivered])).
Proof.
  unfold perform, bind, gets, setopt, easy_perform, perform_outcome, ret, throw. cbn.
  destruct (curl_easy_setopt _ _ _) as [c0 h0] eqn:E0. cbn.
  destruct (CURLE_OK =? c0)%Z eqn:Ec; cbn.
  - destruct (curl_easy_perform h0) as [[code delivered] h1] eqn:E1. cbn.
    destruct (CURLE_OK =? code)%Z eqn:E2; cbn;
      [|destruct (CURLE_OPERATION_TIMEDOUT =? code)%Z eqn:E3; cbn;
        [|destruct (CURLE_COULDNT_RESOLVE_HOST =? code)%Z eqn:E4; cbn;
          [|destruct (CURLE_COULDNT_CONNECT =? code)%Z eqn:E5; cbn]]];
      (exists c0, h0; split; [reflexivity|]; right; split; [exact Ec|];
       exists code, delivered, h1; unfold perform_outcome;
       rewrite ?E2, ?E3, ?E4, ?E5; auto).
  - exists c0, h0. split; [reflexivity|]. left. auto.
Qed.

(** What the callbacks leave behind after a transfer. *)
Lemma deliver_frame (delivered : list wire) (w : world) :
  can_open (deliver delivered w) = can_open w
  /\ curl (deliver delivered w) = curl w
  /\ result (deliver delivered w) = received delivered (result w).
Proof.
  unfold deliver, received. revert w.
  induction delivered as [|[line|chunk] d IH]; intros w; cbn; [auto | |].
  - destruct (IH (with_result (headerfunc line (result w)) w)) as (-> & -> & ->).
    auto.
  - destruct (IH (streamfunc chunk w)) as (-> & -> & ->).
    unfold streamfunc. destruct (out w) as [s|p []]; auto.
Qed.

Lemma deliver_string (delivered : list wire) (w : world) (s : string) :
  out w = ostringstream s ->
  out (deliver delivered w) = ostringstream (s +:+ body_of delivered)
  /\ files (deliver delivered w) = files w.
Proof.
  unfold deliver. revert w s.
  induction delivered as [|[line|chunk] d IH]; intros w s Hout; cbn.
  - rewrite append_empty_r. auto.
  - apply (IH (with_result (headerfunc line (result w)) w) s). exact Hout.
  - destruct (IH (streamfunc chunk w) (s +:+ chunk)) as (-> & ->).
    + unfold streamfunc. rewrite Hout. reflexivity.
    + rewrite append_assoc. unfold streamfunc. rewrite Hout. auto.
Qed.

Lemma deliver_file (delivered : list wire) (w : world) (p s : string) :
  out w = ofstream p true -> files w !! p = Some s ->
  out (deliver delivered w) = ofstream p true
  /\ files (deliver delivered w) !! p = Some (s +:+ body_of delivered).
Proof.
  unfold deliver. revert w s.
  induction delivered as [|[line|chunk] d IH]; intros w s Hout Hf; cbn.
  - rewrite append_empty_r. auto.
  - apply (IH (with_result (headerfunc line (result w)) w) s); assumption.
  - destruct (IH (streamfunc chunk w) (s +:+ chunk)) as (-> & ->).
    + unfold streamfunc. rewrite Hout. cbn. exact Hout.
    + unfold streamfunc. rewrite Hout, Hf. cbn. apply lookup_insert_eq.
    + rewrite append_assoc. auto.
Qed.

Lemma deliver_closed (delivered : list wire) (w : world) (p : string) :
  out w = ofstream p false -> files (deliver delivered w) = files w.
Proof.
  unfold deliver. revert w.
  induction delivered as [|[line|chunk] d IH]; intros w Hout; cbn; [reflexivity | |].
  - apply (IH (with_result (headerfunc line (result w)) w)). exact Hout.
  - assert (E : streamfunc chunk w = w) by (unfold streamfunc; now rewrite Hout).
    rewrite E. apply IH. exact Hout.
Qed.

Lemma process_response_run (w : world) :
  process_response w
  = if declares_gzip (headers (result w))
    then match gunzip (body (result w)) with
         | Returns b => (Returns tt, with_result (set_body b (result w)) w, [])
         | Throws e => (Throws e, w, [])
         end
    else (Returns tt, w, []).
Proof.
  unfold process_response, declares_gzip, bind, gets, lift, modify, ret.
  change (Str.tolower "gzip") with "gzip".
  destruct (headers (result w) !! "content-encoding") as [v|]; [|reflexivity].
  destruct (String.eqb (Str.tolower v) "gzip"); [|reflexivity].
  destruct (gunzip (body (result w))); reflexivity.
Qed.

Lemma postfields_of_app (a b : list event) :
  postfields_of (a ++ b) = postfields_of a ++ postfields_of b.
Proof. apply flat_map_app. Qed.

Lemma httpheader_of_app (a b : list event) :
  httpheader_of (a ++ b) = httpheader_of a ++ httpheader_of b.
Proof. apply flat_map_app. Qed.

Lemma performed_app (a b : list event) :
  performed (a ++ b) = performed a ++ performed b.
Proof. apply flat_map_app. Qed.

Lemma perform_outcome_returns (code : Z) :
  perform_outcome code = Returns tt -> code = CURLE_OK.
Proof.
  unfold perform_outcome.
  destruct (Z.eqb_spec CURLE_OK code) as [<-|]; [reflexivity|].
  destruct (CURLE_OPERATION_TIMEDOUT =? code)%Z; [discriminate|].
  destruct (CURLE_COULDNT_RESOLVE_HOST =? code)%Z; [discriminate|].
  destruct (CURLE_COULDNT_CONNECT =? code)%Z; discriminate.
Qed.

Lemma get_unfold (url : string) (timeout : Z) :
  get url timeout
  = (modify (with_result fresh_response) ;;
     modify (with_out (ostringstream "")) ;;
     prepare_basic url timeout true ;;
     perform ;;
     read_back).
Proof. reflexivity. Qed.

Lemma post_unfold (url data : string) (timeout : Z) :
  post url data timeout
  = (modify (with_result fresh_response) ;;
     modify (with_out (ostringstream "")) ;;
     prepare_basic url timeout true ;;
     sent <- (if (10240 <? size data)%Z
              then (z <- lift (gzip data) ;; ret (z, true))
              else ret (data, false)) ;;
     prepare_post (fst sent) (size (fst sent)) (snd sent) ;;
     perform ;;
     read_back).
Proof. reflexivity. Qed.

(** The end of get and of post: the body returned is the streamed body,
    gunzipped when the received headers declare gzip. *)
Lemma read_back_run (w : world) (s : string) :
  out w = ostringstream s ->
  let '(r, w', t) := read_back w in
  postfields_of t = [] /\ httpheader_of t = [] /\ performed t = []
  /\ (forall resp, r = Returns resp ->
        headers resp = headers (result w)
        /\ (declares_gzip (headers resp) = true -> gunzip s = Returns (body resp))
        /\ (declares_gzip (headers resp) = false -> body resp = s)).
Proof.
  intros Hout. unfold read_back, bind, modify, gets, getinfo_long. cbn.
  destruct (curl_easy_getinfo_long (handle_ (curl w)) CURLINFO_RESPONSE_CODE)
    as [c1 st]. cbn.
  destruct (CURLE_OK =? c1)%Z; cbn.
  2:{ repeat split; try reflexivity; congruence. }
  rewrite process_response_run. cbn. rewrite Hout. cbn.
  destruct (declares_gzip (headers (result w))) eqn:Ed.
  - destruct (gunzip s) as [b|e] eqn:Eg; cbn.
    + split; [reflexivity|]. split; [reflexivity|]. split; [reflexivity|].
      intros resp [= <-]. cbn. rewrite Ed.
      split; [reflexivity|]. split; [auto | discriminate].
    + repeat split; try reflexivity; congruence.
  - cbn. split; [reflexivity|]. split; [reflexivity|]. split; [reflexivity|].
    intros resp [= <-]. cbn. rewrite Ed.
    split; [reflexivity|]. split; [discriminate | auto].
Qed.

(** One run of get, from any world. *)
Lemma get_run (url : string) (timeout : Z) (w : world) :
  let '(r, w', t) := get url timeout w in
  (exists t', t = ev_reset :: t')
  /\ postfields_of t = []
  /\ (forall hs, In hs (httpheader_of t) -> hs = ["Accept-encoding: gzip"])
  /\ (forall resp, r = Returns resp ->
        exists delivered,
          performed t = [(CURLE_OK, delivered)]
          /\ httpheader_of t = [["Accept-encoding: gzip"]]
          /\ headers resp = headers (received delivered fresh_response)
          /\ (declares_gzip (headers resp) = true ->
              gunzip (body_of delivered) = Returns (body resp))
          /\ (declares_gzip (headers resp) = false ->
              body resp = body_of delivered)).
Proof.
  rewrite get_unfold. unfold bind, modify. cbn.
  set (w1 := with_out _ _).
  pose proof (prepare_basic_trace url timeout true w1) as Hb.
  destruct (prepare_basic url timeout true w1) as [[r1 w2] t1].
  destruct Hb as ((t' & ->) & Hpf & Hhh & Hpd & Hres & Hout & Hfiles & Hcan & Hhdr).
  destruct r1 as [[]|e]; cbn.
  2:{ rewrite Hpf, Hhh. repeat split; try discriminate; eauto. intros hs []. }
  specialize (Hhdr eq_refl).
  pose proof (perform_run w2) as Hp.
  destruct (perform w2) as [[r2 w3] t2].
  destruct Hp as (c0 & h0 & E0 & [(Ec & -> & -> & ->)|(Ec & code & d & h1 & E1 & -> & -> & ->)]);
    cbn.
  { change (ev_reset :: t' ++ ?x) with ((ev_reset :: t') ++ x).
    rewrite postfields_of_app, httpheader_of_app, Hpf, Hhh, Hhdr.
    repeat split; try discriminate; eauto.
    intros hs [<-|[]]. reflexivity. }
  assert (Hshape : forall tail,
            postfields_of ((ev_reset :: t') ++
              [ev_setopt CURLOPT_HTTPHEADER (VSlist (headers_ (curl w2)));
               ev_perform code d] ++ tail) = postfields_of tail
            /\ httpheader_of ((ev_reset :: t') ++
              [ev_setopt CURLOPT_HTTPHEADER (VSlist (headers_ (curl w2)));
               ev_perform code d] ++ tail)
               = ["Accept-encoding: gzip"] :: httpheader_of tail
            /\ performed ((ev_reset :: t') ++
              [ev_setopt CURLOPT_HTTPHEADER (VSlist (headers_ (curl w2)));
               ev_perform code d] ++ tail)
               = (code, d) :: performed tail).
  { intros tail.
    rewrite !postfields_of_app, !httpheader_of_app, !performed_app, Hpf, Hhh, Hpd, Hhdr.
    auto. }
  destruct (perform_outcome code) as [[]|e] eqn:Eo; cbn.
  2:{ change (ev_reset :: t' ++ ?x) with ((ev_reset :: t') ++ x ++ []).
      destruct (Hshape []) as (-> & -> & ->).
      repeat split; try discriminate; eauto.
      intros hs [<-|[]]. reflexivity. }
  apply perform_outcome_returns in Eo. subst code.
  set (w3 := deliver d _).
  destruct (deliver_frame d (set_handle_ h1 (set_handle_ h0 w2))) as (_ & _ & Hr).
  destruct (deliver_string d (set_handle_ h1 (set_handle_ h0 w2)) "") as (Ho & _).
  { cbn. rewrite Hout. reflexivity. }
  fold w3 in Hr, Ho. cbn in Hr. rewrite Hres in Hr. cbn in Hr.
  pose proof (read_back_run w3 _ Ho) as Hf.
  destruct (read_back w3) as [[r3 w4] t3].
  destruct Hf as (Hpf3 & Hhh3 & Hpd3 & Hresp).
  change (ev_reset :: t' ++ ?x :: ?y :: ?z) with ((ev_reset :: t') ++ [x; y] ++ z).
  destruct (Hshape t3) as (-> & -> & ->). rewrite Hpf3, Hhh3, Hpd3.
  repeat split; eauto.
  - intros hs [<-|[]]. reflexivity.
  - intros resp ->. destruct (Hresp resp eq_refl) as (Hh & Hg & Hn).
    exists d. rewrite Hh, Hr. repeat split; auto.
    + intros Hd. apply Hg. rewrite Hh, Hr. exact Hd.
    + intros Hd. apply Hn. rewrite Hh, Hr. exact Hd.
Qed.

(** perform followed by the reading back of the response. *)
Lemma transfer_run (w : world) (s : string) :
  out w = ostringstream s ->
  let '(r, w', t) := (perform ;; read_back) w in
  postfields_of t = []
  /\ httpheader_of t = [headers_ (curl w)]
  /\ (performed t = [] \/ exists code d, performed t = [(code, d)])
  /\ (forall resp, r = Returns resp ->
        exists d,
          performed t = [(CURLE_OK, d)]
          /\ headers resp = headers (received d (result w))
          /\ (declares_gzip (headers resp) = true ->
              gunzip (s +:+ body_of d) = Returns (body resp))
          /\ (declares_gzip (headers resp) = false ->
              body resp = s +:+ body_of d)).
Proof.
  intros Hout. unfold bind.
  pose proof (perform_run w) as Hp.
  destruct (perform w) as [[r2 w3] t2].
  destruct Hp as (c0 & h0 & E0 & [(Ec & -> & -> & ->)|(Ec & code & d & h1 & E1 & -> & -> & ->)]).
  { split; [reflexivity|]. split; [reflexivity|]. split; [left; reflexivity|].
    intros resp Hr. discriminate. }
  destruct (perform_outcome code) as [[]|e] eqn:Eo.
  2:{ split; [reflexivity|]. split; [reflexivity|].
      split; [right; exists code, d; reflexivity|].
      intros resp Hr. discriminate. }
  apply perform_outcome_returns in Eo. subst code.
  set (w3 := deliver d _).
  destruct (deliver_frame d (set_handle_ h1 (set_handle_ h0 w))) as (_ & _ & Hr).
  destruct (deliver_string d (set_handle_ h1 (set_handle_ h0 w)) s Hout) as (Ho & _).
  fold w3 in Hr, Ho. cbn in Hr.
  pose proof (read_back_run w3 _ Ho) as Hf.
  destruct (read_back w3) as [[r3 w4] t3].
  destruct Hf as (Hpf3 & Hhh3 & Hpd3 & Hresp).
  change ([?x; ?y] ++ t3) with ([x; y] ++ t3).
  rewrite postfields_of_app, httpheader_of_app, performed_app, Hpf3, Hhh3, Hpd3.
  split; [reflexivity|]. split; [reflexivity|].
  split; [right; exists CURLE_OK, d; reflexivity|].
  intros resp ->. destruct (Hresp resp eq_refl) as (Hh & Hg & Hn).
  exists d. rewrite Hh, Hr. split; [reflexivity|]. split; [reflexivity|].
  split; intros Hd; [apply Hg | apply Hn]; rewrite Hh, Hr; exact Hd.
Qed.

(** One run of post, from any world: the body and the header list that
    libcurl is given depend on the size of the data alone. *)
Lemma post_run (url data : string) (timeout : Z) (w : world) :
  let '(r, w', t) := post url data timeout w in
  let sent := if (10240 <? size data)%Z then gzip data else Returns data in
  let hdrs := ["Accept-encoding: gzip"; "Expect:"]
              ++ (if (10240 <? size data)%Z then ["Content-Encoding: gzip"] else []) in
  (exists t', t = ev_reset :: t')
  /\ (forall d, In d (postfields_of t) -> sent = Returns d)
  /\ (forall hs, In hs (httpheader_of t) -> hs = hdrs)
  /\ (forall code delivered, In (code, delivered) (performed t) ->
        exists d, sent = Returns d /\ postfields_of t = [d]
                  /\ httpheader_of t = [hdrs])
  /\ (forall resp, r = Returns resp ->
        exists delivered,
          performed t = [(CURLE_OK, delivered)]
          /\ headers resp = headers (received delivered fresh_response)
          /\ (declares_gzip (headers resp) = true ->
              gunzip (body_of delivered) = Returns (body resp))
          /\ (declares_gzip (headers resp) = false ->
              body resp = body_of delivered)).
Proof.
  rewrite post_unfold. unfold bind at 1 2 3. unfold modify.
  cbv beta iota zeta.
  set (w1 := with_out _ _).
  pose proof (prepare_basic_trace url timeout true w1) as Hb.
  destruct (prepare_basic url timeout true w1) as [[r1 w2] t1].
  destruct Hb as (Hhd & Hpf & Hhh & Hpd & Hres & Hout & Hfiles & Hcan & Hhdr).
  assert (Hhd' : forall t2, exists t', t1 ++ t2 = ev_reset :: t').
  { intros t2. destruct Hhd as (t' & ->). eexists. reflexivity. }
  destruct r1 as [[]|e].
  2:{ cbv beta iota zeta. cbn [app]. split; [exact Hhd|].
      rewrite Hpf, Hhh, Hpd. repeat split; eauto; try easy. }
  specialize (Hhdr eq_refl).
  assert (Hrest : forall d c,
    (if (10240 <? size data)%Z then gzip data else Returns data) = Returns d ->
    c = (10240 <? size data)%Z ->
    let '(r, w', t2) := (prepare_post d (size d) c ;; perform ;; read_back) w2 in
    let t := t1 ++ t2 in
    let hdrs := ["Accept-encoding: gzip"; "Expect:"]
                ++ (if c then ["Content-Encoding: gzip"] else []) in
    (forall x, In x (postfields_of t) -> x = d)
    /\ (forall hs, In hs (httpheader_of t) -> hs = hdrs)
    /\ (forall code delivered, In (code, delivered) (performed t) ->
          postfields_of t = [d] /\ httpheader_of t = [hdrs])
    /\ (forall resp, r = Returns resp ->
          exists delivered,
            performed t = [(CURLE_OK, delivered)]
            /\ headers resp = headers (received delivered fresh_response)
            /\ (declares_gzip (headers resp) = true ->
                gunzip (body_of delivered) = Returns (body resp))
            /\ (declares_gzip (headers resp) = false ->
                body resp = body_of delivered))).
  { intros d c Hsent Hc. unfold bind at 1.
    pose proof (prepare_post_trace d (size d) c w2) as Hpp.
    destruct (prepare_post d (size d) c w2) as [[r3 w3] t3].
    destruct Hpp as (Hhh3 & Hpd3 & Hpf3 & Hres3 & Hout3 & _ & _ & Hok).
    destruct r3 as [[]|e].
    2:{ cbv beta iota zeta.
        rewrite postfields_of_app, httpheader_of_app, performed_app,
          Hpf, Hhh, Hpd, Hhh3, Hpd3. cbn [app].
        split; [|repeat split; eauto; easy].
        intros x Hx. destruct Hpf3 as [E|E]; rewrite E in Hx; [destruct Hx|].
        destruct Hx as [<-|[]]. reflexivity. }
    destruct (Hok eq_refl) as (Hpf3' & Hh3).
    assert (Hout' : out w3 = ostringstream "").
    { rewrite Hout3, Hout. reflexivity. }
    pose proof (transfer_run w3 "" Hout') as Ht.
    destruct ((perform ;; read_back) w3) as [[r4 w4] t4].
    destruct Ht as (Hpf4 & Hhh4 & Hpd4 & Hresp). cbv beta iota zeta.
    rewrite !postfields_of_app, !httpheader_of_app, !performed_app,
      Hpf, Hhh, Hpd, Hhh3, Hpd3, Hpf3', Hpf4, Hhh4, Hh3, Hhdr. cbn [app].
    split; [intros x [<-|[]]; reflexivity|].
    split; [intros hs [<-|[]]; reflexivity|].
    split; [auto|].
    intros resp Hr. destruct (Hresp resp Hr) as (dl & Hd & Hh & Hg & Hn).
    exists dl. rewrite Hres3, Hres in Hh. cbn in Hh. auto. }
  unfold bind at 1.
  destruct (10240 <? size data)%Z eqn:Ez.
  - unfold bind at 1, lift, ret. destruct (gzip data) as [z|e] eqn:Eg.
    2:{ cbv beta iota zeta. cbn [app]. rewrite !app_nil_r. split; [exact Hhd|].
        rewrite Hpf, Hhh, Hpd. repeat split; eauto; try easy. }
    specialize (Hrest z true eq_refl eq_refl). cbv beta iota zeta.
    change (fst (z, true)) with z. change (snd (z, true)) with true.
    destruct ((prepare_post z (size z) true ;; perform ;; read_back) w2)
      as [[r w'] t2].
    cbv beta iota zeta in Hrest. destruct Hrest as (H1 & H2 & H3 & H4).
    cbn [app]. split; [apply Hhd'|].
    split; [intros d Hd; f_equal; symmetry; exact (H1 d Hd)|].
    split; [exact H2|].
    split; [|exact H4].
    intros code dl Hin. exists z. split; [reflexivity|]. exact (H3 code dl Hin).
  - specialize (Hrest data false eq_refl eq_refl). unfold ret.
    cbv beta iota zeta.
    change (fst (data, false)) with data. change (snd (data, false)) with false.
    destruct ((prepare_post data (size data) false ;; perform ;; read_back) w2)
      as [[r w'] t2].
    cbv beta iota zeta in Hrest. destruct Hrest as (H1 & H2 & H3 & H4).
    cbn [app]. split; [apply Hhd'|].
    split; [intros d Hd; f_equal; symmetry; exact (H1 d Hd)|].
    split; [exact H2|].
    split; [|exact H4].
    intros code dl Hin. exists data. split; [reflexivity|]. exact (H3 code dl Hin).
Qed.

(** One run of download, from any world. *)
Lemma download_run (url localpath : string) (timeout : Z) (w : world) :
  let '(r, w', t) := download url localpath timeout w in
  let path := Str.c_str localpath in
  (exists t', t = ev_open_trunc path :: ev_reset :: t')
  /\ postfields_of t = []
  /\ (forall hs, In hs (httpheader_of t) -> hs = [])
  /\ (can_open w path = true ->
      (performed t = [] /\ files w' !! path = Some "")
      \/ (exists code d, performed t = [(code, d)]
                         /\ files w' !! path = Some (body_of d)))
  /\ (can_open w path = false -> files w' = files w).
Proof.
  unfold download, open_trunc. unfold bind at 1 2 3. unfold modify, emit.
  cbv beta iota zeta.
  set (path := Str.c_str localpath).
  set (w1 := if can_open _ path then _ else _).
  assert (Hw1 : (can_open w path = true ->
                 out w1 = ofstream path true /\ files w1 !! path = Some "")
                /\ (can_open w path = false ->
                    out w1 = ofstream path false /\ files w1 = files w)).
  { subst w1. cbn. destruct (can_open w path); split; try discriminate; intros _.
    - cbn. split; [reflexivity | apply lookup_insert_eq].
    - cbn. auto. }
  clearbody w1.
  unfold bind at 1.
  pose proof (prepare_basic_trace url timeout false w1) as Hb.
  destruct (prepare_basic url timeout false w1) as [[r1 w2] t1].
  destruct Hb as (Hhd & Hpf & Hhh & Hpd & Hres & Hout & Hfiles & Hcan & Hhdr).
  assert (Hhd' : forall t2,
            exists t', ev_open_trunc path :: t1 ++ t2
                       = ev_open_trunc path :: ev_reset :: t').
  { intros t2. destruct Hhd as (t' & ->). eexists. reflexivity. }
  assert (Hproj : forall t2,
            postfields_of (ev_open_trunc path :: t1 ++ t2) = postfields_of t2
            /\ httpheader_of (ev_open_trunc path :: t1 ++ t2) = httpheader_of t2
            /\ performed (ev_open_trunc path :: t1 ++ t2) = performed t2).
  { intros t2. change (ev_open_trunc path :: t1 ++ t2)
      with ([ev_open_trunc path] ++ t1 ++ t2).
    rewrite !postfields_of_app, !httpheader_of_app, !performed_app, Hpf, Hhh, Hpd.
    auto. }
  destruct r1 as [[]|e].
  2:{ cbv beta iota zeta. cbn [app]. rewrite <- (app_nil_r t1).
      destruct (Hproj []) as (-> & -> & ->).
      split; [apply Hhd'|]. split; [reflexivity|]. split; [intros hs []|].
      split.
      - intros Hc. left. split; [reflexivity|].
        rewrite Hfiles. apply (proj1 Hw1 Hc).
      - intros Hc. rewrite Hfiles. apply (proj2 Hw1 Hc). }
  specialize (Hhdr eq_refl). cbn in Hhdr.
  unfold bind at 1.
  pose proof (perform_run w2) as Hp.
  destruct (perform w2) as [[r2 w3] t2].
  destruct Hp as (c0 & h0 & E0 & [(Ec & -> & -> & ->)|(Ec & code & d & h1 & E1 & -> & -> & ->)]).
  { cbv beta iota zeta. cbn [app].
    destruct (Hproj [ev_setopt CURLOPT_HTTPHEADER (VSlist (headers_ (curl w2)))])
      as (-> & -> & ->).
    split; [apply Hhd'|]. split; [reflexivity|].
    split; [rewrite Hhdr; intros hs [<-|[]]; reflexivity|].
    split.
    - intros Hc. left. split; [reflexivity|].
      cbn. rewrite Hfiles. apply (proj1 Hw1 Hc).
    - intros Hc. cbn. rewrite Hfiles. apply (proj2 Hw1 Hc). }
  set (w3 := deliver d _).
  assert (Hw3 : (can_open w path = true -> files w3 !! path = Some (body_of d))
                /\ (can_open w path = false -> files w3 = files w)).
  { split; intros Hc.
    - destruct (proj1 Hw1 Hc) as (Ho & Hf).
      destruct (deliver_file d (set_handle_ h1 (set_handle_ h0 w2)) path "") as (_ & Hd).
      + cbn. rewrite Hout. exact Ho.
      + cbn. rewrite Hfiles. exact Hf.
      + exact Hd.
    - destruct (proj2 Hw1 Hc) as (Ho & Hf).
      unfold w3. rewrite (deliver_closed d _ path).
      + cbn. rewrite Hfiles. exact Hf.
      + cbn. rewrite Hout. exact Ho. }
  clearbody w3.
  destruct (perform_outcome code) as [[]|e] eqn:Eo.
  2:{ cbv beta iota zeta. cbn [app].
      destruct (Hproj [ev_setopt CURLOPT_HTTPHEADER (VSlist (headers_ (curl w2)));
                       ev_perform code d]) as (-> & -> & ->).
      split; [apply Hhd'|]. split; [reflexivity|].
      split; [rewrite Hhdr; intros hs [<-|[]]; reflexivity|].
      split.
      - intros Hc. right. exists code, d. split; [reflexivity|]. apply (proj1 Hw3 Hc).
      - apply (proj2 Hw3). }
  unfold bind at 1. unfold getinfo_long.
  destruct (curl_easy_getinfo_long (handle_ (curl w3)) CURLINFO_RESPONSE_CODE)
    as [c1 st].
  destruct (CURLE_OK =? c1)%Z; cbv beta iota zeta; unfold bind, gets;
    cbv beta iota zeta; cbn [app];
    match goal with
    | |- context [ev_open_trunc path :: t1 ++ ?x] =>
        destruct (Hproj x) as (-> & -> & ->)
    end;
    (split; [apply Hhd'|]; split; [reflexivity|];
     split; [rewrite Hhdr; intros hs [<-|[]]; reflexivity|];
     split;
     [intros Hc; right; exists code, d; split; [reflexivity|]; apply (proj1 Hw3 Hc)
     |apply (proj2 Hw3)]).
Qed.

(** C1.  When libcurl has taken the pending headers and the transfer ends
    with a result code, perform returns normally for CURLE_OK, throws
    timeout for CURLE_OPERATION_TIMEDOUT, resolve_error for
    CURLE_COULDNT_RESOLVE_HOST (and not curl_error), connect_error for
    CURLE_COULDNT_CONNECT, and curl_error with the code for every other
    code. *)
Theorem perform_error_mapping (w : world) (h0 h1 : CURL) (code : Z)
    (delivered : list wire) :
  curl_easy_setopt (handle_ (curl w)) CURLOPT_HTTPHEADER
    (VSlist (headers_ (curl w))) = (CURLE_OK, h0) ->
  curl_easy_perform h0 = (code, delivered, h1) ->
  let r := fst (fst (perform w)) in
  (code = CURLE_OK -> r = Returns tt)
  /\ (code = CURLE_OPERATION_TIMEDOUT -> r = Throws timeout)
  /\ (code = CURLE_COULDNT_RESOLVE_HOST ->
      r = Throws resolve_error /\ r <> Throws (curl_error code))
  /\ (code = CURLE_COULDNT_CONNECT -> r = Throws connect_error)
  /\ (code <> CURLE_OK -> code <> CURLE_OPERATION_TIMEDOUT ->
      code <> CURLE_COULDNT_RESOLVE_HOST -> code <> CURLE_COULDNT_CONNECT ->
      r = Throws (curl_error code)).
Proof.
  intros E0 E1. pose proof (perform_run w) as Hrun.
  destruct (perform w) as [[r w'] t]. cbn.
  destruct Hrun as (c0 & h0' & E0' & Hcases).
  rewrite E0 in E0'. injection E0' as <- <-.
  destruct Hcases as [(Hc & _)|(_ & code' & d' & h1' & E1' & -> & _)];
    [discriminate|].
  rewrite E1 in E1'. injection E1' as <- <- <-.
  unfold perform_outcome.
  split; [|split; [|split; [|split]]].
  - intros ->. reflexivity.
  - intros ->. reflexivity.
  - intros ->. split; [reflexivity | discriminate].
  - intros ->. reflexivity.
  - intros H1 H2 H3 H4.
    destruct (Z.eqb_spec CURLE_OK code); [congruence|].
    destruct (Z.eqb_spec CURLE_OPERATION_TIMEDOUT code); [congruence|].
    destruct (Z.eqb_spec CURLE_COULDNT_RESOLVE_HOST code); [congruence|].
    destruct (Z.eqb_spec CURLE_COULDNT_CONNECT code); [congruence|].
    reflexivity.
Qed.

(** The threshold of post.  Whenever post gets as far as running the
    transfer, the body it has handed to libcurl is what gzip returned for
    data, under the header "Content-Encoding: gzip", if data is longer than
    10240 bytes; it is data itself, with no such header line, if data has
    10240 bytes or fewer. *)
Lemma post_compresses_at_threshold (url data : string) (timeout : Z)
    (w : world) (code : Z) (delivered : list wire) :
  In (code, delivered) (performed (snd (post url data timeout w))) ->
  let t := snd (post url data timeout w) in
  ((10240 < size data)%Z ->
     exists z, gzip data = Returns z
               /\ postfields_of t = [z]
               /\ httpheader_of t
                  = [["Accept-encoding: gzip"; "Expect:"; "Content-Encoding: gzip"]])
  /\ ((size data <= 10240)%Z ->
      postfields_of t = [data]
      /\ httpheader_of t = [["Accept-encoding: gzip"; "Expect:"]]
      /\ forall hs, In hs (httpheader_of t) -> ~ In "Content-Encoding: gzip" hs).
Proof.
  pose proof (post_run url data timeout w) as Hrun.
  destruct (post url data timeout w) as [[r w'] t]. cbn [snd].
  cbv beta iota zeta in Hrun. destruct Hrun as (_ & _ & _ & Hperf & _).
  intros Hin. destruct (Hperf code delivered Hin) as (d & Hsent & Hpf & Hhh).
  split.
  - intros Hlt. apply Z.ltb_lt in Hlt. rewrite Hlt in Hsent, Hhh.
    exists d. auto.
  - intros Hle. apply Z.ltb_ge in Hle. rewrite Hle in Hsent, Hhh.
    injection Hsent as <-. rewrite Hhh. split; [exact Hpf|]. split; [reflexivity|].
    intros hs [<-|[]] [E|[E|[]]]; discriminate.
Qed.

Lemma bind_ext {A B : Type} (m : M A) (k1 k2 : A -> M B) (w : world) :
  (forall a w1, k1 a w1 = k2 a w1) -> bind m k1 w = bind m k2 w.
Proof.
  intros E. unfold bind. destruct (m w) as [[[a|e] w1] t1]; [rewrite E|];
    reflexivity.
Qed.

(** Above the threshold post runs the same calls on what gzip returned. *)
Lemma post_above_threshold (url data z : string) (timeout : Z) (w : world) :
  (10240 < size data)%Z -> gzip data = Returns z ->
  post url data timeout w
  = (modify (with_result fresh_response) ;;
     modify (with_out (ostringstream "")) ;;
     prepare_basic url timeout true ;;
     prepare_post z (size z) true ;;
     perform ;;
     read_back) w.
Proof.
  intros Hlt Hgz. rewrite post_unfold. apply Z.ltb_lt in Hlt. rewrite Hlt, Hgz.
  apply bind_ext; intros _ w1. apply bind_ext; intros _ w2.
  apply bind_ext; intros _ w3.
  unfold bind at 1. unfold bind at 1. unfold lift, ret. cbn [fst snd app].
  destruct ((prepare_post z (size z) true ;; perform ;; read_back) w3)
    as [[r4 w4] t4].
  reflexivity.
Qed.

(** C2 fails for a body of 2^32 bytes: it is longer than 10240 bytes, yet the
    body post hands to libcurl, under the header "Content-Encoding: gzip", is
    the gzip member of the empty input, which gunzips to the empty buffer
    and not to data. *)
Theorem post_of_4GiB_sends_the_member_of_nothing (url data : string)
    (timeout : Z) (w : world) (code : Z) (delivered : list wire) :
  size data = 4294967296%Z ->
  deflateInit2 = Z_OK -> inflateInit2 = Z_OK ->
  inflate_stream (deflate_stream "") = Some "" ->
  (size (deflate_stream "") <= uInt (uLong (12 + deflateBound 4294967296)))%Z ->
  In (code, delivered) (performed (snd (post url data timeout w))) ->
  let t := snd (post url data timeout w) in
  (10240 < size data)%Z
  /\ postfields_of t = [deflate_stream ""]
  /\ httpheader_of t
     = [["Accept-encoding: gzip"; "Expect:"; "Content-Encoding: gzip"]]
  /\ gunzip (deflate_stream "") = Returns ""
  /\ (forall d, In d (postfields_of t) -> gunzip d <> Returns data).
Proof.
  intros Hsize Hdi Hii Hdec Hfit.
  pose proof (gzip_4GiB_run data Hsize Hdi Hfit) as Hgz.
  assert (Hgu : gunzip (deflate_stream "") = Returns "").
  { apply gunzip_empty_payload; [exact Hii | | exact Hdec].
    pose proof (uInt_range (uLong (12 + deflateBound 4294967296))). lia. }
  pose proof (post_run url data timeout w) as Hrun.
  destruct (post url data timeout w) as [[r w'] t]. cbn [snd].
  cbv beta iota zeta in Hrun. destruct Hrun as (_ & _ & _ & Hperf & _).
  intros Hin. destruct (Hperf code delivered Hin) as (d & Hsent & Hpf & Hhh).
  assert (Hlt : (10240 <? size data)%Z = true) by (rewrite Hsize; reflexivity).
  rewrite Hlt, Hgz in Hsent. rewrite Hlt in Hhh. injection Hsent as <-.
  split; [rewrite Hsize; reflexivity|].
  split; [exact Hpf|]. split; [exact Hhh|]. split; [exact Hgu|].
  intros d. rewrite Hpf. intros [<-|[]]. rewrite Hgu.
  intros [= E]. rewrite <- E in Hsize. discriminate.
Qed.

(** C5.  process_response replaces the body by its gunzip exactly when the
    header mapping has a content-encoding entry whose value is "gzip" up to
    the case of its letters, and otherwise changes nothing; the response
    that get or post returns has the received headers, and its body is the
    gunzip of the received body when they declare gzip and the received
    body itself when they do not.  When they declare gzip and the received
    body is shorter than 2^32 bytes, that body is a valid gzip stream and
    the body returned is the data it decodes to. *)
Theorem response_gunzipped_iff_declared :
  (forall h : gmap string string,
     declares_gzip h = true
     <-> exists v, h !! "content-encoding" = Some v
                   /\ Str.tolower v = Str.tolower "gzip")
  /\ (forall w,
        process_response w
        = if declares_gzip (headers (result w))
          then match gunzip (body (result w)) with
               | Returns b => (Returns tt, with_result (set_body b (result w)) w, [])
               | Throws e => (Throws e, w, [])
               end
          else (Returns tt, w, []))
  /\ (forall url timeout w resp w' t,
        get url timeout w = (Returns resp, w', t) ->
        exists delivered,
          performed t = [(CURLE_OK, delivered)]
          /\ headers resp = headers (received delivered fresh_response)
          /\ (declares_gzip (headers resp) = true ->
              gunzip (body_of delivered) = Returns (body resp))
          /\ (declares_gzip (headers resp) = false ->
              body resp = body_of delivered))
  /\ (forall url data timeout w resp w' t,
        post url data timeout w = (Returns resp, w', t) ->
        exists delivered,
          performed t = [(CURLE_OK, delivered)]
          /\ headers resp = headers (received delivered fresh_response)
          /\ (declares_gzip (headers resp) = true ->
              gunzip (body_of delivered) = Returns (body resp))
          /\ (declares_gzip (headers resp) = false ->
              body resp = body_of delivered))
  /\ (forall url timeout w resp w' t delivered,
        get url timeout w = (Returns resp, w', t) ->
        In (CURLE_OK, delivered) (performed t) ->
        declares_gzip (headers resp) = true ->
        (size (body_of delivered) < 2 ^ 32)%Z ->
        exists data,
          inflate_stream (body_of delivered) = Some data
          /\ ((size data < 2 ^ 32)%Z -> body resp = data))
  /\ (forall url data timeout w resp w' t delivered,
        post url data timeout w = (Returns resp, w', t) ->
        In (CURLE_OK, delivered) (performed t) ->
        declares_gzip (headers resp) = true ->
        (size (body_of delivered) < 2 ^ 32)%Z ->
        exists payload,
          inflate_stream (body_of delivered) = Some payload
          /\ ((size payload < 2 ^ 32)%Z -> body resp = payload)).
Proof.
  assert (Hdecoded : forall c b, gunzip c = Returns b -> (size c < 2 ^ 32)%Z ->
            exists data, inflate_stream c = Some data
                         /\ ((size data < 2 ^ 32)%Z -> b = data)).
  { intros c b E Hc. destruct (gunzip_returns_valid c b E Hc) as (data & Hd).
    exists data. split; [exact Hd|]. intros Hs.
    exact (gunzip_returns_decoded c b data E Hc Hd Hs). }
  split.
  { intros h. unfold declares_gzip. destruct (h !! "content-encoding") as [v|].
    - rewrite String.eqb_eq. split.
      + intros E. exists v. auto.
      + intros (v' & [= <-] & E). exact E.
    - split; [discriminate|]. intros (v & Hv & _). discriminate. }
  split; [exact process_response_run|].
  split.
  - intros url timeout w resp w' t E.
    pose proof (get_run url timeout w) as Hrun. rewrite E in Hrun.
    destruct Hrun as (_ & _ & _ & Hresp).
    destruct (Hresp resp eq_refl) as (d & Hp & _ & Hrest). exists d. auto.
  - split.
    { intros url data timeout w resp w' t E.
      pose proof (post_run url data timeout w) as Hrun. rewrite E in Hrun.
      cbv beta iota zeta in Hrun. destruct Hrun as (_ & _ & _ & _ & Hresp).
      exact (Hresp resp eq_refl). }
    split.
    + intros url timeout w resp w' t delivered E Hin Hgz Hc.
      pose proof (get_run url timeout w) as Hrun. rewrite E in Hrun.
      destruct Hrun as (_ & _ & _ & Hresp).
      destruct (Hresp resp eq_refl) as (d & Hp & _ & _ & Hyes & _).
      rewrite Hp in Hin. destruct Hin as [[= <-]|[]].
      exact (Hdecoded _ _ (Hyes Hgz) Hc).
    + intros url data timeout w resp w' t delivered E Hin Hgz Hc.
      pose proof (post_run url data timeout w) as Hrun. rewrite E in Hrun.
      cbv beta iota zeta in Hrun. destruct Hrun as (_ & _ & _ & _ & Hresp).
      destruct (Hresp resp eq_refl) as (d & Hp & _ & Hyes & _).
      rewrite Hp in Hin. destruct Hin as [[= <-]|[]].
      exact (Hdecoded _ _ (Hyes Hgz) Hc).
Qed.

(** C7.  download opens the file at localpath with truncation before it
    calls libcurl at all; when the file can be opened, what it holds when
    download returns or throws is the body bytes the transfer delivered, so
    after a failure with nothing delivered, as for a host that cannot be
    reached, it exists and is empty. *)
Theorem download_truncates_before_transfer (url localpath : string) (timeout : Z)
    (w : world) :
  can_open w (Str.c_str localpath) = true ->
  let '(r, w', t) := download url localpath timeout w in
  let path := Str.c_str localpath in
  (exists t', t = ev_open_trunc path :: ev_reset :: t')
  /\ ((performed t = [] /\ files w' !! path = Some "")
      \/ (exists code d, performed t = [(code, d)]
                         /\ files w' !! path = Some (body_of d)))
  /\ (forall e, r = Throws e ->
      (forall code d, In (code, d) (performed t) -> body_of d = "") ->
      files w' !! path = Some "").
Proof.
  intros Hc. pose proof (download_run url localpath timeout w) as Hrun.
  destruct (download url localpath timeout w) as [[r w'] t].
  cbv beta iota zeta in Hrun |- *.
  destruct Hrun as (Hhd & _ & _ & Hfile & _).
  specialize (Hfile Hc).
  split; [exact Hhd|]. split; [exact Hfile|].
  intros e _ Hnone.
  destruct Hfile as [(_ & Hf)|(code & d & Hp & Hf)]; [exact Hf|].
  rewrite Hf. f_equal. apply (Hnone code d). rewrite Hp. left. reflexivity.
Qed.

(** reset leaves no pending header and a handle that libcurl has reset. *)
Lemma reset_run (w : world) :
  reset w
  = (Returns tt,
     with_curl {| handle_ := curl_easy_reset (handle_ (curl w)); headers_ := [] |} w,
     [ev_reset]).
Proof. reflexivity. Qed.

Lemma prepare_basic_unfold (url : string) (timeout : Z) (accept : bool) :
  prepare_basic url timeout accept
  = (reset ;;
     setopt CURLOPT_URL (VString (Str.c_str url)) ;;
     setopt CURLOPT_NOSIGNAL (VLong 1) ;;
     setopt CURLOPT_NOPROGRESS (VLong 1) ;;
     setopt CURLOPT_WRITEFUNCTION VStreamfunc ;;
     setopt CURLOPT_WRITEDATA VOut ;;
     setopt CURLOPT_HEADERFUNCTION VHeaderfunc ;;
     setopt CURLOPT_HEADERDATA VResp ;;
     setopt CURLOPT_COOKIEFILE (VString "") ;;
     setopt CURLOPT_TIMEOUT (VLong (int_as_long timeout)) ;;
     if accept then add_header "Accept-encoding: gzip" else ret tt).
Proof. reflexivity. Qed.

Lemma bind_eq {A B : Type} (m : M A) (k : A -> M B) (w1 w2 : world) :
  m w1 = m w2 -> bind m k w1 = bind m k w2.
Proof. intros E. unfold bind. rewrite E. reflexivity. Qed.

Lemma bind_modify {B : Type} (f : world -> world) (k : unit -> M B) (w : world) :
  bind (modify f) k w = k tt (f w).
Proof.
  unfold bind, modify. destruct (k tt (f w)) as [[r w'] t]. reflexivity.
Qed.

(** What a request sees of the handle it is given is what curl_easy_reset
    makes of it. *)
Lemma prepare_basic_after_reset (url : string) (timeout : Z) (accept : bool)
    (w1 w2 : world) :
  curl_easy_reset (handle_ (curl w1)) = curl_easy_reset (handle_ (curl w2)) ->
  result w1 = result w2 -> out w1 = out w2 ->
  files w1 = files w2 -> can_open w1 = can_open w2 ->
  prepare_basic url timeout accept w1 = prepare_basic url timeout accept w2.
Proof.
  intros Hreset Hres Hout Hfiles Hcan.
  rewrite prepare_basic_unfold. apply bind_eq.
  rewrite !reset_run. unfold with_curl.
  rewrite Hreset, Hres, Hout, Hfiles, Hcan. reflexivity.
Qed.

Lemma get_after_reset (url : string) (timeout : Z) (w1 w2 : world) :
  curl_easy_reset (handle_ (curl w1)) = curl_easy_reset (handle_ (curl w2)) ->
  files w1 = files w2 -> can_open w1 = can_open w2 ->
  get url timeout w1 = get url timeout w2.
Proof.
  intros Hreset Hfiles Hcan. rewrite get_unfold, !bind_modify.
  apply bind_eq, prepare_basic_after_reset; auto.
Qed.

Lemma post_after_reset (url data : string) (timeout : Z) (w1 w2 : world) :
  curl_easy_reset (handle_ (curl w1)) = curl_easy_reset (handle_ (curl w2)) ->
  files w1 = files w2 -> can_open w1 = can_open w2 ->
  post url data timeout w1 = post url data timeout w2.
Proof.
  intros Hreset Hfiles Hcan. rewrite post_unfold, !bind_modify.
  apply bind_eq, prepare_basic_after_reset; auto.
Qed.

Lemma bind_returns {A B : Type} (m : M A) (k : A -> M B) (w w1 : world)
    (a : A) (t1 : list event) :
  m w = (Returns a, w1, t1) ->
  bind m k w = (let '(r, w2, t2) := k a w1 in (r, w2, t1 ++ t2)).
Proof. intros E. unfold bind. rewrite E. reflexivity. Qed.

Lemma open_trunc_run (path : string) (w : world) :
  open_trunc path w
  = (Returns tt,
     (if can_open w path
      then with_out (ofstream path true) (with_files (<[path := ""]> (files w)) w)
      else with_out (ofstream path false) w),
     [ev_open_trunc path]).
Proof. reflexivity. Qed.

Lemma download_after_reset (url localpath : string) (timeout : Z) (w1 w2 : world) :
  curl_easy_reset (handle_ (curl w1)) = curl_easy_reset (handle_ (curl w2)) ->
  files w1 = files w2 -> can_open w1 = can_open w2 ->
  download url localpath timeout w1 = download url localpath timeout w2.
Proof.
  intros Hreset Hfiles Hcan. unfold download. rewrite !bind_modify.
  rewrite !(bind_returns _ _ _ _ _ _ (open_trunc_run _ _)).
  cbn [can_open files with_result]. rewrite Hfiles, Hcan.
  match goal with
  | |- match ?a with _ => _ end = match ?b with _ => _ end =>
      replace a with b; [reflexivity|]
  end.
  apply bind_eq, prepare_basic_after_reset;
    destruct (can_open w2 (Str.c_str localpath)); auto.
Qed.

(** C6.  Every request begins with reset, which empties the pending header
    list and has libcurl reset the handle, before any option is set.  So
    from any world, in particular the one an earlier request on the same
    handle left, the header lists a request hands to libcurl hold the lines
    that request added itself and no other, and two handles that
    curl_easy_reset takes to the same state (libcurl documents that it
    restores every option and keeps the cookies) behave the same in every
    request. *)
Theorem requests_start_from_reset :
  (forall w,
     reset w
     = (Returns tt,
        with_curl {| handle_ := curl_easy_reset (handle_ (curl w));
                     headers_ := [] |} w,
        [ev_reset]))
  /\ (forall url timeout w,
        (exists t', snd (get url timeout w) = ev_reset :: t')
        /\ forall hs, In hs (httpheader_of (snd (get url timeout w))) ->
                      hs = ["Accept-encoding: gzip"])
  /\ (forall url data timeout w,
        (exists t', snd (post url data timeout w) = ev_reset :: t')
        /\ forall hs, In hs (httpheader_of (snd (post url data timeout w))) ->
                      hs = ["Accept-encoding: gzip"; "Expect:"]
                           ++ (if (10240 <? size data)%Z
                               then ["Content-Encoding: gzip"] else []))
  /\ (forall url localpath timeout w,
        (exists t', curl_calls (snd (download url localpath timeout w))
                    = ev_reset :: t')
        /\ forall hs, In hs (httpheader_of (snd (download url localpath timeout w))) ->
                      hs = [])
  /\ (forall w1 w2,
        curl_easy_reset (handle_ (curl w1)) = curl_easy_reset (handle_ (curl w2)) ->
        files w1 = files w2 -> can_open w1 = can_open w2 ->
        (forall url timeout, get url timeout w1 = get url timeout w2)
        /\ (forall url data timeout, post url data timeout w1 = post url data timeout w2)
        /\ (forall url localpath timeout,
              download url localpath timeout w1 = download url localpath timeout w2)).
Proof.
  split; [exact reset_run|].
  split.
  { intros url timeout w. pose proof (get_run url timeout w) as Hrun.
    destruct (get url timeout w) as [[r w'] t]. cbn [snd].
    destruct Hrun as (Hhd & _ & Hhh & _). auto. }
  split.
  { intros url data timeout w. pose proof (post_run url data timeout w) as Hrun.
    destruct (post url data timeout w) as [[r w'] t]. cbn [snd].
    cbv beta iota zeta in Hrun. destruct Hrun as (Hhd & _ & Hhh & _). auto. }
  split.
  { intros url localpath timeout w.
    pose proof (download_run url localpath timeout w) as Hrun.
    destruct (download url localpath timeout w) as [[r w'] t]. cbn [snd].
    cbv beta iota zeta in Hrun. destruct Hrun as ((t' & ->) & _ & Hhh & _).
    split; [|exact Hhh]. eexists. reflexivity. }
  intros w1 w2 Hreset Hfiles Hcan.
  split; [|split]; intros.
  - apply get_after_reset; assumption.
  - apply post_after_reset; assumption.
  - apply download_after_reset; assumption.
Qed.

(** ** The cookie replay of the client *)

Lemma lines_getline (s : string) :
  lines s
  = let '(line, ss) := getline_from s in
    if eofbit ss then [line] else line :: lines (rdbuf ss).
Proof.
  induction s as [|c s IH]; [reflexivity|].
  cbn [lines getline_from].
  destruct (Ascii.eqb c "010"); [reflexivity|].
  rewrite IH. destruct (getline_from s) as [line ss].
  destruct (eofbit ss); reflexivity.
Qed.

Lemma lines_length (s : string) :
  length (lines s) = S (count_char "010" s).
Proof.
  induction s as [|c s IH]; [reflexivity|].
  cbn [lines count_char].
  destruct (Ascii.eqb c "010").
  - cbn [length]. rewrite IH. reflexivity.
  - destruct (lines s) as [|l ls]; [discriminate|]. exact IH.
Qed.

Lemma count_char_le (c : ascii) (s : string) : count_char c s <= String.length s.
Proof.
  induction s as [|d s IH]; [reflexivity|].
  cbn [count_char String.length]. destruct (Ascii.eqb d c); lia.
Qed.



End PipelineProps.

(** On the simulated library a transfer to a host that does not resolve
    ends in resolve_error. *)
Lemma perform_error_mapping_witness :
  fst (fst (perform (H := Sim.SimCurl) Sim.world0)) = Throws resolve_error.
Proof.
  exact (proj1 (proj1 (proj2 (proj2
           (perform_error_mapping (H := Sim.SimCurl) Sim.world0
              _ _ CURLE_COULDNT_RESOLVE_HOST _ eq_refl eq_refl))) eq_refl)).
Defined.

(** A body of 10241 bytes is sent gzipped, with the header that says so. *)
Lemma post_compresses_at_threshold_example :
  (10240 < size Sim.big_body)%Z
  /\ exists z,
       gzip (H := Sim.StoredZlib) Sim.big_body = Returns z
       /\ postfields_of
            (snd (post (H := Sim.SimCurl) (H0 := Sim.StoredZlib)
                    "http://example.com/" Sim.big_body 30%Z Sim.world0)) = [z]
       /\ httpheader_of
            (snd (post (H := Sim.SimCurl) (H0 := Sim.StoredZlib)
                    "http://example.com/" Sim.big_body 30%Z Sim.world0))
          = [["Accept-encoding: gzip"; "Expect:"; "Content-Encoding: gzip"]].
Proof.
  assert (Hsize : (10240 < size Sim.big_body)%Z) by (vm_compute; reflexivity).
  split; [exact Hsize|].
  refine (proj1 (post_compresses_at_threshold (H := Sim.SimCurl)
                   (H0 := Sim.StoredZlib) "http://example.com/" Sim.big_body 30%Z
                   Sim.world0 CURLE_OK
                   [HeaderLine "HTTP/1.1 200 OK";
                    HeaderLine "Content-Type: text/plain";
                    BodyChunk "hello"] _) Hsize).
  vm_compute. left. reflexivity.
Defined.

(** A handle with options, pending headers and a cookie left on it and a
    handle with the cookie alone run the same get. *)
Lemma requests_start_from_reset_witness :
  get (H := Sim.SimCurl) (H0 := Sim.StoredZlib) "http://example.com/" 30%Z Sim.used_world
  = get (H := Sim.SimCurl) (H0 := Sim.StoredZlib) "http://example.com/" 30%Z Sim.clean_world.
Proof.
  exact (proj1 (proj2 (proj2 (proj2 (proj2
           (requests_start_from_reset (H := Sim.SimCurl) (H0 := Sim.StoredZlib)))))
           Sim.used_world Sim.clean_world eq_refl eq_refl eq_refl)
           "http://example.com/" 30%Z).
Defined.

(** A download from a host that does not resolve throws and leaves the
    file created and empty. *)
Lemma download_truncates_before_transfer_witness :
  fst (fst (download (H := Sim.SimCurl) "http://nowhere/" "/tmp/x" 30%Z Sim.world0))
  = Throws resolve_error
  /\ files (snd (fst (download (H := Sim.SimCurl) "http://nowhere/" "/tmp/x" 30%Z
                        Sim.world0))) !! "/tmp/x" = Some "".
Proof.
  split; [vm_compute; reflexivity|].
  generalize (download_truncates_before_transfer (H := Sim.SimCurl)
                "http://nowhere/" "/tmp/x" 30%Z Sim.world0 eq_refl).
  destruct (download (H := Sim.SimCurl) "http://nowhere/" "/tmp/x" 30%Z Sim.world0)
    as [[r w'] t] eqn:E.
  assert (Hr : r = Throws resolve_error /\ performed t = [(CURLE_COULDNT_RESOLVE_HOST, [])]).
  { vm_compute in E. injection E as <- _ <-. split; reflexivity. }
  destruct Hr as (Hr & Hp).
  cbv beta iota zeta. intros (_ & _ & Hempty). cbn [fst snd].
  apply (Hempty resolve_error Hr). rewrite Hp.
  intros code d [[= <- <-]|[]]. reflexivity.
Defined.




Lemma four_gib_size : size Sim.four_gib = 4294967296%Z.
Proof.
  unfold Sim.four_gib.
  rewrite size_of_bytes, repeat_length. apply Z2Nat.id. discriminate.
Qed.

(** On the stored codec, a buffer of 2^32 bytes comes back empty. *)
Lemma gzip_of_4GiB_loses_the_data_witness :
  gunzip_gzip (H := Sim.StoredZlib) Sim.four_gib = Returns ""
  /\ gunzip_gzip (H := Sim.StoredZlib) Sim.four_gib <> Returns Sim.four_gib.
Proof.
  exact (proj2 (gzip_of_4GiB_loses_the_data (H := Sim.StoredZlib) Sim.four_gib
                  four_gib_size eq_refl eq_refl eq_refl
                  ltac:(vm_compute; discriminate))).
Defined.

(** On the simulated library and the stored codec, post of a body of 2^32
    bytes runs the transfer, and what it has handed over is the two magic
    bytes alone under "Content-Encoding: gzip". *)
Lemma post_of_4GiB_sends_the_member_of_nothing_witness :
  postfields_of
    (snd (post (H := Sim.SimCurl) (H0 := Sim.StoredZlib)
            "http://example.com/" Sim.four_gib 30%Z Sim.world0)) = [Sim.magic]
  /\ httpheader_of
       (snd (post (H := Sim.SimCurl) (H0 := Sim.StoredZlib)
               "http://example.com/" Sim.four_gib 30%Z Sim.world0))
     = [["Accept-encoding: gzip"; "Expect:"; "Content-Encoding: gzip"]]
  /\ gunzip (H := Sim.StoredZlib) Sim.magic = Returns "".
Proof.
  assert (Hfit : (size (deflate_stream (Zlib := Sim.StoredZlib) "")
                  <= uInt (uLong (12 + deflateBound (Zlib := Sim.StoredZlib)
                                         4294967296)))%Z)
    by (vm_compute; discriminate).
  assert (Hin : In (CURLE_OK,
                    [HeaderLine "HTTP/1.1 200 OK";
                     HeaderLine "Content-Type: text/plain";
                     BodyChunk "hello"])
                  (performed
                     (snd (post (H := Sim.SimCurl) (H0 := Sim.StoredZlib)
                             "http://example.com/" Sim.four_gib 30%Z
                             Sim.world0)))).
  { rewrite (post_above_threshold (H := Sim.SimCurl) (H0 := Sim.StoredZlib)
               "http://example.com/" Sim.four_gib Sim.magic 30%Z Sim.world0).
    - vm_compute. left. reflexivity.
    - rewrite four_gib_size. reflexivity.
    - exact (gzip_4GiB_run (H := Sim.StoredZlib) Sim.four_gib four_gib_size
               eq_refl Hfit). }
  destruct (post_of_4GiB_sends_the_member_of_nothing (H := Sim.SimCurl)
              (H0 := Sim.StoredZlib) "http://example.com/" Sim.four_gib 30%Z
              Sim.world0 CURLE_OK _ four_gib_size eq_refl eq_refl eq_refl
              Hfit Hin) as (_ & Hpf & Hhh & Hgu & _).
  split; [exact Hpf|]. split; [exact Hhh|]. exact Hgu.
Defined.

(** On the simulated library the gzip page is received as the stored member
    of "hello" under a header that declares gzip, and get returns "hello". *)
Lemma response_gunzipped_iff_declared_witness :
  match get (H := Sim.SimCurl) (H0 := Sim.StoredZlib)
          "http://example.com/gz" 30%Z Sim.world0 with
  | (Returns resp, _, _) => body resp = "hello"
  | (Throws _, _, _) => False
  end.
Proof.
  destruct (get (H := Sim.SimCurl) (H0 := Sim.StoredZlib)
              "http://example.com/gz" 30%Z Sim.world0)
    as [[[resp|e] w'] t] eqn:E.
  - destruct (proj1 (proj2 (proj2 (proj2 (proj2
                (response_gunzipped_iff_declared (H := Sim.SimCurl)
                   (H0 := Sim.StoredZlib))))))
                "http://example.com/gz" 30%Z Sim.world0 resp w' t
                [HeaderLine "HTTP/1.1 200 OK";
                 HeaderLine "Content-Encoding: GZip";
                 BodyChunk Sim.magic; BodyChunk "hello"] E)
      as (data & Hdec & Hbody).
    + vm_compute in E. injection E as _ _ <-. vm_compute. left. reflexivity.
    + vm_compute in E. injection E as <- _ _. reflexivity.
    + vm_compute. reflexivity.
    + vm_compute in Hdec. injection Hdec as <-. apply Hbody.
      vm_compute. reflexivity.
  - vm_compute in E. discriminate.
Defined.

(** On the simulated library the response of the gzip page comes back
    decoded, and the response of the plain page as it was sent. *)
Example get_gunzips_declared_body :
  match fst (fst (get (H := Sim.SimCurl) (H0 := Sim.StoredZlib)
                    "http://example.com/gz" 30%Z Sim.world0)) with
  | Returns resp => body resp = "hello" /\ status resp = 200%Z
  | Throws _ => False
  end
  /\ match fst (fst (get (H := Sim.SimCurl) (H0 := Sim.StoredZlib)
                       "http://example.com/" 30%Z Sim.world0)) with
     | Returns resp => body resp = "hello" /\ status resp = 200%Z
     | Throws _ => False
     end.
Proof. split; vm_compute; split; reflexivity. Qed.

(** * Further properties *)

(** ** The trimming and case helpers *)

Lemma all_append (p : ascii -> bool) (a b : string) :
  Str.all p (a +:+ b) = (Str.all p a && Str.all p b)%bool.
Proof.
  induction a as [|c a IH]; simpl; [reflexivity|].
  rewrite IH. apply andb_assoc.
Qed.

Lemma rtrim_all_space (s : string) :
  Str.rtrim s = "" <-> Str.all Str.isspace s = true.
Proof.
  induction s as [|c s IH]; simpl; [tauto|].
  destruct (Str.rtrim s) as [|d t] eqn:E.
  - destruct (Str.isspace c); simpl.
    + rewrite <- IH. tauto.
    + split; discriminate.
  - split; [discriminate|]. intros Ha. apply andb_true_iff in Ha as [_ Ha].
    apply IH in Ha. discriminate.
Qed.

Lemma ltrim_fixed (s : string) :
  (forall c, Str.first_char s = Some c -> Str.isspace c = false) -> Str.ltrim s = s.
Proof.
  destruct s as [|c s]; simpl; [reflexivity|].
  intros Hc. rewrite (Hc c eq_refl). reflexivity.
Qed.

Lemma rtrim_fixed (s : string) :
  (forall c, Str.last_char s = Some c -> Str.isspace c = false) -> Str.rtrim s = s.
Proof.
  induction s as [|c s IH]; [reflexivity|].
  destruct s as [|d s].
  - simpl. intros Hc. rewrite (Hc c eq_refl). reflexivity.
  - intros Hc. change (Str.rtrim (String c (String d s)))
      with (match Str.rtrim (String d s) with
            | "" => if Str.isspace c then "" else String c ""
            | r => String c r
            end).
    rewrite IH; [reflexivity|]. exact Hc.
Qed.

Lemma ltrim_rtrim_commute (s : string) :
  Str.ltrim (Str.rtrim s) = Str.rtrim (Str.ltrim s).
Proof.
  induction s as [|c s IH]; [reflexivity|].
  cbn [Str.rtrim Str.ltrim].
  destruct (Str.isspace c) eqn:Hc.
  - destruct (Str.rtrim s) as [|d t] eqn:E.
    + rewrite <- IH. reflexivity.
    + rewrite <- IH. cbn [Str.ltrim]. rewrite Hc. reflexivity.
  - cbn [Str.rtrim].
    destruct (Str.rtrim s) as [|d t]; cbn [Str.ltrim]; rewrite Hc; reflexivity.
Qed.

Lemma trim_fixed (s : string) : Str.trim (Str.trim s) = Str.trim s.
Proof.
  destruct (trim_spec s) as (_ & Hf & Hl).
  unfold Str.trim at 1. rewrite (rtrim_fixed _ Hl). apply ltrim_fixed. exact Hf.
Qed.

(** X1.  trim is idempotent, it returns the empty string exactly for a
    string of spaces only (the empty one included), and it does not matter
    which end is trimmed first. *)
Theorem trim_is_idempotent :
  (forall s, Str.trim (Str.trim s) = Str.trim s)
  /\ (forall s, Str.trim s = "" <-> Str.all Str.isspace s = true)
  /\ (forall s, Str.ltrim (Str.rtrim s) = Str.rtrim (Str.ltrim s)).
Proof.
  split; [exact trim_fixed|]. split; [|exact ltrim_rtrim_commute].
  intros s. split.
  - intros E. destruct (trim_spec s) as ((l & r & Hs & Hl & Hr) & _).
    rewrite E in Hs. rewrite Hs, all_append, Hl. simpl. exact Hr.
  - intros Ha. unfold Str.trim. apply rtrim_all_space in Ha. rewrite Ha. reflexivity.
Qed.

Lemma tolower_char_fixed (c : ascii) :
  Str.tolower_char (Str.tolower_char c) = Str.tolower_char c
  /\ isupper (Str.tolower_char c) = false
  /\ (isupper c = false -> Str.tolower_char c = c)
  /\ (Str.tolower_char c = c -> isupper c = false)
  /\ Ascii.eqb (Str.tolower_char c) ":" = Ascii.eqb c ":".
Proof.
  destruct c as [[] [] [] [] [] [] [] []];
    (split; [reflexivity|]; split; [reflexivity|];
     split; [intros E; first [reflexivity | discriminate E]|];
     split; [intros E; first [reflexivity | discriminate E]|]; reflexivity).
Qed.

Lemma tolower_fixed (s : string) : Str.tolower (Str.tolower s) = Str.tolower s.
Proof.
  induction s as [|c s IH]; cbn [Str.tolower]; [reflexivity|].
  rewrite IH. f_equal. exact (proj1 (tolower_char_fixed c)).
Qed.

Lemma tolower_mem_colon (s : string) :
  Str.mem ":" (Str.tolower s) = Str.mem ":" s.
Proof.
  induction s as [|c s IH]; cbn [Str.tolower Str.mem]; [reflexivity|].
  rewrite IH. f_equal. exact (proj2 (proj2 (proj2 (proj2 (tolower_char_fixed c))))).
Qed.

(** X2.  tolower keeps the length, is idempotent, leaves no upper-case
    letter, and changes a string exactly when it has one. *)
Theorem tolower_is_a_normal_form :
  (forall s, String.length (Str.tolower s) = String.length s)
  /\ (forall s, Str.tolower (Str.tolower s) = Str.tolower s)
  /\ (forall s, Str.all (fun c => negb (isupper c)) (Str.tolower s) = true)
  /\ (forall s, Str.tolower s = s <-> Str.all (fun c => negb (isupper c)) s = true).
Proof.
  split; [|split; [exact tolower_fixed|split]].
  - induction s as [|c s IH]; simpl; [reflexivity | now rewrite IH].
  - induction s as [|c s IH]; simpl; [reflexivity|].
    rewrite IH. destruct (tolower_char_fixed c) as (_ & -> & _). reflexivity.
  - induction s as [|c s IH]; simpl; [tauto|].
    destruct (tolower_char_fixed c) as (_ & _ & Hk & Hu & _).
    split.
    + intros [= Ec Es]. rewrite (Hu Ec). simpl. apply IH. exact Es.
    + intros Ha. apply andb_true_iff in Ha as [Hc Ha].
      apply negb_true_iff in Hc. rewrite (Hk Hc). f_equal. apply IH. exact Ha.
Qed.

(** ** The header mapping *)

Lemma headerfunc_frame (line : string) (resp : httpresponse) :
  status (headerfunc line resp) = status resp
  /\ body (headerfunc line resp) = body resp.
Proof.
  unfold headerfunc. destruct (Str.find ":" line); split; reflexivity.
Qed.

Lemma headerfunc_canonical (line : string) (resp : httpresponse) :
  canonical_headers (headers resp) ->
  canonical_headers (headers (headerfunc line resp)).
Proof.
  intros Hc. destruct (Str.mem ":" line) eqn:Hm.
  - destruct (mem_split ":" line Hm) as (name & rest & -> & Hn).
    rewrite (headerfunc_colon _ _ _ Hn). cbn [headers set_headers].
    intros k v Hk. destruct (decide (k = Str.tolower name)) as [->|Hne].
    + rewrite lookup_insert_eq in Hk. injection Hk as <-.
      split; [apply tolower_fixed|]. split; [|apply trim_fixed].
      rewrite tolower_mem_colon. exact Hn.
    + rewrite lookup_insert_ne in Hk by congruence. exact (Hc k v Hk).
  - rewrite (headerfunc_no_colon _ _ Hm). exact Hc.
Qed.

Lemma received_canonical (d : list wire) (resp : httpresponse) :
  canonical_headers (headers resp) ->
  canonical_headers (headers (received d resp)).
Proof.
  unfold received. revert resp.
  induction d as [|[line|chunk] d IH]; intros resp Hc; cbn [fold_left].
  - exact Hc.
  - apply IH. apply headerfunc_canonical. exact Hc.
  - apply IH. exact Hc.
Qed.

Section HeaderProps.
Context `{LibCurl} `{Zlib}.

(** X3.  headerfunc keeps the header mapping canonical (names in lower
    case and free of ':', values trimmed) and never touches the status or
    the body; so the headers of every response that get or post returns
    are canonical, whatever the server sent. *)
Theorem headers_stay_canonical :
  (forall line resp,
     canonical_headers (headers resp) ->
     canonical_headers (headers (headerfunc line resp)))
  /\ (forall line resp,
        status (headerfunc line resp) = status resp
        /\ body (headerfunc line resp) = body resp)
  /\ (forall url timeout w resp,
        fst (fst (get url timeout w)) = Returns resp ->
        canonical_headers (headers resp))
  /\ (forall url data timeout w resp,
        fst (fst (post url data timeout w)) = Returns resp ->
        canonical_headers (headers resp)).
Proof.
  assert (Hfresh : canonical_headers (headers fresh_response)).
  { intros k v Hk. cbn in Hk. rewrite lookup_empty in Hk. discriminate. }
  split; [exact headerfunc_canonical|]. split; [exact headerfunc_frame|]. split.
  - intros url timeout w resp Hr. pose proof (get_run url timeout w) as Hrun.
    destruct (get url timeout w) as [[r w'] t]. cbn [fst] in Hr.
    destruct Hrun as (_ & _ & _ & Hresp).
    destruct (Hresp resp Hr) as (d & _ & _ & -> & _).
    apply received_canonical. exact Hfresh.
  - intros url data timeout w resp Hr. pose proof (post_run url data timeout w) as Hrun.
    destruct (post url data timeout w) as [[r w'] t]. cbn [fst] in Hr.
    cbv beta iota zeta in Hrun. destruct Hrun as (_ & _ & _ & _ & Hresp).
    destruct (Hresp resp Hr) as (d & _ & -> & _).
    apply received_canonical. exact Hfresh.
Qed.

(** X4.  A header line whose name is content-encoding in any mix of cases
    switches the decoding on exactly when its value, trimmed and
    lower-cased, is "gzip": process_response, run after the header callback
    has seen the line, gunzips the body in that case and only then. *)
Theorem content_encoding_is_matched_loosely (name value : string) (w : world) :
  Str.mem ":" name = false ->
  Str.tolower name = "content-encoding" ->
  let w1 := callback w (HeaderLine (name +:+ String ":" value)) in
  process_response w1
  = if String.eqb (Str.tolower (Str.trim value)) "gzip"
    then match gunzip (body (result w)) with
         | Returns b => (Returns tt, with_result (set_body b (result w1)) w1, [])
         | Throws e => (Throws e, w1, [])
         end
    else (Returns tt, w1, []).
Proof.
  intros Hn Hname w1. rewrite process_response_run.
  assert (Hres : result w1 = set_headers
                   (<[Str.tolower name := Str.trim value]> (headers (result w)))
                   (result w)).
  { subst w1. cbn [callback result with_result]. apply headerfunc_colon. exact Hn. }
  rewrite Hres. cbn [headers set_headers body].
  unfold declares_gzip. rewrite Hname, lookup_insert_eq.
  reflexivity.
Qed.

End HeaderProps.

(** A name in capitals and a value in mixed case with spaces around it
    switch the decoding on. *)
Lemma content_encoding_is_matched_loosely_witness :
  fst (fst (process_response (H := Sim.SimCurl) (H0 := Sim.StoredZlib)
              (callback
                 (with_result (set_body (Sim.magic +:+ "hello") fresh_response)
                    Sim.world0)
                 (HeaderLine ("CONTENT-ENCODING"
                              +:+ String ":" ("  GZip "
                              +:+ String "013" (String "010" "")))))))
  = Returns tt
  /\ body (result (snd (fst (process_response (H := Sim.SimCurl) (H0 := Sim.StoredZlib)
              (callback
                 (with_result (set_body (Sim.magic +:+ "hello") fresh_response)
                    Sim.world0)
                 (HeaderLine ("CONTENT-ENCODING"
                              +:+ String ":" ("  GZip "
                              +:+ String "013" (String "010" "")))))))))
    = "hello".
Proof.
  rewrite (content_encoding_is_matched_loosely (H := Sim.SimCurl) (H0 := Sim.StoredZlib)
             "CONTENT-ENCODING" ("  GZip " +:+ String "013" (String "010" ""))
             (with_result (set_body (Sim.magic +:+ "hello") fresh_response) Sim.world0)
             eq_refl eq_refl).
  split; vm_compute; reflexivity.
Defined.

(** ** What the serializer writes *)

Lemma escape_byte_safe (c : ascii) :
  Str.all escaped_byte (percent_encode (String c "")) = true.
Proof. destruct c as [[] [] [] [] [] [] [] []]; reflexivity. Qed.

Lemma escape_safe (s : string) : Str.all escaped_byte (percent_encode s) = true.
Proof.
  induction s as [|c s IH]; [reflexivity|].
  rewrite escape_cons, all_append, escape_byte_safe, IH. reflexivity.
Qed.

Lemma all_weaken (p q : ascii -> bool) (s : string) :
  (forall c, p c = true -> q c = true) -> Str.all p s = true -> Str.all q s = true.
Proof.
  intros Hpq. induction s as [|c s IH]; simpl; [reflexivity|].
  intros Ha. apply andb_true_iff in Ha as [Hc Ha].
  rewrite (Hpq c Hc), (IH Ha). reflexivity.
Qed.

Lemma all_count_zero (p : ascii -> bool) (c : ascii) (s : string) :
  p c = false -> Str.all p s = true -> count_char c s = 0.
Proof.
  intros Hc. induction s as [|d s IH]; simpl; [reflexivity|].
  intros Ha. apply andb_true_iff in Ha as [Hd Ha]. rewrite (IH Ha).
  destruct (Ascii.eqb_spec d c) as [->|_]; [congruence | reflexivity].
Qed.

Lemma escaped_is_url_safe (c : ascii) : escaped_byte c = true -> url_safe c = true.
Proof. unfold url_safe. intros ->. reflexivity. Qed.

Lemma pair_text_safe (it : string * string) : Str.all url_safe (pair_text it) = true.
Proof.
  unfold pair_text. rewrite !all_append.
  rewrite !(all_weaken _ _ _ escaped_is_url_safe (escape_safe _)). reflexivity.
Qed.

Lemma wire_pair_safe (it : string * string) : Str.all url_safe (wire_pair it) = true.
Proof.
  unfold wire_pair. rewrite !all_append.
  rewrite !(all_weaken _ _ _ escaped_is_url_safe (escape_safe _)). reflexivity.
Qed.

Lemma wire_join_safe (params : httpparams) :
  Str.all url_safe (String.concat "&" (map wire_pair params)) = true.
Proof.
  destruct params as [|it params]; [reflexivity|].
  rewrite concat_amp_map, all_append, wire_pair_safe. cbn [andb].
  induction params as [|it' params IH]; [reflexivity|].
  cbn [fold_right]. rewrite !all_append, wire_pair_safe, IH. reflexivity.
Qed.

Lemma split_at_byte (c : ascii) (a1 : string) :
  forall a2 t1 t2 : string,
    count_char c a1 = 0 -> count_char c a2 = 0 ->
    (t1 = "" \/ exists u, t1 = String c u) ->
    (t2 = "" \/ exists u, t2 = String c u) ->
    a1 +:+ t1 = a2 +:+ t2 -> a1 = a2 /\ t1 = t2.
Proof.
  induction a1 as [|x a1 IH]; intros a2 t1 t2 H1 H2 Ht1 Ht2 E.
  - destruct a2 as [|y a2]; [split; [reflexivity | exact E]|].
    cbn in E. exfalso. destruct Ht1 as [->|(u & ->)]; [discriminate|].
    injection E as <- _. cbn in H2. rewrite Ascii.eqb_refl in H2. discriminate.
  - destruct a2 as [|y a2].
    + cbn in E. exfalso. destruct Ht2 as [->|(u & ->)]; [discriminate|].
      injection E as -> _. cbn in H1. rewrite Ascii.eqb_refl in H1. discriminate.
    + cbn in E. injection E as <- E. cbn in H1, H2.
      destruct (Ascii.eqb x c); [discriminate|].
      destruct (IH a2 t1 t2 H1 H2 Ht1 Ht2 E) as (-> & ->). split; reflexivity.
Qed.

Lemma hex_digit_inj (a b : nat) :
  a < 16 -> b < 16 -> hex_digit a = hex_digit b -> a = b.
Proof.
  intros Ha Hb.
  do 16 (destruct a as [|a]; [do 16 (destruct b as [|b]; [first [reflexivity | discriminate]|]); lia|]).
  lia.
Qed.

Lemma escape_byte_inj (c1 c2 : ascii) :
  hex_digit (nat_of_ascii c1 / 16) = hex_digit (nat_of_ascii c2 / 16) ->
  hex_digit (nat_of_ascii c1 mod 16) = hex_digit (nat_of_ascii c2 mod 16) ->
  c1 = c2.
Proof.
  intros Hq Hr.
  pose proof (nat_ascii_bounded c1) as B1. pose proof (nat_ascii_bounded c2) as B2.
  apply hex_digit_inj in Hq;
    [|apply Nat.Div0.div_lt_upper_bound; lia|apply Nat.Div0.div_lt_upper_bound; lia].
  apply hex_digit_inj in Hr; [|apply Nat.mod_upper_bound; lia|apply Nat.mod_upper_bound; lia].
  rewrite <- (ascii_nat_embedding c1), <- (ascii_nat_embedding c2). f_equal.
  rewrite (Nat.div_mod_eq (nat_of_ascii c1) 16), (Nat.div_mod_eq (nat_of_ascii c2) 16).
  rewrite Hq, Hr. reflexivity.
Qed.

Lemma escape_inj (s1 : string) :
  forall s2, percent_encode s1 = percent_encode s2 -> s1 = s2.
Proof.
  induction s1 as [|c1 s1 IH]; intros [|c2 s2] E.
  - reflexivity.
  - cbn in E. destruct (is_unreserved c2); discriminate.
  - cbn in E. destruct (is_unreserved c1); discriminate.
  - cbn [percent_encode] in E.
    destruct (is_unreserved c1) eqn:U1, (is_unreserved c2) eqn:U2.
    + injection E as <- E. f_equal. apply IH. exact E.
    + injection E as -> _. discriminate.
    + injection E as <- _. discriminate.
    + injection E as Eq Er E. rewrite (escape_byte_inj c1 c2 Eq Er).
      f_equal. apply IH. exact E.
Qed.

Lemma pair_text_inj (it1 it2 : string * string) :
  pair_text it1 = pair_text it2 -> it1 = it2.
Proof.
  destruct it1 as [k1 v1], it2 as [k2 v2]. unfold pair_text. cbn [fst snd].
  intros E.
  destruct (split_at_byte "=" (percent_encode k1) (percent_encode k2)
              ("=" +:+ percent_encode v1) ("=" +:+ percent_encode v2)) as (Ek & Ev).
  - apply (all_count_zero escaped_byte); [reflexivity | apply escape_safe].
  - apply (all_count_zero escaped_byte); [reflexivity | apply escape_safe].
  - right. eexists. reflexivity.
  - right. eexists. reflexivity.
  - exact E.
  - cbn in Ev. injection Ev as Ev.
    rewrite (escape_inj _ _ Ek), (escape_inj _ _ Ev). reflexivity.
Qed.

Lemma serialize_rest_shape (p : httpparams) :
  fold_right (fun it acc => "&" +:+ pair_text it +:+ acc) "" p = ""
  \/ exists u, fold_right (fun it acc => "&" +:+ pair_text it +:+ acc) "" p
               = String "&" u.
Proof. destruct p; [left | right; eexists]; reflexivity. Qed.

Lemma serialize_rest_inj (p1 : httpparams) :
  forall p2 : httpparams,
    fold_right (fun it acc => "&" +:+ pair_text it +:+ acc) "" p1
    = fold_right (fun it acc => "&" +:+ pair_text it +:+ acc) "" p2 ->
    p1 = p2.
Proof.
  induction p1 as [|it1 p1 IH]; intros [|it2 p2] E;
    [reflexivity | discriminate | discriminate |].
  cbn [fold_right] in E. cbn in E. injection E as E.
  destruct (split_at_byte "&" (pair_text it1) (pair_text it2) _ _
              (pair_text_no_amp it1) (pair_text_no_amp it2)
              (serialize_rest_shape p1) (serialize_rest_shape p2) E) as (Ep & Er).
  rewrite (pair_text_inj _ _ Ep), (IH _ Er). reflexivity.
Qed.

(** The join of the encoded pairs determines the pairs. *)
Lemma serialize_spec_inj (m1 m2 : httpparams) :
  serialize_spec m1 = serialize_spec m2 -> m1 = m2.
Proof.
  unfold serialize_spec. destruct m1 as [|it1 p1], m2 as [|it2 p2]; intros E;
    [reflexivity | | |].
  - rewrite concat_amp in E. unfold pair_text in E.
    destruct (percent_encode (fst it2)); discriminate.
  - rewrite concat_amp in E. unfold pair_text in E.
    destruct (percent_encode (fst it1)); discriminate.
  - rewrite !concat_amp in E.
    destruct (split_at_byte "&" (pair_text it1) (pair_text it2) _ _
                (pair_text_no_amp it1) (pair_text_no_amp it2)
                (serialize_rest_shape p1) (serialize_rest_shape p2) E) as (Ep & Er).
    rewrite (pair_text_inj _ _ Ep), (serialize_rest_inj _ _ Er). reflexivity.
Qed.

Section SerializerOutput.
Context `{CurlEscape}.

Lemma serialize_safe (params : httpparams) :
  escape_sound -> Str.all url_safe (serialize params) = true.
Proof.
  intros Hsound. destruct (serialize_prefix params Hsound) as (rest & E).
  pose proof (wire_join_safe params) as Hs. rewrite E, all_append in Hs.
  apply andb_true_iff in Hs. exact (proj1 Hs).
Qed.

(** X5.  Whatever libcurl answers, as long as an answer that is not NULL is
    the percent-encoding it documents, serialize writes nothing but
    unreserved bytes, '%', '=' and '&', also when an escape fails and the
    output stops short: no space, '?', '#', '/' or '+', no control byte and
    no byte above 127 reaches its output.  So query adds exactly one '?' to
    those of url, and gives url followed by a bare '?' for an empty
    mapping. *)
Theorem serialize_output_is_url_safe :
  escape_sound ->
  (forall params, Str.all url_safe (serialize params) = true)
  /\ (forall params c, url_safe c = false -> count_char c (serialize params) = 0)
  /\ (forall c, url_safe c = true ->
        is_unreserved c = true \/ c = "%"%char \/ c = "="%char \/ c = "&"%char)
  /\ (forall url params,
        count_char "?" (query url params) = S (count_char "?" url))
  /\ (forall url, query url [] = url +:+ "?").
Proof.
  intros Hsound.
  split; [intros params; exact (serialize_safe params Hsound)|]. split.
  { intros params c Hc.
    apply (all_count_zero url_safe); [exact Hc | exact (serialize_safe params Hsound)]. }
  split.
  { intros c. unfold url_safe, escaped_byte.
    rewrite !orb_true_iff. intros [[[Hu|Hp]|He]|Ha]; auto.
    - right. left. apply Ascii.eqb_eq. exact Hp.
    - right. right. left. apply Ascii.eqb_eq. exact He.
    - right. right. right. apply Ascii.eqb_eq. exact Ha. }
  split.
  { intros url params. unfold query.
    rewrite !count_char_append.
    rewrite (all_count_zero url_safe "?" (serialize params) eq_refl
               (serialize_safe params Hsound)).
    cbn [count_char]. cbn. lia. }
  intros url. reflexivity.
Qed.

(** X6.  serialize loses nothing of a mapping whose keys and values libcurl
    encodes: two such sequences of pairs with the same output are the same
    sequence, so the receiver can tell every such mapping from every
    other, and a key or a value is never confused with a separator. *)
Theorem serialize_is_injective :
  (forall s1 s2, percent_encode s1 = percent_encode s2 -> s1 = s2)
  /\ (forall m1 m2 : httpparams,
        escapes_all m1 -> escapes_all m2 ->
        serialize m1 = serialize m2 -> m1 = m2)
  /\ (forall url (m1 m2 : httpparams),
        escapes_all m1 -> escapes_all m2 ->
        query url m1 = query url m2 -> m1 = m2).
Proof.
  assert (Hser : forall m1 m2 : httpparams,
            escapes_all m1 -> escapes_all m2 ->
            serialize m1 = serialize m2 -> m1 = m2).
  { intros m1 m2 H1 H2 E.
    rewrite (serialize_is_join m1 H1), (serialize_is_join m2 H2) in E.
    exact (serialize_spec_inj m1 m2 E). }
  split; [exact escape_inj|]. split; [exact Hser|].
  intros url m1 m2 H1 H2 E. apply (Hser m1 m2 H1 H2). unfold query in E.
  induction url as [|c url IH]; cbn in E; injection E as E; [exact E | exact (IH E)].
Qed.

End SerializerOutput.

(** On the simulated libcurl the output for {a: 8,000,000 spaces, b: 2},
    which stops after "a=", holds no byte outside the safe ones, and the
    query of a url that has a '?' already has two. *)
Lemma serialize_output_is_url_safe_witness :
  Str.all url_safe
    (serialize (H := Sim.SimEscape) [("a", Sim.spaces_8MB); ("b", "2")]) = true
  /\ count_char "?"
       (query (H := Sim.SimEscape) "http://example.com/?" [("q", "a?b")]) = 2.
Proof.
  destruct (serialize_output_is_url_safe (H := Sim.SimEscape) sim_escape_sound)
    as (Hall & _ & _ & Hq & _).
  split; [apply Hall | apply Hq].
Defined.

(** On the simulated libcurl a value that holds "&b=2" is not taken for a
    second pair. *)
Lemma serialize_is_injective_witness :
  serialize (H := Sim.SimEscape) [("a", "1&b=2")]
  <> serialize (H := Sim.SimEscape) [("a", "1"); ("b", "2")].
Proof.
  intros E.
  apply (proj1 (proj2 (serialize_is_injective (H := Sim.SimEscape)))) in E;
    [discriminate | repeat constructor | repeat constructor].
Defined.

(** ** The gzip wrappers, beyond the round trip *)

Section CodecProps.
Context `{Zlib}.

Lemma seen_below_4GiB (input : string) :
  (size input < 2 ^ 32)%Z ->
  of_bytes (take (Z.to_nat (uInt (size input))) (to_bytes input)) = input.
Proof.
  intros Hs. pose proof (size_nonneg input).
  rewrite uInt_small by lia.
  rewrite take_ge by (rewrite length_to_bytes; unfold size; lia).
  apply of_to_bytes.
Qed.

(** What gzip returns for an input below 4 GiB is the member zlib makes of
    it, and is itself below 4 GiB. *)
Lemma gzip_returns_member (input z : string) :
  (size input < 2 ^ 32)%Z -> gzip input = Returns z ->
  z = deflate_stream input /\ (size z < 2 ^ 32)%Z.
Proof.
  intros Hs Hz.
  pose proof (uInt_range (uLong (12 + deflateBound (size input)))) as Hroom.
  destruct (Z.eq_dec deflateInit2 Z_OK) as [Hok|Hne].
  - destruct (Z.le_gt_cases (size (deflate_stream input))
                (uInt (uLong (12 + deflateBound (size input))))) as [Hle|Hgt].
    + pose proof (gzip_run input Hok) as Hrun. cbv zeta in Hrun.
      rewrite (seen_below_4GiB input Hs) in Hrun.
      rewrite (Hrun Hle) in Hz. injection Hz as <-. split; [reflexivity | lia].
    + exfalso. revert Hz. unfold gzip, deflate. rewrite Hok.
      change (negb (Z_OK =? Z_OK)%Z) with false. cbv beta iota.
      rewrite (seen_below_4GiB input Hs).
      rewrite length_to_bytes. fold (size (deflate_stream input)).
      destruct (Z.leb_spec (size (deflate_stream input))
                  (uInt (uLong (12 + deflateBound (size input))))) as [Hle|_];
        [lia|].
      destruct (uInt (uLong (12 + deflateBound (size input))) =? 0)%Z;
        discriminate.
  - apply Z.eqb_neq in Hne. unfold gzip in Hz. rewrite Hne in Hz. discriminate.
Qed.

(** X7.  For an input below 4 GiB gzip returns the whole gzip member that
    zlib makes of it, or throws: runtime_error "error initializing deflate"
    when deflateInit2 fails, runtime_error "failed to completely deflate"
    when the member does not fit the destination it allocated.  It never
    returns a part of a member. *)
Theorem gzip_returns_the_whole_member_or_throws (input : string) :
  (size input < 2 ^ 32)%Z ->
  let room := uInt (uLong (12 + deflateBound (size input))) in
  (deflateInit2 <> Z_OK ->
   gzip input = Throws (runtime_error "error initializing deflate"))
  /\ (deflateInit2 = Z_OK -> (size (deflate_stream input) <= room)%Z ->
      gzip input = Returns (deflate_stream input))
  /\ (deflateInit2 = Z_OK -> (room < size (deflate_stream input))%Z ->
      gzip input = Throws (runtime_error "failed to completely deflate"))
  /\ (forall z, gzip input = Returns z -> z = deflate_stream input).
Proof.
  intros Hs room.
  assert (Hinit : deflateInit2 <> Z_OK ->
                  gzip input = Throws (runtime_error "error initializing deflate")).
  { intros Hne. unfold gzip. apply Z.eqb_neq in Hne. rewrite Hne. reflexivity. }
  assert (Hfit : deflateInit2 = Z_OK -> (size (deflate_stream input) <= room)%Z ->
                 gzip input = Returns (deflate_stream input)).
  { intros Hok Hle. pose proof (gzip_run input Hok) as Hrun. cbv zeta in Hrun.
    rewrite (seen_below_4GiB input Hs) in Hrun. exact (Hrun Hle). }
  assert (Hnofit : deflateInit2 = Z_OK -> (room < size (deflate_stream input))%Z ->
                   gzip input = Throws (runtime_error "failed to completely deflate")).
  { intros Hok Hlt. unfold gzip, deflate. rewrite Hok.
    change (negb (Z_OK =? Z_OK)%Z) with false. cbv beta iota.
    rewrite (seen_below_4GiB input Hs). fold room.
    rewrite length_to_bytes. fold (size (deflate_stream input)).
    destruct (Z.leb_spec (size (deflate_stream input)) room) as [Hle|_]; [lia|].
    destruct (room =? 0)%Z; reflexivity. }
  split; [exact Hinit|]. split; [exact Hfit|]. split; [exact Hnofit|].
  intros z Hz.
  destruct (Z.eq_dec deflateInit2 Z_OK) as [Hok|Hne].
  - destruct (Z.le_gt_cases (size (deflate_stream input)) room) as [Hle|Hgt].
    + rewrite (Hfit Hok Hle) in Hz. injection Hz as <-. reflexivity.
    + rewrite (Hnofit Hok Hgt) in Hz. discriminate.
  - rewrite (Hinit Hne) in Hz. discriminate.
Qed.

(** X8.  For a stream below 4 GiB gunzip returns the data the stream
    decodes to, however far beyond the first 10240 bytes of its buffer, or
    throws: runtime_error "error initializing inflate" when inflateInit2
    fails, runtime_error "failed to completely inflate" when the input is
    not a valid stream.  It never returns a part of the data. *)
Theorem gunzip_returns_the_data_or_throws (c : string) :
  (size c < 2 ^ 32)%Z ->
  (inflateInit2 <> Z_OK ->
   gunzip c = Throws (runtime_error "error initializing inflate"))
  /\ (inflateInit2 = Z_OK -> inflate_stream c = None ->
      gunzip c = Throws (runtime_error "failed to completely inflate"))
  /\ (inflateInit2 = Z_OK ->
      forall data, inflate_stream c = Some data -> (size data < 2 ^ 32)%Z ->
      gunzip c = Returns data).
Proof.
  intros Hs. split; [|split].
  - intros Hne. unfold gunzip. apply Z.eqb_neq in Hne. rewrite Hne. reflexivity.
  - intros Hok Hnone. unfold gunzip. rewrite Hok.
    change (negb (Z_OK =? Z_OK)%Z) with false. cbv beta iota zeta.
    rewrite (seen_below_4GiB c Hs), Hnone. reflexivity.
  - intros Hok data Hdec Hdata. apply gunzip_run; assumption.
Qed.

(** X9.  With a zlib that inflates what it deflates and keeps its members
    within deflateBound, gunzip undoes gzip for every buffer below 4 GiB
    whose destination stays below 4 GiB too: gzip returns a stream and
    gunzip of that stream is the buffer. *)
Theorem gunzip_undoes_gzip_below_4GiB :
  deflateInit2 = Z_OK -> inflateInit2 = Z_OK ->
  (forall s, inflate_stream (deflate_stream s) = Some s) ->
  (forall s, (size (deflate_stream s) <= deflateBound (size s))%Z) ->
  forall input,
    (size input < 2 ^ 32)%Z ->
    (12 + deflateBound (size input) < 2 ^ 32)%Z ->
    exists z, gzip input = Returns z /\ gunzip z = Returns input
              /\ inflate_stream z = Some input.
Proof.
  intros Hdi Hii Hrt Hbound input Hs Hroom.
  pose proof (gunzip_gzip_below_4GiB input Hdi Hii (Hrt input) (Hbound input) Hs Hroom)
    as Hround.
  unfold gunzip_gzip in Hround.
  destruct (gzip input) as [z|e] eqn:Ez; [|discriminate].
  exists z. split; [reflexivity|]. split; [exact Hround|].
  pose proof (size_nonneg input). pose proof (size_nonneg (deflate_stream input)).
  pose proof (Hbound input).
  pose proof (gzip_run input Hdi) as Hrun. cbv zeta in Hrun.
  rewrite (seen_below_4GiB input Hs) in Hrun.
  rewrite Hrun in Ez.
  - injection Ez as <-. apply Hrt.
  - unfold uLong. rewrite Z.mod_small by lia. rewrite uInt_small by lia. lia.
Qed.

End CodecProps.

Lemma stored_round_trip (s : string) :
  inflate_stream (Zlib := Sim.StoredZlib) (deflate_stream (Zlib := Sim.StoredZlib) s)
  = Some s.
Proof. reflexivity. Qed.

Lemma stored_bound (s : string) :
  (size (deflate_stream (Zlib := Sim.StoredZlib) s)
   <= deflateBound (Zlib := Sim.StoredZlib) (size s))%Z.
Proof. unfold size. cbn. lia. Qed.

(** On the stored codec gzip of 10241 bytes is the two magic bytes and the
    data. *)
Lemma gzip_returns_the_whole_member_or_throws_witness :
  gzip (H := Sim.StoredZlib) Sim.big_body = Returns (Sim.magic +:+ Sim.big_body).
Proof.
  exact (proj1 (proj2
           (gzip_returns_the_whole_member_or_throws (H := Sim.StoredZlib) Sim.big_body
              ltac:(vm_compute; reflexivity)))
           eq_refl ltac:(vm_compute; discriminate)).
Defined.

(** On the stored codec gunzip returns a payload of 10241 bytes, one more
    than its first buffer holds. *)
Lemma gunzip_returns_the_data_or_throws_witness :
  gunzip (H := Sim.StoredZlib) (Sim.magic +:+ Sim.big_body) = Returns Sim.big_body.
Proof.
  exact (proj2 (proj2
           (gunzip_returns_the_data_or_throws (H := Sim.StoredZlib)
              (Sim.magic +:+ Sim.big_body) ltac:(vm_compute; reflexivity)))
           eq_refl Sim.big_body eq_refl ltac:(vm_compute; reflexivity)).
Defined.

(** On the stored codec 10241 bytes go through gzip and gunzip unchanged. *)
Lemma gunzip_undoes_gzip_below_4GiB_witness :
  exists z, gzip (H := Sim.StoredZlib) Sim.big_body = Returns z
            /\ gunzip (H := Sim.StoredZlib) z = Returns Sim.big_body
            /\ inflate_stream (Zlib := Sim.StoredZlib) z = Some Sim.big_body.
Proof.
  exact (gunzip_undoes_gzip_below_4GiB (H := Sim.StoredZlib) eq_refl eq_refl
           stored_round_trip stored_bound Sim.big_body
           ltac:(vm_compute; reflexivity) ltac:(vm_compute; reflexivity)).
Defined.

(** ** The cookie calls of the client, when libcurl may refuse one *)

Lemma lines_nonempty (data : string) : lines data <> [].
Proof.
  intros E. pose proof (lines_length data) as Hl. rewrite E in Hl. discriminate.
Qed.

Lemma lines_join (data : string) :
  String.concat (String "010" "") (lines data) = data.
Proof.
  induction data as [|c s IH]; [reflexivity|].
  cbn [lines]. pose proof (lines_nonempty s) as Hne.
  destruct (Ascii.eqb_spec c "010") as [->|Hc].
  - destruct (lines s) as [|l ls]; [contradiction|].
    cbn [String.concat] in IH |- *. cbn. f_equal. exact IH.
  - destruct (lines s) as [|l ls]; [contradiction|].
    destruct ls as [|l' ls]; cbn [String.concat] in IH |- *; cbn; f_equal; exact IH.
Qed.

Section CookieProps.
Context `{LibCurl} `{Zlib}.

(** The loop makes the calls for the lines in order and stops after the
    first one libcurl refuses. *)
Lemma setcookie_loop_prefix (fuel : nat) :
  forall (ss : istringstream) (w : world),
    eofbit ss = false ->
    length (lines (rdbuf ss)) <= fuel ->
    let '(r, w', t) := setcookie_loop fuel ss w in
    (exists rest, map cookie_call (lines (rdbuf ss)) = t ++ rest)
    /\ (r = Returns tt -> t = map cookie_call (lines (rdbuf ss)))
    /\ (forall e, r = Throws e ->
          exists code, e = curl_error code /\ code <> CURLE_OK).
Proof.
  induction fuel as [|fuel IH]; intros ss w Heof Hlen.
  { rewrite lines_length in Hlen. lia. }
  cbn [setcookie_loop]. rewrite Heof. unfold getline.
  rewrite lines_getline in Hlen |- *.
  destruct (getline_from (rdbuf ss)) as [line ss'].
  unfold bind, setopt.
  destruct (curl_easy_setopt (handle_ (curl w)) CURLOPT_COOKIELIST
              (VString (Str.c_str line))) as [code h].
  destruct (Z.eqb_spec CURLE_OK code) as [<-|Hne]; cbv beta iota zeta.
  - destruct (eofbit ss') eqn:Heof'.
    + assert (E : setcookie_loop fuel ss' (set_handle_ h w)
                  = (Returns tt, set_handle_ h w, [])).
      { destruct fuel; cbn [setcookie_loop]; [|rewrite Heof']; reflexivity. }
      rewrite E. cbn [app map]. fold (cookie_call line).
      split; [exists []; reflexivity|]. split; [reflexivity|].
      intros e He. discriminate.
    + cbn [length] in Hlen.
      pose proof (IH ss' (set_handle_ h w) Heof' ltac:(lia)) as Hrec.
      destruct (setcookie_loop fuel ss' (set_handle_ h w)) as [[r w'] t].
      destruct Hrec as ((rest & Hrest) & Hall & Hthrow).
      cbn [app map]. fold (cookie_call line).
      split; [exists rest; rewrite Hrest; reflexivity|].
      split; [intros Hr; rewrite (Hall Hr); reflexivity | exact Hthrow].
  - fold (cookie_call line).
    split.
    { destruct (eofbit ss'); [exists [] | eexists]; reflexivity. }
    split; [discriminate|].
    intros e [= <-]. exists code. split; [reflexivity | congruence].
Qed.

(** The loop returns after libcurl has accepted the call of every line,
    and throws at the first call libcurl refuses, with the code of that
    call. *)
Lemma setcookie_loop_answers (fuel : nat) :
  forall (ss : istringstream) (w : world),
    eofbit ss = false ->
    length (lines (rdbuf ss)) <= fuel ->
    let '(r, w', t) := setcookie_loop fuel ss w in
    let values := map Str.c_str (lines (rdbuf ss)) in
    (r = Returns tt ->
       exists h, accepted (handle_ (curl w)) values = Some h
                 /\ w' = set_handle_ h w)
    /\ (forall e, r = Throws e ->
          exists pre v rest h code h',
            values = pre ++ v :: rest
            /\ accepted (handle_ (curl w)) pre = Some h
            /\ curl_easy_setopt h CURLOPT_COOKIELIST (VString v) = (code, h')
            /\ code <> CURLE_OK
            /\ e = curl_error code
            /\ t = map (fun v => ev_setopt CURLOPT_COOKIELIST (VString v))
                     (pre ++ [v])
            /\ w' = set_handle_ h' w).
Proof.
  induction fuel as [|fuel IH]; intros ss w Heof Hlen.
  { rewrite lines_length in Hlen. lia. }
  cbn [setcookie_loop]. rewrite Heof. unfold getline.
  rewrite lines_getline in Hlen |- *.
  destruct (getline_from (rdbuf ss)) as [line ss'].
  unfold bind, setopt.
  destruct (curl_easy_setopt (handle_ (curl w)) CURLOPT_COOKIELIST
              (VString (Str.c_str line))) as [code h] eqn:Ecall.
  destruct (Z.eqb_spec CURLE_OK code) as [<-|Hne]; cbv beta iota zeta.
  - destruct (eofbit ss') eqn:Heof'.
    + assert (E : setcookie_loop fuel ss' (set_handle_ h w)
                  = (Returns tt, set_handle_ h w, [])).
      { destruct fuel; cbn [setcookie_loop]; [|rewrite Heof']; reflexivity. }
      rewrite E. cbn [app map]. split; [|discriminate].
      intros _. exists h. cbn [accepted]. rewrite Ecall. split; reflexivity.
    + cbn [length] in Hlen.
      pose proof (IH ss' (set_handle_ h w) Heof' ltac:(lia)) as Hrec.
      destruct (setcookie_loop fuel ss' (set_handle_ h w)) as [[r w'] t].
      cbv zeta in Hrec. destruct Hrec as (Hret & Hthrow).
      cbn [app map]. split.
      * intros Hr. destruct (Hret Hr) as (h2 & Hacc & ->).
        exists h2. cbn [accepted]. rewrite Ecall. split; [exact Hacc | reflexivity].
      * intros e He.
        destruct (Hthrow e He)
          as (pre & v & rest & h1 & code & h' & Hv & Hacc & Hc & Hne & -> & -> & ->).
        exists (Str.c_str line :: pre), v, rest, h1, code, h'.
        split; [cbn [app]; rewrite Hv; reflexivity|].
        split; [cbn [accepted]; rewrite Ecall; exact Hacc|].
        split; [exact Hc|]. split; [exact Hne|]. split; [reflexivity|].
        split; reflexivity.
  - split; [discriminate|]. intros e [= <-].
    exists [], (Str.c_str line),
      (map Str.c_str (if eofbit ss' then [] else lines (rdbuf ss'))),
      (handle_ (curl w)), code, h.
    split; [destruct (eofbit ss'); reflexivity|].
    split; [reflexivity|]. split; [exact Ecall|].
    split; [congruence|]. split; [reflexivity|]. split; reflexivity.
Qed.

(** X10.  Whatever libcurl answers, the calls setcookie makes are a
    beginning of: "ALL", then the lines of data in order.  It returns
    normally only after libcurl has accepted all of them.  When it throws,
    the last call it has made is the first one libcurl refused, every call
    before it was accepted, and the curl_error thrown carries the code of
    that refused call.  The lines, joined by '\n', are data itself. *)
Theorem setcookie_stops_at_the_first_refusal (c : client) (data : string) (w : world) :
  let '(r, w', t) := client_setcookie c data w in
  let values := "ALL" :: map Str.c_str (lines data) in
  let calls :=
    ev_setopt CURLOPT_COOKIELIST (VString "ALL") :: map cookie_call (lines data) in
  (exists rest, calls = t ++ rest)
  /\ (exists rest, t = ev_setopt CURLOPT_COOKIELIST (VString "ALL") :: rest)
  /\ (r = Returns tt ->
        t = calls
        /\ exists h, accepted (handle_ (curl w)) values = Some h
                     /\ w' = set_handle_ h w)
  /\ (forall e, r = Throws e ->
        exists pre v rest h code h',
          values = pre ++ v :: rest
          /\ accepted (handle_ (curl w)) pre = Some h
          /\ curl_easy_setopt h CURLOPT_COOKIELIST (VString v) = (code, h')
          /\ code <> CURLE_OK
          /\ e = curl_error code
          /\ t = map (fun v => ev_setopt CURLOPT_COOKIELIST (VString v))
                   (pre ++ [v])
          /\ w' = set_handle_ h' w)
  /\ (fst (curl_easy_setopt (handle_ (curl w)) CURLOPT_COOKIELIST (VString "ALL"))
      <> CURLE_OK ->
      t = [ev_setopt CURLOPT_COOKIELIST (VString "ALL")]
      /\ r = Throws (curl_error
                       (fst (curl_easy_setopt (handle_ (curl w)) CURLOPT_COOKIELIST
                               (VString "ALL")))))
  /\ String.concat (String "010" "") (lines data) = data.
Proof.
  unfold client_setcookie, bind, setopt.
  destruct (curl_easy_setopt (handle_ (curl w)) CURLOPT_COOKIELIST (VString "ALL"))
    as [code h] eqn:Ecall.
  destruct (Z.eqb_spec CURLE_OK code) as [<-|Hne]; cbv beta iota zeta.
  - assert (Hlen : length (lines data) <= S (S (String.length data))).
    { rewrite lines_length. pose proof (count_char_le "010" data). lia. }
    pose proof (setcookie_loop_prefix (S (S (String.length data)))
                  {| rdbuf := data; eofbit := false |} (set_handle_ h w) eq_refl
                  Hlen) as Hrec.
    pose proof (setcookie_loop_answers (S (S (String.length data)))
                  {| rdbuf := data; eofbit := false |} (set_handle_ h w) eq_refl
                  Hlen) as Hrun.
    cbn [rdbuf] in Hrec, Hrun.
    destruct (setcookie_loop (S (S (String.length data))) _ _) as [[r w'] t].
    cbv zeta in Hrun.
    destruct Hrec as ((rest & Hrest) & Hall & _). destruct Hrun as (Hret & Hthrow).
    cbn [app fst].
    split; [exists rest; rewrite Hrest; reflexivity|].
    split; [eexists; reflexivity|].
    split.
    { intros Hr. split; [rewrite (Hall Hr); reflexivity|].
      destruct (Hret Hr) as (h2 & Hacc & ->).
      exists h2. cbn [accepted]. rewrite Ecall. split; [exact Hacc | reflexivity]. }
    split.
    { intros e He.
      destruct (Hthrow e He)
        as (pre & v & rest' & h1 & code & h' & Hv & Hacc & Hc & Hne & -> & -> & ->).
      exists ("ALL" :: pre), v, rest', h1, code, h'.
      split; [cbn [app]; rewrite Hv; reflexivity|].
      split; [cbn [accepted]; rewrite Ecall; exact Hacc|].
      split; [exact Hc|]. split; [exact Hne|]. split; [reflexivity|].
      split; reflexivity. }
    split; [intros Hc; contradiction Hc; reflexivity | apply lines_join].
  - cbn [fst]. split; [eexists; reflexivity|].
    split; [eexists; reflexivity|].
    split; [discriminate|].
    split.
    { intros e [= <-].
      exists [], "ALL", (map Str.c_str (lines data)), (handle_ (curl w)), code, h.
      split; [reflexivity|]. split; [reflexivity|]. split; [exact Ecall|].
      split; [congruence|]. split; [reflexivity|]. split; reflexivity. }
    split; [intros _; split; reflexivity | apply lines_join].
Qed.






End CookieProps.


(** ** The requests, step by step *)

#[local] Arguments postfieldsize_of : simpl never.

Lemma postfieldsize_of_app (a b : list event) :
  postfieldsize_of (a ++ b) = postfieldsize_of a ++ postfieldsize_of b.
Proof. apply flat_map_app. Qed.

Lemma received_frame (d : list wire) (r : httpresponse) :
  status (received d r) = status r /\ body (received d r) = body r.
Proof.
  unfold received. revert r.
  induction d as [|[line|chunk] d IH]; intros r; cbn [fold_left]; [auto | | apply IH].
  destruct (IH (headerfunc line r)) as (-> & ->). apply headerfunc_frame.
Qed.

Section RequestEffects.
Context `{LibCurl} `{Zlib}.

Lemma read_back_eq (w : world) :
  read_back w
  = match curl_easy_getinfo_long (handle_ (curl w)) CURLINFO_RESPONSE_CODE with
    | (c1, st) =>
        if (CURLE_OK =? c1)%Z then
          let res := set_body (str_of (out w)) (set_status st (result w)) in
          if declares_gzip (headers (result w)) then
            match gunzip (str_of (out w)) with
            | Returns b => (Returns (set_body b res), with_result (set_body b res) w,
                            [ev_getinfo CURLINFO_RESPONSE_CODE])
            | Throws e => (Throws e, with_result res w,
                           [ev_getinfo CURLINFO_RESPONSE_CODE])
            end
          else (Returns res, with_result res w, [ev_getinfo CURLINFO_RESPONSE_CODE])
        else (Throws (curl_error c1), w, [ev_getinfo CURLINFO_RESPONSE_CODE])
    end.
Proof.
  unfold read_back, bind, modify, gets, getinfo_long. cbn.
  destruct (curl_easy_getinfo_long (handle_ (curl w)) CURLINFO_RESPONSE_CODE)
    as [c1 st]. cbn.
  destruct (CURLE_OK =? c1)%Z; cbn; [|reflexivity].
  rewrite process_response_run. cbn.
  destruct (declares_gzip (headers (result w))); [|reflexivity].
  destruct (gunzip (str_of (out w))); reflexivity.
Qed.

Lemma prepare_basic_sizes (url : string) (timeout : Z) (accept : bool) (w : world) :
  postfieldsize_of (snd (prepare_basic url timeout accept w)) = [].
Proof.
  unfold prepare_basic, reset, clear_headers, add_header, bind, modify, emit, setopt, ret.
  cbn.
  repeat step_setopt; try reflexivity.
  destruct accept; reflexivity.
Qed.

Lemma prepare_post_sizes (data : string) (sz : Z) (compressed : bool) (w : world) :
  postfieldsize_of (snd (prepare_post data sz compressed w)) = []
  \/ (postfieldsize_of (snd (prepare_post data sz compressed w)) = [sz]
      /\ postfields_of (snd (prepare_post data sz compressed w)) = [data]).
Proof.
  unfold prepare_post, add_header, bind, modify, setopt, ret. cbn.
  repeat step_setopt; try (left; reflexivity); try (right; split; reflexivity).
  destruct compressed; right; split; reflexivity.
Qed.

(** perform followed by the reading back, from a world whose stream and
    response are new. *)
Lemma transfer_effects (w : world) :
  out w = ostringstream "" -> result w = fresh_response ->
  let '(r, w', t) := (perform ;; read_back) w in
  files w' = files w
  /\ postfieldsize_of t = []
  /\ length (performed t) <= 1
  /\ (forall code d, In (code, d) (performed t) -> code <> CURLE_OK ->
        exists e, perform_outcome code = Throws e /\ r = Throws e)
  /\ (forall d, In (CURLE_OK, d) (performed t) ->
        r = response_of
              (curl_easy_getinfo_long (handle_ (curl w')) CURLINFO_RESPONSE_CODE) d).
Proof.
  intros Hout Hres. unfold bind.
  pose proof (perform_run w) as Hp.
  destruct (perform w) as [[r2 w3] t2].
  destruct Hp as (c0 & h0 & E0 & [(Ec & -> & -> & ->)|(Ec & code & d & h1 & E1 & -> & -> & ->)]).
  { unfold performed, postfieldsize_of. cbn [flat_map app length In].
    split; [reflexivity|]. split; [reflexivity|]. split; [lia|].
    split; intros; contradiction. }
  destruct (deliver_frame d (set_handle_ h1 (set_handle_ h0 w))) as (_ & Hcurl & Hr).
  destruct (deliver_string d (set_handle_ h1 (set_handle_ h0 w)) "" Hout) as (Ho & Hf).
  set (w3 := deliver d _) in *.
  cbn [result set_handle_ with_curl] in Hr. rewrite Hres in Hr.
  cbn [files set_handle_ with_curl] in Hf.
  change ("" +:+ body_of d) with (body_of d) in Ho.
  destruct (perform_outcome code) as [[]|e] eqn:Eo.
  2:{ unfold performed, postfieldsize_of. cbn [flat_map app length In].
      split; [exact Hf|]. split; [reflexivity|]. split; [lia|]. split.
      - intros code' d' [[= <- <-]|[]] _. exists e. split; [exact Eo | reflexivity].
      - intros d' [[= -> <-]|[]]. discriminate Eo. }
  apply perform_outcome_returns in Eo. subst code.
  rewrite read_back_eq. rewrite Hcurl.
  destruct (curl_easy_getinfo_long (handle_ (curl (set_handle_ h1 (set_handle_ h0 w))))
              CURLINFO_RESPONSE_CODE) as [c1 st] eqn:Einfo.
  set (t := [ev_setopt CURLOPT_HTTPHEADER (VSlist (headers_ (curl w)));
             ev_perform CURLE_OK d] ++ [ev_getinfo CURLINFO_RESPONSE_CODE]).
  assert (Hshape : forall (r : outcome httpresponse) (w' : world),
            files w' = files w3 -> curl w' = curl w3 ->
            r = response_of (c1, st) d ->
            files w' = files w
            /\ postfieldsize_of t = []
            /\ length (performed t) <= 1
            /\ (forall code d0, In (code, d0) (performed t) -> code <> CURLE_OK ->
                  exists e, perform_outcome code = Throws e /\ r = Throws e)
            /\ (forall d0, In (CURLE_OK, d0) (performed t) ->
                  r = response_of
                        (curl_easy_getinfo_long (handle_ (curl w'))
                           CURLINFO_RESPONSE_CODE) d0)).
  { intros r w' Hfw Hcw Hrr. subst t.
    unfold performed, postfieldsize_of. cbn [flat_map app length In].
    split; [rewrite Hfw; exact Hf|]. split; [reflexivity|]. split; [lia|]. split.
    - intros code d0 [[= <- <-]|[]] Hne. contradiction Hne. reflexivity.
    - intros d0 [[= <-]|[]]. rewrite Hcw, Hcurl, Einfo. exact Hrr. }
  destruct (received_frame d fresh_response) as (Hst & Hbd).
  rewrite <- Hr in Hst, Hbd.
  destruct (CURLE_OK =? c1)%Z eqn:Ec1.
  2:{ cbv beta iota zeta. apply Hshape; [reflexivity | reflexivity |].
      unfold response_of. rewrite Ec1. reflexivity. }
  rewrite Ho. cbn [str_of]. cbv zeta.
  destruct (declares_gzip (headers (result w3))) eqn:Ed.
  - destruct (gunzip (body_of d)) as [b|e] eqn:Eg; cbv beta iota zeta.
    + apply Hshape; [reflexivity | reflexivity |].
      unfold response_of. rewrite Ec1, <- Hr, Ed, Eg. reflexivity.
    + apply Hshape; [reflexivity | reflexivity |].
      unfold response_of. rewrite Ec1, <- Hr, Ed, Eg. reflexivity.
  - cbv beta iota zeta. apply Hshape; [reflexivity | reflexivity |].
    unfold response_of. rewrite Ec1, <- Hr, Ed. reflexivity.
Qed.

(** One run of get: what it leaves on disk, how often it transfers, and
    what it answers. *)
Lemma get_effects (url : string) (timeout : Z) (w : world) :
  let '(r, w', t) := get url timeout w in
  files w' = files w
  /\ postfieldsize_of t = []
  /\ length (performed t) <= 1
  /\ (forall code d, In (code, d) (performed t) -> code <> CURLE_OK ->
        exists e, perform_outcome code = Throws e /\ r = Throws e)
  /\ (forall d, In (CURLE_OK, d) (performed t) ->
        r = response_of
              (curl_easy_getinfo_long (handle_ (curl w')) CURLINFO_RESPONSE_CODE) d).
Proof.
  rewrite get_unfold. unfold bind at 1 2 3. unfold modify. cbv beta iota zeta.
  set (w1 := with_out _ _).
  pose proof (prepare_basic_trace url timeout true w1) as Hb.
  pose proof (prepare_basic_sizes url timeout true w1) as Hs.
  destruct (prepare_basic url timeout true w1) as [[r1 w2] t1]. cbn [snd] in Hs.
  destruct Hb as (_ & _ & _ & Hpd & Hres & Hout & Hfiles & _ & _).
  destruct r1 as [[]|e].
  2:{ cbn [app]. rewrite Hpd, Hs. split; [exact Hfiles|]. split; [reflexivity|].
      split; [cbn; lia|]. split; intros; contradiction. }
  pose proof (transfer_effects w2 Hout Hres) as Ht.
  destruct ((perform ;; read_back) w2) as [[r w'] t2].
  cbn [app]. rewrite postfieldsize_of_app, performed_app, Hpd, Hs. cbn [app].
  destruct Ht as (Hf & Hsz & Hlen & Herr & Hok).
  split; [rewrite Hf; exact Hfiles|]. auto.
Qed.

(** One run of post. *)
Lemma post_effects (url data : string) (timeout : Z) (w : world) :
  let '(r, w', t) := post url data timeout w in
  let sent := if (10240 <? size data)%Z then gzip data else Returns data in
  files w' = files w
  /\ (postfieldsize_of t = []
      \/ exists d, sent = Returns d /\ postfields_of t = [d]
                   /\ postfieldsize_of t = [size d])
  /\ length (performed t) <= 1
  /\ (forall code d, In (code, d) (performed t) -> code <> CURLE_OK ->
        exists e, perform_outcome code = Throws e /\ r = Throws e)
  /\ (forall d, In (CURLE_OK, d) (performed t) ->
        r = response_of
              (curl_easy_getinfo_long (handle_ (curl w')) CURLINFO_RESPONSE_CODE) d).
Proof.
  rewrite post_unfold. unfold bind at 1 2 3. unfold modify. cbv beta iota zeta.
  set (w1 := with_out _ _).
  pose proof (prepare_basic_trace url timeout true w1) as Hb.
  pose proof (prepare_basic_sizes url timeout true w1) as Hs.
  destruct (prepare_basic url timeout true w1) as [[r1 w2] t1]. cbn [snd] in Hs.
  destruct Hb as (_ & Hpf & _ & Hpd & Hres & Hout & Hfiles & _ & _).
  assert (Hquiet : forall (sent : outcome string) (e : exn) (w0 : world),
            files w0 = files w ->
            files w0 = files w
            /\ (postfieldsize_of t1 = []
                \/ exists d, sent = Returns d /\ postfields_of t1 = [d]
                             /\ postfieldsize_of t1 = [size d])
            /\ length (performed t1) <= 1
            /\ (forall code d, In (code, d) (performed t1) -> code <> CURLE_OK ->
                  exists e0, perform_outcome code = Throws e0
                             /\ Throws (A := httpresponse) e = Throws e0)
            /\ (forall d, In (CURLE_OK, d) (performed t1) ->
                  Throws e = response_of
                    (curl_easy_getinfo_long (handle_ (curl w0)) CURLINFO_RESPONSE_CODE) d)).
  { intros sent e w0 Hw0. rewrite Hpd, Hs. split; [exact Hw0|].
    split; [left; reflexivity|]. split; [cbn; lia|]. split; intros; contradiction. }
  destruct r1 as [[]|e].
  2:{ cbn [app]. apply Hquiet. exact Hfiles. }
  clear Hquiet.
  assert (Hquiet : forall (sent : outcome string) (e : exn),
            files w2 = files w
            /\ (postfieldsize_of t1 = []
                \/ exists d, sent = Returns d /\ postfields_of t1 = [d]
                             /\ postfieldsize_of t1 = [size d])
            /\ length (performed t1) <= 1
            /\ (forall code d, In (code, d) (performed t1) -> code <> CURLE_OK ->
                  exists e0, perform_outcome code = Throws e0
                             /\ Throws (A := httpresponse) e = Throws e0)
            /\ (forall d, In (CURLE_OK, d) (performed t1) ->
                  Throws e = response_of
                    (curl_easy_getinfo_long (handle_ (curl w2)) CURLINFO_RESPONSE_CODE) d)).
  { intros sent e. rewrite Hpd, Hs. split; [exact Hfiles|].
    split; [left; reflexivity|]. split; [cbn; lia|]. split; intros; contradiction. }
  assert (Hrest : forall d c,
    (if (10240 <? size data)%Z then gzip data else Returns data) = Returns d ->
    let '(r, w', t2) := (prepare_post d (size d) c ;; perform ;; read_back) w2 in
    let t := t1 ++ t2 in
    files w' = files w
    /\ (postfieldsize_of t = []
        \/ (postfields_of t = [d] /\ postfieldsize_of t = [size d]))
    /\ length (performed t) <= 1
    /\ (forall code d0, In (code, d0) (performed t) -> code <> CURLE_OK ->
          exists e, perform_outcome code = Throws e /\ r = Throws e)
    /\ (forall d0, In (CURLE_OK, d0) (performed t) ->
          r = response_of
                (curl_easy_getinfo_long (handle_ (curl w')) CURLINFO_RESPONSE_CODE) d0)).
  { intros d c Hsent. unfold bind at 1.
    pose proof (prepare_post_trace d (size d) c w2) as Hpp.
    pose proof (prepare_post_sizes d (size d) c w2) as Hps.
    destruct (prepare_post d (size d) c w2) as [[r3 w3] t3]. cbn [snd] in Hps.
    destruct Hpp as (_ & Hpd3 & Hpf3 & Hres3 & Hout3 & Hfiles3 & _ & Hok).
    assert (Hsizes : forall tail,
              postfieldsize_of tail = [] -> postfields_of tail = [] ->
              postfieldsize_of (t1 ++ t3 ++ tail) = []
              \/ (postfields_of (t1 ++ t3 ++ tail) = [d]
                  /\ postfieldsize_of (t1 ++ t3 ++ tail) = [size d])).
    { intros tail Hz Hp.
      rewrite !postfieldsize_of_app, !postfields_of_app, Hs, Hpf, Hz, Hp.
      cbn [app]. rewrite !app_nil_r.
      destruct Hps as [->|(-> & ->)]; [left | right; split]; reflexivity. }
    destruct r3 as [[]|e].
    2:{ cbv beta iota zeta. rewrite performed_app, Hpd, Hpd3. cbn [app length In].
        split; [rewrite Hfiles3; exact Hfiles|].
        split; [rewrite <- (app_nil_r t3); apply Hsizes; reflexivity|].
        split; [lia|]. split; intros; contradiction. }
    assert (Hout' : out w3 = ostringstream "") by (rewrite Hout3; exact Hout).
    assert (Hres' : result w3 = fresh_response) by (rewrite Hres3; exact Hres).
    pose proof (transfer_effects w3 Hout' Hres') as Ht.
    pose proof (transfer_run w3 "" Hout') as Hq.
    destruct ((perform ;; read_back) w3) as [[r4 w4] t4].
    destruct Ht as (Hf & Hsz & Hlen & Herr & Hanswer).
    destruct Hq as (Hpf4 & _).
    cbv beta iota zeta.
    rewrite !performed_app, Hpd, Hpd3. cbn [app].
    split; [rewrite Hf, Hfiles3; exact Hfiles|].
    split; [apply Hsizes; assumption|]. auto. }
  unfold bind at 1.
  destruct (10240 <? size data)%Z eqn:Ez.
  - unfold bind at 1, lift, ret. destruct (gzip data) as [z|e] eqn:Eg.
    2:{ cbv beta iota zeta. cbn [app]. rewrite !app_nil_r. apply Hquiet. }
    specialize (Hrest z true eq_refl). cbv beta iota zeta.
    change (fst (z, true)) with z. change (snd (z, true)) with true.
    destruct ((prepare_post z (size z) true ;; perform ;; read_back) w2)
      as [[r w'] t2].
    cbv beta iota zeta in Hrest. destruct Hrest as (H1 & H2 & H3 & H4 & H5).
    cbn [app]. split; [exact H1|].
    split; [|auto].
    destruct H2 as [H2|(Ha & Hb)]; [left; exact H2 | right; exists z; auto].
  - specialize (Hrest data false eq_refl). unfold ret.
    cbv beta iota zeta.
    change (fst (data, false)) with data. change (snd (data, false)) with false.
    destruct ((prepare_post data (size data) false ;; perform ;; read_back) w2)
      as [[r w'] t2].
    cbv beta iota zeta in Hrest. destruct Hrest as (H1 & H2 & H3 & H4 & H5).
    cbn [app]. split; [exact H1|].
    split; [|auto].
    destruct H2 as [H2|(Ha & Hb)]; [left; exact H2 | right; exists data; auto].
Qed.

Lemma deliver_other (delivered : list wire) (w : world) (p q : string) (b : bool) :
  out w = ofstream p b -> q <> p ->
  files (deliver delivered w) !! q = files w !! q.
Proof.
  unfold deliver. revert w.
  induction delivered as [|[line|chunk] d IH]; intros w Hout Hq; cbn [fold_left callback].
  - reflexivity.
  - apply (IH (with_result (headerfunc line (result w)) w)); assumption.
  - rewrite IH.
    + unfold streamfunc. rewrite Hout. destruct b; [|reflexivity].
      cbn [files with_files]. apply lookup_insert_ne. congruence.
    + unfold streamfunc. rewrite Hout. destruct b; cbn; exact Hout.
    + exact Hq.
Qed.

(** perform and the reading of the response code, as download runs them. *)
Lemma download_transfer_effects (w : world) (p : string) (b : bool) :
  out w = ofstream p b -> result w = fresh_response ->
  let '(r, w', t) :=
    (perform ;;
     code <- getinfo_long CURLINFO_RESPONSE_CODE ;;
     modify (fun w => with_result (set_status code (result w)) w) ;;
     gets result) w in
  (forall q, q <> p -> files w' !! q = files w !! q)
  /\ length (performed t) <= 1
  /\ (forall code d, In (code, d) (performed t) -> code <> CURLE_OK ->
        exists e, perform_outcome code = Throws e /\ r = Throws e)
  /\ (forall d, In (CURLE_OK, d) (performed t) ->
        r = download_response_of
              (curl_easy_getinfo_long (handle_ (curl w')) CURLINFO_RESPONSE_CODE) d)
  /\ (forall resp, r = Returns resp -> exists d, performed t = [(CURLE_OK, d)]).
Proof.
  intros Hout Hres. unfold bind at 1.
  pose proof (perform_run w) as Hp.
  destruct (perform w) as [[r2 w3] t2].
  destruct Hp as (c0 & h0 & E0 & [(Ec & -> & -> & ->)|(Ec & code & d & h1 & E1 & -> & -> & ->)]).
  { unfold performed. cbn [flat_map app length In].
    split; [reflexivity|]. split; [lia|]. split; [intros; contradiction|].
    split; [intros; contradiction | discriminate]. }
  destruct (deliver_frame d (set_handle_ h1 (set_handle_ h0 w))) as (_ & Hcurl & Hr).
  pose proof (fun q => deliver_other d (set_handle_ h1 (set_handle_ h0 w)) p q b Hout)
    as Hf.
  set (w3 := deliver d _) in *.
  cbn [result set_handle_ with_curl] in Hr. rewrite Hres in Hr.
  cbn [files set_handle_ with_curl] in Hf.
  destruct (perform_outcome code) as [[]|e] eqn:Eo.
  2:{ unfold performed. cbn [flat_map app length In].
      split; [exact Hf|]. split; [lia|]. split; [|split; [|discriminate]].
      - intros code' d' [[= <- <-]|[]] _. exists e. split; [exact Eo | reflexivity].
      - intros d' [[= -> <-]|[]]. discriminate Eo. }
  apply perform_outcome_returns in Eo. subst code.
  unfold bind, modify, gets, getinfo_long. rewrite Hcurl.
  destruct (curl_easy_getinfo_long (handle_ (curl (set_handle_ h1 (set_handle_ h0 w))))
              CURLINFO_RESPONSE_CODE) as [c1 st] eqn:Einfo.
  destruct (received_frame d fresh_response) as (Hst & Hbd).
  destruct (CURLE_OK =? c1)%Z eqn:Ec1; cbv beta iota zeta;
    unfold performed; cbn [flat_map app length In];
    (split; [exact Hf|]; split; [lia|]; split;
     [intros code d0 [[= <- <-]|[]] Hne; contradiction Hne; reflexivity|]);
    (split; [|intros resp _; exists d; reflexivity]);
    intros d0 [[= <-]|[]]; cbn [curl with_result]; rewrite Hcurl, Einfo;
    unfold download_response_of; rewrite Ec1; cbn [negb]; [|reflexivity].
  f_equal. rewrite Hr. unfold set_status. cbn [body headers status].
  rewrite Hbd. reflexivity.
Qed.

(** One run of download. *)
Lemma download_effects (url localpath : string) (timeout : Z) (w : world) :
  let '(r, w', t) := download url localpath timeout w in
  (forall q, q <> Str.c_str localpath -> files w' !! q = files w !! q)
  /\ length (performed t) <= 1
  /\ (forall code d, In (code, d) (performed t) -> code <> CURLE_OK ->
        exists e, perform_outcome code = Throws e /\ r = Throws e)
  /\ (forall d, In (CURLE_OK, d) (performed t) ->
        r = download_response_of
              (curl_easy_getinfo_long (handle_ (curl w')) CURLINFO_RESPONSE_CODE) d)
  /\ (forall resp, r = Returns resp -> exists d, performed t = [(CURLE_OK, d)]).
Proof.
  unfold download, open_trunc. unfold bind at 1 2 3. unfold modify, emit.
  cbv beta iota zeta.
  set (path := Str.c_str localpath).
  set (w1 := if can_open _ path then _ else _).
  assert (Hw1 : out w1 = ofstream path (can_open w path)
                /\ result w1 = fresh_response
                /\ forall q, q <> path -> files w1 !! q = files w !! q).
  { subst w1. cbn. destruct (can_open w path); cbn.
    - split; [reflexivity|]. split; [reflexivity|].
      intros q Hq. apply lookup_insert_ne. congruence.
    - auto. }
  clearbody w1. destruct Hw1 as (Hout1 & Hres1 & Hf1).
  unfold bind at 1.
  pose proof (prepare_basic_trace url timeout false w1) as Hb.
  destruct (prepare_basic url timeout false w1) as [[r1 w2] t1].
  destruct Hb as (_ & _ & _ & Hpd & Hres & Hout & Hfiles & _ & _).
  assert (Hproj : forall t2,
            performed (ev_open_trunc path :: t1 ++ t2) = performed t2).
  { intros t2. change (ev_open_trunc path :: t1 ++ t2)
      with ([ev_open_trunc path] ++ t1 ++ t2).
    rewrite !performed_app, Hpd. reflexivity. }
  destruct r1 as [[]|e].
  2:{ cbv beta iota zeta. cbn [app]. rewrite <- (app_nil_r t1), (Hproj []).
      unfold performed. cbn [flat_map length In].
      split; [intros q Hq; rewrite Hfiles; exact (Hf1 q Hq)|].
      split; [lia|]. split; [intros; contradiction|].
      split; [intros; contradiction | discriminate]. }
  assert (Hout2 : out w2 = ofstream path (can_open w path))
    by (rewrite Hout; exact Hout1).
  assert (Hres2 : result w2 = fresh_response) by (rewrite Hres; exact Hres1).
  pose proof (download_transfer_effects w2 path _ Hout2 Hres2) as Ht.
  unfold modify in Ht.
  match goal with
  | |- context [(perform ;; ?k) w2] => destruct ((perform ;; k) w2) as [[r w'] t2]
  end.
  cbv beta iota zeta. cbn [app]. rewrite Hproj.
  destruct Ht as (Hf & Hlen & Herr & Hanswer & Hret).
  split; [|auto].
  intros q Hq. rewrite (Hf q Hq), Hfiles. exact (Hf1 q Hq).
Qed.

(** X12.  get, post and download run at most one transfer each, with no
    second attempt after a failure, and a transfer that ends with a code
    other than CURLE_OK makes the request throw the exception perform maps
    the code to: timeout, resolve_error, connect_error or curl_error with
    the code. *)
Theorem requests_transfer_at_most_once :
  (forall url timeout w,
     let '(r, _, t) := get url timeout w in
     length (performed t) <= 1
     /\ forall code d, In (code, d) (performed t) -> code <> CURLE_OK ->
          exists e, perform_outcome code = Throws e /\ r = Throws e)
  /\ (forall url data timeout w,
        let '(r, _, t) := post url data timeout w in
        length (performed t) <= 1
        /\ forall code d, In (code, d) (performed t) -> code <> CURLE_OK ->
             exists e, perform_outcome code = Throws e /\ r = Throws e)
  /\ (forall url localpath timeout w,
        let '(r, _, t) := download url localpath timeout w in
        length (performed t) <= 1
        /\ forall code d, In (code, d) (performed t) -> code <> CURLE_OK ->
             exists e, perform_outcome code = Throws e /\ r = Throws e)
  /\ (forall code, code <> CURLE_OK ->
        perform_outcome code = Throws timeout
        \/ perform_outcome code = Throws resolve_error
        \/ perform_outcome code = Throws connect_error
        \/ perform_outcome code = Throws (curl_error code)).
Proof.
  split; [|split; [|split]].
  - intros url timeout w. pose proof (get_effects url timeout w) as He.
    destruct (get url timeout w) as [[r w'] t].
    destruct He as (_ & _ & Hlen & Herr & _). auto.
  - intros url data timeout w. pose proof (post_effects url data timeout w) as He.
    destruct (post url data timeout w) as [[r w'] t].
    cbv beta iota zeta in He. destruct He as (_ & _ & Hlen & Herr & _). auto.
  - intros url localpath timeout w.
    pose proof (download_effects url localpath timeout w) as He.
    destruct (download url localpath timeout w) as [[r w'] t].
    destruct He as (_ & Hlen & Herr & _). auto.
  - intros code Hne. unfold perform_outcome.
    destruct (Z.eqb_spec CURLE_OK code) as [E|_]; [congruence|].
    destruct (CURLE_OPERATION_TIMEDOUT =? code)%Z; [auto|].
    destruct (CURLE_COULDNT_RESOLVE_HOST =? code)%Z; [auto|].
    destruct (CURLE_COULDNT_CONNECT =? code)%Z; auto.
Qed.

(** X13.  After a transfer that ended with CURLE_OK, get and post answer
    with the status libcurl reports for the handle, whatever it is (a 404
    or a 500 is returned, not thrown), the headers the callback collected
    and the body received, gunzipped when the headers declare gzip.  They
    throw curl_error when libcurl does not give the response code, and the
    exception of gunzip when a body declared as gzip does not decode.
    download answers with the status and the headers and an empty body. *)
Theorem response_after_a_completed_transfer :
  (forall url timeout w,
     let '(r, w', t) := get url timeout w in
     forall d, In (CURLE_OK, d) (performed t) ->
       r = response_of
             (curl_easy_getinfo_long (handle_ (curl w')) CURLINFO_RESPONSE_CODE) d)
  /\ (forall url data timeout w,
        let '(r, w', t) := post url data timeout w in
        forall d, In (CURLE_OK, d) (performed t) ->
          r = response_of
                (curl_easy_getinfo_long (handle_ (curl w')) CURLINFO_RESPONSE_CODE) d)
  /\ (forall url localpath timeout w,
        let '(r, w', t) := download url localpath timeout w in
        forall d, In (CURLE_OK, d) (performed t) ->
          r = download_response_of
                (curl_easy_getinfo_long (handle_ (curl w')) CURLINFO_RESPONSE_CODE) d)
  /\ (forall st d,
        declares_gzip (headers (received d fresh_response)) = false ->
        response_of (CURLE_OK, st) d
        = Returns {| status := st; body := body_of d;
                     headers := headers (received d fresh_response) |})
  /\ (forall st d e,
        declares_gzip (headers (received d fresh_response)) = true ->
        gunzip (body_of d) = Throws e ->
        response_of (CURLE_OK, st) d = Throws e)
  /\ (forall code st d,
        code <> CURLE_OK ->
        response_of (code, st) d = Throws (curl_error code)
        /\ download_response_of (code, st) d = Throws (curl_error code)).
Proof.
  split; [|split; [|split; [|split; [|split]]]].
  - intros url timeout w. pose proof (get_effects url timeout w) as He.
    destruct (get url timeout w) as [[r w'] t].
    destruct He as (_ & _ & _ & _ & Hok). exact Hok.
  - intros url data timeout w. pose proof (post_effects url data timeout w) as He.
    destruct (post url data timeout w) as [[r w'] t].
    cbv beta iota zeta in He. destruct He as (_ & _ & _ & _ & Hok). exact Hok.
  - intros url localpath timeout w.
    pose proof (download_effects url localpath timeout w) as He.
    destruct (download url localpath timeout w) as [[r w'] t].
    destruct He as (_ & _ & _ & Hok & _). exact Hok.
  - intros st d Hd. unfold response_of. rewrite Hd. reflexivity.
  - intros st d e Hd Hg. unfold response_of. rewrite Hd, Hg. reflexivity.
  - intros code st d Hne. unfold response_of, download_response_of.
    apply Z.eqb_neq in Hne. rewrite Z.eqb_sym in Hne. rewrite Hne.
    split; reflexivity.
Qed.

(** X14.  Whenever post gives libcurl a size with CURLOPT_POSTFIELDSIZE, it
    gives it once, and it is the size of the one body it gave with
    CURLOPT_POSTFIELDS: the size of the compressed body when data is longer
    than 10240 bytes, not that of data, and the size of data otherwise. *)
Theorem post_declares_the_size_it_sends :
  forall url data timeout w,
    let t := snd (post url data timeout w) in
    postfieldsize_of t = []
    \/ exists d,
         (if (10240 <? size data)%Z then gzip data else Returns data) = Returns d
         /\ postfields_of t = [d]
         /\ postfieldsize_of t = [size d].
Proof.
  intros url data timeout w. pose proof (post_effects url data timeout w) as He.
  destruct (post url data timeout w) as [[r w'] t].
  cbv beta iota zeta in He |- *. cbn [snd].
  destruct He as (_ & Hsz & _). exact Hsz.
Qed.

(** X15.  With a zlib whose inflateInit2 succeeds and whose inflate gives
    data back from the member deflate makes of it, every body post hands
    to libcurl for a data of more than 10240 bytes and less than 4 GiB is
    the gzip member of data, and gunzip gives data back from it. *)
Theorem post_body_gunzips_to_the_data (url data : string) (timeout : Z) (w : world) :
  inflateInit2 = Z_OK ->
  inflate_stream (deflate_stream data) = Some data ->
  (10240 < size data < 2 ^ 32)%Z ->
  forall z, In z (postfields_of (snd (post url data timeout w))) ->
    z = deflate_stream data /\ gunzip z = Returns data.
Proof.
  intros Hii Hrt Hsize z Hz.
  pose proof (post_run url data timeout w) as Hrun.
  destruct (post url data timeout w) as [[r w'] t].
  cbv beta iota zeta in Hrun. cbn [snd] in Hz.
  destruct Hrun as (_ & Hpf & _). specialize (Hpf z Hz).
  assert (Hlt : (10240 <? size data)%Z = true) by (apply Z.ltb_lt; lia).
  rewrite Hlt in Hpf.
  destruct (gzip_returns_member data z ltac:(lia) Hpf) as (-> & Hz32).
  split; [reflexivity|].
  apply gunzip_run; [exact Hii | exact Hz32 | lia | exact Hrt].
Qed.

(** X16.  get and post leave every file as it was, and download changes
    no file but the one at localpath.  When that one cannot be opened for
    writing, download changes no file at all. *)
Theorem requests_touch_no_other_file :
  (forall url timeout w, files (snd (fst (get url timeout w))) = files w)
  /\ (forall url data timeout w, files (snd (fst (post url data timeout w))) = files w)
  /\ (forall url localpath timeout w q,
        q <> Str.c_str localpath ->
        files (snd (fst (download url localpath timeout w))) !! q = files w !! q)
  /\ (forall url localpath timeout w,
        can_open w (Str.c_str localpath) = false ->
        files (snd (fst (download url localpath timeout w))) = files w).
Proof.
  split; [|split; [|split]].
  - intros url timeout w. pose proof (get_effects url timeout w) as He.
    destruct (get url timeout w) as [[r w'] t]. destruct He as (Hf & _). exact Hf.
  - intros url data timeout w. pose proof (post_effects url data timeout w) as He.
    destruct (post url data timeout w) as [[r w'] t].
    cbv beta iota zeta in He. destruct He as (Hf & _). exact Hf.
  - intros url localpath timeout w q Hq.
    pose proof (download_effects url localpath timeout w) as He.
    destruct (download url localpath timeout w) as [[r w'] t].
    destruct He as (Hf & _). exact (Hf q Hq).
  - intros url localpath timeout w Hc.
    pose proof (download_run url localpath timeout w) as Hrun.
    destruct (download url localpath timeout w) as [[r w'] t].
    cbv beta iota zeta in Hrun. destruct Hrun as (_ & _ & _ & _ & Hf). exact (Hf Hc).
Qed.

End RequestEffects.

(** On the simulated library and the stored codec the body of a post of
    10241 bytes is the two magic bytes and the data, and decodes to the
    data. *)
Lemma post_body_gunzips_to_the_data_witness :
  Sim.magic +:+ Sim.big_body = deflate_stream (Zlib := Sim.StoredZlib) Sim.big_body
  /\ gunzip (H := Sim.StoredZlib) (Sim.magic +:+ Sim.big_body) = Returns Sim.big_body.
Proof.
  exact (post_body_gunzips_to_the_data (H := Sim.SimCurl) (H0 := Sim.StoredZlib)
           "http://example.com/" Sim.big_body 30%Z Sim.world0
           eq_refl (stored_round_trip Sim.big_body)
           ltac:(vm_compute; split; reflexivity)
           (Sim.magic +:+ Sim.big_body) ltac:(vm_compute; left; reflexivity)).
Defined.

(** On a disk where nothing can be opened for writing, a download of the
    page returns its status and leaves the disk as it was. *)
Example download_to_a_closed_path :
  fst (fst (download (H := Sim.SimCurl) "http://example.com/" "/tmp/x" 30%Z
              Cases.readonly_world))
  = Returns {| status := 200; body := "";
               headers := {[ "content-type" := "text/plain" ]} |}
  /\ files (snd (fst (download (H := Sim.SimCurl) "http://example.com/" "/tmp/x" 30%Z
                        Cases.readonly_world)))
     = {[ "/etc/motd" := "welcome" ]}.
Proof. split; vm_compute; reflexivity. Qed.

(** ** Tarballs *)

Section TarballProps.
Context `{LibCurl} `{Zlib} `{LibTar}.

(** X17.  downloadtarball makes the calls of download and no other call of
    libcurl.  It extracts only after download has returned with status 200
    exactly: an exception of download passes through and any other status
    is returned, both with nothing extracted.  With status 200 it throws
    runtime_error "could not open tar" or "could not extract tar" when
    libtar fails, the response being lost, and returns the response of
    download otherwise.  When the file could be opened for writing, the
    archive libtar is given holds the whole body of the transfer. *)
Theorem tarball_is_extracted_after_status_200 :
  forall (c : client) (path localpath extractdir : string) (w : world),
    let '(r1, w1, t1) := client_download c path localpath w in
    let '(r, w', t) := client_downloadtarball c path localpath extractdir w in
    t = t1
    /\ (forall e, r1 = Throws e -> r = Throws e /\ w' = w1)
    /\ (forall resp, r1 = Returns resp -> status resp <> 200%Z ->
          r = Returns resp /\ w' = w1)
    /\ (forall resp, r1 = Returns resp -> status resp = 200%Z ->
          (r, w')
          = match tar_open (Str.c_str localpath) (files w1) with
            | None => (Throws (runtime_error "could not open tar"), w1)
            | Some tr =>
                let '(rc, disk) :=
                  tar_extract_all tr (Str.c_str extractdir) (files w1) in
                (if (rc =? 0)%Z then Returns resp
                 else Throws (runtime_error "could not extract tar"),
                 with_files disk w1)
            end)
    /\ (can_open w (Str.c_str localpath) = true ->
        forall resp, r1 = Returns resp ->
          exists d, performed t1 = [(CURLE_OK, d)]
                    /\ files w1 !! Str.c_str localpath = Some (body_of d)).
Proof.
  intros c path localpath extractdir w.
  unfold client_downloadtarball, client_download, bind.
  pose proof (download_run (base_ c +:+ path) localpath (timeout_ c) w) as Hrun.
  pose proof (download_effects (base_ c +:+ path) localpath (timeout_ c) w) as Heff.
  destruct (download (base_ c +:+ path) localpath (timeout_ c) w) as [[r1 w1] t1].
  cbv beta iota zeta in Hrun.
  destruct Hrun as (_ & _ & _ & Hfile & _).
  destruct Heff as (_ & _ & _ & _ & Hret).
  assert (Hbody : can_open w (Str.c_str localpath) = true ->
                  forall resp, r1 = Returns resp ->
                    exists d, performed t1 = [(CURLE_OK, d)]
                              /\ files w1 !! Str.c_str localpath = Some (body_of d)).
  { intros Hc resp Hr. destruct (Hret resp Hr) as (d & Hd). exists d.
    split; [exact Hd|].
    destruct (Hfile Hc) as [(Hnone & _)|(code & d' & Hd' & Hf)].
    - rewrite Hd in Hnone. discriminate.
    - rewrite Hd in Hd'. injection Hd' as <- <-. exact Hf. }
  destruct r1 as [resp|e].
  2:{ split; [reflexivity|]. split; [intros e' [= <-]; auto|].
      split; [discriminate|]. split; [discriminate | exact Hbody]. }
  destruct (Z.eqb_spec (status resp) 200) as [Hs|Hs].
  - unfold extract_tarball, ret.
    destruct (tar_open (Str.c_str localpath) (files w1)) as [tr|] eqn:Eo.
    + destruct (tar_extract_all tr (Str.c_str extractdir) (files w1)) as [rc disk] eqn:Ex.
      destruct (rc =? 0)%Z; cbn [negb app]; rewrite ?app_nil_r;
        (split; [reflexivity|]; split; [discriminate|];
         split; [intros resp' [= <-] Hne; contradiction|];
         split; [intros resp' [= <-] _; reflexivity | exact Hbody]).
    + cbn [app]. rewrite ?app_nil_r.
      split; [reflexivity|]. split; [discriminate|].
      split; [intros resp' [= <-] Hne; contradiction|].
      split; [intros resp' [= <-] _; reflexivity | exact Hbody].
  - unfold ret. cbn [app]. rewrite ?app_nil_r.
    split; [reflexivity|]. split; [discriminate|].
    split; [intros resp' [= <-] _; auto|].
    split; [intros resp' [= <-] He; contradiction | exact Hbody].
Qed.

End TarballProps.

(** On the simulated libraries the page, which comes with status 200, is
    downloaded and then extracted under the directory. *)
Example downloadtarball_extracts_the_page :
  files (snd (fst (client_downloadtarball (H := Sim.SimCurl) (H1 := Cases.OneFileTar)
                     (mk_client "http://example.com" 30%Z) "/" "/tmp/x" "/opt"
                     Sim.world0)))
  = {[ "/tmp/x" := "hello"; "/opt/payload" := "hello" ]}.
Proof. vm_compute. reflexivity. Qed.

(** ** How the callbacks compose *)

Section CallbackProps.
Context `{LibCurl} `{Zlib}.

(** X18.  Two header lines with different names, compared in lower case,
    can arrive in either order: the response the header callback leaves is
    the same. *)
Theorem header_lines_with_different_names_commute
    (name1 rest1 name2 rest2 : string) (resp : httpresponse) :
  Str.mem ":" name1 = false -> Str.mem ":" name2 = false ->
  Str.tolower name1 <> Str.tolower name2 ->
  headerfunc (name1 +:+ String ":" rest1) (headerfunc (name2 +:+ String ":" rest2) resp)
  = headerfunc (name2 +:+ String ":" rest2) (headerfunc (name1 +:+ String ":" rest1) resp).
Proof.
  intros H1 H2 Hne.
  rewrite !(headerfunc_colon name1 _ _ H1), !(headerfunc_colon name2 _ _ H2).
  unfold set_headers. cbn [status body headers]. f_equal.
  apply insert_insert_ne. exact Hne.
Qed.

(** X19.  The stream does not see how libcurl cuts the body into chunks:
    two chunks written one after the other leave what their concatenation
    written at once leaves, in the string stream of get and post as in the
    file of download, and a transfer leaves in the string stream the
    concatenation of its body chunks. *)
Theorem chunking_does_not_matter :
  (forall a b w, streamfunc b (streamfunc a w) = streamfunc (a +:+ b) w)
  /\ (forall a b w,
        deliver [BodyChunk a; BodyChunk b] w = deliver [BodyChunk (a +:+ b)] w)
  /\ (forall d s w,
        out w = ostringstream s ->
        out (deliver d w) = ostringstream (s +:+ body_of d))
  /\ (forall d1 d2, body_of (d1 ++ d2) = body_of d1 +:+ body_of d2).
Proof.
  assert (Hstream : forall a b w,
            streamfunc b (streamfunc a w) = streamfunc (a +:+ b) w).
  { intros a b w. unfold streamfunc.
    destruct (out w) as [s|p [|]] eqn:Eo; cbn [out with_out with_files files].
    - unfold with_out. cbn. rewrite append_assoc. reflexivity.
    - rewrite Eo. rewrite lookup_insert_eq. cbn [default].
      unfold with_files. cbn. rewrite insert_insert_eq, append_assoc.
      reflexivity.
    - rewrite Eo. reflexivity. }
  split; [exact Hstream|]. split; [|split].
  - intros a b w. unfold deliver. cbn [fold_left callback]. apply Hstream.
  - intros d s w Hout. apply (deliver_string d w s Hout).
  - intros d1 d2. induction d1 as [|[line|chunk] d1 IH]; cbn [app].
    + reflexivity.
    + unfold body_of in *. fold body_of in *. exact IH.
    + unfold body_of in *. fold body_of in *. rewrite IH, append_assoc. reflexivity.
Qed.

(** X20.  When data is longer than 10240 bytes and gzip throws, post does
    not fall back to the plain data: it throws, and neither a body nor a
    transfer reaches libcurl. *)
Theorem post_sends_nothing_when_compression_fails
    (url data : string) (timeout : Z) (w : world) (e : exn) :
  (10240 < size data)%Z ->
  gzip data = Throws e ->
  let '(r, _, t) := post url data timeout w in
  (exists e', r = Throws e')
  /\ postfields_of t = []
  /\ performed t = [].
Proof.
  intros Hsize Hgz.
  pose proof (post_run url data timeout w) as Hrun.
  destruct (post url data timeout w) as [[r w'] t].
  cbv beta iota zeta in Hrun.
  apply Z.ltb_lt in Hsize. rewrite Hsize, Hgz in Hrun.
  destruct Hrun as (_ & Hpf & _ & Hperf & Hret).
  assert (Hp : performed t = []).
  { destruct (performed t) as [|[code d] l] eqn:Ep; [reflexivity|].
    destruct (Hperf code d (or_introl eq_refl)) as (x & Hx & _). discriminate. }
  split; [|split; [|exact Hp]].
  - destruct r as [resp|e']; [|eexists; reflexivity].
    destruct (Hret resp eq_refl) as (d & Hd & _). rewrite Hp in Hd. discriminate.
  - destruct (postfields_of t) as [|x l] eqn:Ep; [reflexivity|].
    specialize (Hpf x (or_introl eq_refl)). discriminate.
Qed.

End CallbackProps.

(** Content-Type and Content-Length in either order. *)
Lemma header_lines_with_different_names_commute_witness :
  headerfunc ("Content-Type" +:+ String ":" " text/plain")
    (headerfunc ("Content-Length" +:+ String ":" " 5") fresh_response)
  = headerfunc ("Content-Length" +:+ String ":" " 5")
      (headerfunc ("Content-Type" +:+ String ":" " text/plain") fresh_response).
Proof.
  exact (header_lines_with_different_names_commute
           "Content-Type" " text/plain" "Content-Length" " 5" fresh_response
           eq_refl eq_refl ltac:(discriminate)).
Defined.

(** With a zlib whose deflateInit2 fails, a post of 10241 bytes throws the
    runtime_error of gzip and nothing is sent. *)
Lemma post_sends_nothing_when_compression_fails_witness :
  fst (fst (post (H := Sim.SimCurl) (H0 := Cases.BrokenZlib)
              "http://example.com/" Sim.big_body 30%Z Sim.world0))
  = Throws (runtime_error "error initializing deflate")
  /\ performed (snd (post (H := Sim.SimCurl) (H0 := Cases.BrokenZlib)
                       "http://example.com/" Sim.big_body 30%Z Sim.world0)) = [].
Proof.
  split; [vm_compute; reflexivity|].
  generalize (post_sends_nothing_when_compression_fails (H := Sim.SimCurl)
                (H0 := Cases.BrokenZlib) "http://example.com/" Sim.big_body 30%Z
                Sim.world0 (runtime_error "error initializing deflate")
                ltac:(vm_compute; reflexivity) eq_refl).
  destruct (post (H := Sim.SimCurl) (H0 := Cases.BrokenZlib)
              "http://example.com/" Sim.big_body 30%Z Sim.world0) as [[r w'] t].
  intros (_ & _ & Hp). exact Hp.
Defined.
